(** * audible-util example parsers: a model of [examples/python_parser.py]
      and [examples/simple_json_parser.py]

    The two scripts spawn the external converter with the flag
    [--machine-readable], read its standard output line by line, decode each
    line as JSON, keep a small progress state and render a status display.

    Layout of this development:
    - [Float64]: Python's [float] (IEEE binary64) on top of the Standard
      Library's [SpecFloat], with the conversions and the fixed-point
      formatting the scripts use;
    - [PyStr]: the string helpers ([str.strip], repetition, padding);
    - [PyVal]: the values [json.loads] can produce and the dynamically typed
      operators the handlers apply to them;
    - [Json]: the decoder behind [json.loads];
    - [Exec]: a state / output / exception monad for method bodies;
    - [AudibleUtilParser] and [SimpleJsonParser]: the two scripts;
    - [Scenario] and [Observe]: concrete children and systems, and what the
      statements read off a run;
    - [Behaviour]: closed forms of what the scripts do, for comparison;
    - the properties of the scripts.

    Conventions of the model:
    - a Python [int] is a [Z], a [float] a binary64 [spec_float], a [str]
      the bytes of its UTF-8 encoding, a [dict] an association list in
      insertion order with distinct keys;
    - an expression evaluates to a value or raises ([outcome]); a method
      body threads the object state and accumulates what it prints ([M]);
    - the operating system is an explicit argument ([world]): what [Popen]
      does with an argument vector, and what the clock reads;
    - [print] always succeeds, and the limits of the interpreter (memory,
      recursion depth, the digit limit on integer literals) are not
      reached. *)

From Stdlib Require Import ZArith List String Ascii Bool Lia.
From Stdlib Require Import Floats.SpecFloat.
From Stdlib Require Import DecimalString.
From Equations Require Import Equations.
Import ListNotations.

#[local] Set Warnings "-register-all".
Local Open Scope string_scope.
Local Open Scope Z_scope.

(* ===================================================================== *)
(** ** Python floats *)
(* ===================================================================== *)

Module Float64.

Definition float := spec_float.

Definition prec : Z := 53.
Definition emax : Z := 1024.

Definition pos_inf : float := S754_infinity false.
Definition neg_inf : float := S754_infinity true.
Definition nan : float := S754_nan.

(** Nearest binary64 to an integer (ties to even); an overflow shows as an
    infinity. *)
Definition of_Z (n : Z) : float := binary_normalize prec emax n 0 false.

(** Nearest binary64 to the quotient [a / b] of two integers, [b > 0]. *)
Definition of_ratio (neg : bool) (a b : Z) : float :=
  match a with
  | Z0 => S754_zero neg
  | _ =>
      let '(q, e, l) := SFdiv_core_binary prec emax a 0 b 0 in
      binary_round_aux prec emax neg q e l
  end.

(** Nearest binary64 to [(-1)^neg * m * 10^e10], the value of a decimal
    literal with digits [m]. *)
Definition of_decimal (neg : bool) (m e10 : Z) : float :=
  match m with
  | Z0 => S754_zero neg
  | _ =>
      if 0 <=? e10
      then binary_normalize prec emax
             (if neg then - (m * 10 ^ e10) else m * 10 ^ e10) 0 false
      else of_ratio neg m (10 ^ (- e10))
  end.

Definition mul : float -> float -> float := SFmul prec emax.
Definition div : float -> float -> float := SFdiv prec emax.

Definition is_finite (x : float) : bool :=
  match x with
  | S754_zero _ | S754_finite _ _ _ => true
  | _ => false
  end.

Definition is_zero (x : float) : bool :=
  match x with
  | S754_zero _ => true
  | _ => false
  end.

(** [x >= y]; false as soon as one side is a NaN. *)
Definition geb (x y : float) : bool := SFleb y x.

(** The integer part of a finite float, rounded toward zero. *)
Definition trunc (x : float) : option Z :=
  match x with
  | S754_zero _ => Some 0
  | S754_finite s m e =>
      let a := match e with
               | Zneg p => Z.pos m / 2 ^ Z.pos p
               | _ => Z.pos m * 2 ^ e
               end in
      Some (if s then - a else a)
  | _ => None
  end.

(** [round_half_even a b]: the integer nearest to [a / b] for [a >= 0] and
    [b > 0], ties to the even one. *)
Definition round_half_even (a b : Z) : Z :=
  let q := a / b in
  let r := a mod b in
  match 2 * r ?= b with
  | Lt => q
  | Gt => q + 1
  | Eq => if Z.even q then q else q + 1
  end.

Definition digits_of_Z (n : Z) : string :=
  NilZero.string_of_uint (N.to_uint (Z.to_N n)).

Fixpoint zeros (n : nat) : string :=
  match n with
  | O => EmptyString
  | S k => String "0" (zeros k)
  end.

(** The [d] decimals of the scaled magnitude [n] (= |x| * 10^d). *)
Definition fixed_digits (d : nat) (n : Z) : string :=
  let p := 10 ^ Z.of_nat d in
  let ip := digits_of_Z (n / p) in
  match d with
  | O => ip
  | _ =>
      let fr := digits_of_Z (n mod p) in
      ip ++ "." ++ zeros (d - String.length fr) ++ fr
  end.

(** [format(x, ".df")]: the exact value of [x] rounded to [d] decimals,
    ties to even, as CPython prints it. *)
Definition format_f (d : nat) (x : float) : string :=
  match x with
  | S754_nan => "nan"
  | S754_infinity s => if s then "-inf" else "inf"
  | S754_zero s => (if s then "-" else "") ++ fixed_digits d 0
  | S754_finite s m e =>
      let p := 10 ^ Z.of_nat d in
      let n := match e with
               | Zneg k => round_half_even (Z.pos m * p) (2 ^ Z.pos k)
               | _ => Z.pos m * 2 ^ e * p
               end in
      (if s then "-" else "") ++ fixed_digits d n
  end.

(** After [k] shifts the mantissa is the quotient by [2^k], and the round
    bit is set only when the remainder is at least half of [2^k]. *)
Definition shifted (M k : Z) (mrs : shr_record) : Prop :=
  shr_m mrs = M / 2 ^ k /\
  (shr_r mrs = true -> 1 <= k /\ 2 ^ (k - 1) <= M mod 2 ^ k).

End Float64.

(* ===================================================================== *)
(** ** Python strings *)
(* ===================================================================== *)

(** A Python [str] is kept as its UTF-8 encoding, one [ascii] per byte. *)

Module PyStr.

Definition is_prefix (p s : list ascii) : bool :=
  (List.length p <=? List.length s)%nat &&
  if list_eq_dec ascii_dec p (firstn (List.length p) s) then true else false.

Definition byte (n : N) : ascii := ascii_of_N n.

(** The characters [str.isspace] accepts beyond ASCII, UTF-8 encoded:
    U+0085, U+00A0, U+1680, U+2000..U+200A, U+2028, U+2029, U+202F, U+205F
    and U+3000. *)
Definition wide_spaces : list (list ascii) :=
  ([[byte 194; byte 133]; [byte 194; byte 160];
    [byte 225; byte 154; byte 128]]
   ++ map (fun n => [byte 226; byte 128; byte n])
        [128; 129; 130; 131; 132; 133; 134; 135; 136; 137; 138;
         168; 169; 175]%N
   ++ [[byte 226; byte 129; byte 159]; [byte 227; byte 128; byte 128]])%list.

(** All the characters [str.isspace] accepts: U+0009..U+000D,
    U+001C..U+0020 and the ones above. *)
Definition whitespace : list (list ascii) :=
  (map (fun n => [byte n]) [9; 10; 11; 12; 13; 28; 29; 30; 31; 32]%N
   ++ wide_spaces)%list.

(** The length of the character of [ws] that [s] starts with, if any. *)
Definition leading_space (ws : list (list ascii)) (s : list ascii)
  : option nat :=
  match filter (fun w => is_prefix w s) ws with
  | w :: _ => Some (List.length w)
  | [] => None
  end.

(** [lstrip] on at most [fuel] further characters of [s]. *)
Fixpoint lstrip_aux (ws : list (list ascii)) (fuel : nat) (s : list ascii)
  : list ascii :=
  match fuel with
  | O => s
  | S k =>
      match leading_space ws s with
      | Some n => lstrip_aux ws k (skipn n s)
      | None => s
      end
  end.

Definition lstrip (ws : list (list ascii)) (s : list ascii) : list ascii :=
  lstrip_aux ws (List.length s) s.

(** Trailing whitespace is leading whitespace of the reversed text, with
    each character's bytes reversed. *)
Definition rstrip (ws : list (list ascii)) (s : list ascii) : list ascii :=
  rev (lstrip (map (@rev ascii) ws) (rev s)).

(** [s] without the leading and trailing characters of [ws]. *)
Definition strip_chars (ws : list (list ascii)) (s : string) : string :=
  string_of_list_ascii (rstrip ws (lstrip ws (list_ascii_of_string s))).

(** [s.strip()] *)
Definition strip (s : string) : string := strip_chars whitespace s.

(** [s * n]: [n] copies of [s], none when [n <= 0]. *)
Definition repeat (s : string) (n : Z) : string :=
  String.concat "" (List.repeat s (Z.to_nat n)).

Fixpoint spaces (n : nat) : string :=
  match n with
  | O => EmptyString
  | S k => String " " (spaces k)
  end.

(** Right-align [s] in a field of [w] characters. *)
Definition pad_left (w : nat) (s : string) : string :=
  spaces (w - String.length s) ++ s.

End PyStr.

(* ===================================================================== *)
(** ** Python values and operators *)
(* ===================================================================== *)

(** The exceptions the scripts can meet; all of them derive from
    [Exception]. *)
Inductive exn : Type :=
| AttributeError
| TypeError
| ValueError
| OverflowError
| ZeroDivisionError
| OSError.

(** The result of evaluating an expression: a value or a raised exception. *)
Inductive outcome (A : Type) : Type :=
| Ret (a : A)
| Raise (e : exn).
Arguments Ret {A} a.
Arguments Raise {A} e.

Module PyVal.

Import Float64.

(** What [json.loads] returns: [None], [bool], [int], [float], [str],
    [list] and [dict] with [str] keys (in insertion order). *)
Inductive pyval : Type :=
| PNone
| PBool (b : bool)
| PInt (n : Z)
| PFloat (x : float)
| PStr (s : string)
| PList (l : list pyval)
| PDict (d : list (string * pyval)).

(** [d[k] = v] on a dict: an existing key keeps its place. *)
Fixpoint dict_set (d : list (string * pyval)) (k : string) (v : pyval)
  : list (string * pyval) :=
  match d with
  | [] => [(k, v)]
  | (k', v') :: r =>
      if String.eqb k' k then (k, v) :: r else (k', v') :: dict_set r k v
  end.

Fixpoint dict_lookup (d : list (string * pyval)) (k : string)
  : option pyval :=
  match d with
  | [] => None
  | (k', v) :: r => if String.eqb k' k then Some v else dict_lookup r k
  end.

(** [d.get(key, default)] on a dict. *)
Definition dict_get (d : list (string * pyval)) (key : string)
           (default : pyval) : pyval :=
  match dict_lookup d key with
  | Some v => v
  | None => default
  end.

(** [event.get(key, default)]; only a dict has the method. *)
Definition get (event : pyval) (key : string) (default : pyval)
  : outcome pyval :=
  match event with
  | PDict d => Ret (dict_get d key default)
  | _ => Raise AttributeError
  end.

(** [bool(v)], the test behind [if v:]. *)
Definition truthy (v : pyval) : bool :=
  match v with
  | PNone => false
  | PBool b => b
  | PInt n => negb (n =? 0)
  | PFloat x => negb (is_zero x)
  | PStr s => negb (String.eqb s "")
  | PList l => match l with [] => false | _ => true end
  | PDict d => match d with [] => false | _ => true end
  end.

(** [v == s] for a string literal [s]. *)
Definition eq_str (v : pyval) (s : string) : bool :=
  match v with
  | PStr t => String.eqb t s
  | _ => false
  end.

(** [v == 0] *)
Definition eq_zero (v : pyval) : bool :=
  match v with
  | PBool b => negb b
  | PInt n => n =? 0
  | PFloat x => is_zero x
  | _ => false
  end.

(** [float(n)] for an [int]. *)
Definition float_of_int (n : Z) : outcome float :=
  let x := of_Z n in
  if is_finite x then Ret x else Raise OverflowError.

Definition Z_of_bool (b : bool) : Z := if b then 1 else 0.

(** [n * v] for an [int] [n]: a product of numbers, or a repetition of a
    sequence. *)
Definition mul_int (n : Z) (v : pyval) : outcome pyval :=
  match v with
  | PBool b => Ret (PInt (n * Z_of_bool b))
  | PInt m => Ret (PInt (n * m))
  | PFloat x =>
      match float_of_int n with
      | Ret y => Ret (PFloat (mul y x))
      | Raise e => Raise e
      end
  | PStr s => Ret (PStr (PyStr.repeat s n))
  | PList l => Ret (PList (List.concat (List.repeat l (Z.to_nat n))))
  | PNone | PDict _ => Raise TypeError
  end.

(** [a / b] on two [int]s: the correctly rounded quotient. *)
Definition int_truediv (a b : Z) : outcome float :=
  if b =? 0 then Raise ZeroDivisionError
  else
    let x := of_ratio (xorb (a <? 0) (b <? 0)) (Z.abs a) (Z.abs b) in
    if is_finite x then Ret x else Raise OverflowError.

(** [v / d] for an [int] [d]. *)
Definition truediv_int (v : pyval) (d : Z) : outcome float :=
  match v with
  | PBool b => int_truediv (Z_of_bool b) d
  | PInt n => int_truediv n d
  | PFloat x =>
      match float_of_int d with
      | Ret y => if is_zero y then Raise ZeroDivisionError else Ret (div x y)
      | Raise e => Raise e
      end
  | _ => Raise TypeError
  end.

(** [int(x)] for a [float]. *)
Definition int_of_float (x : float) : outcome Z :=
  match x with
  | S754_nan => Raise ValueError
  | S754_infinity _ => Raise OverflowError
  | _ => match trunc x with Some n => Ret n | None => Raise ValueError end
  end.

(** [format(v, ".df")]: numbers only; an [int] goes through [float]. *)
Definition format_fixed (d : nat) (v : pyval) : outcome string :=
  match v with
  | PBool b => Ret (format_f d (of_Z (Z_of_bool b)))
  | PInt n =>
      match float_of_int n with
      | Ret x => Ret (format_f d x)
      | Raise e => Raise e
      end
  | PFloat x => Ret (format_f d x)
  | PStr _ => Raise ValueError
  | PNone | PList _ | PDict _ => Raise TypeError
  end.

(** *** [float(s)] for a string *)

(** Where the scanner of [float(s)] stands in a decimal literal. *)
Inductive fstate : Type :=
| FStart                              (* nothing read after the sign *)
| FInt (m : Z)                        (* in the integer digits *)
| FSep (k : fstate)                   (* after an underscore: a digit of [k] must follow *)
| FPoint (m : Z) (some : bool)        (* after the point; [some]: digits came before *)
| FFrac (m : Z) (nf : Z)              (* in the fraction digits *)
| FE (m : Z) (nf : Z)                 (* after [e] *)
| FESign (m : Z) (nf : Z) (eneg : bool)
| FExp (m : Z) (nf : Z) (eneg : bool) (ex : Z).

Definition ascii_digit (c : ascii) : option Z :=
  let n := Z.of_N (N_of_ascii c) in
  if (48 <=? n) && (n <=? 57) then Some (n - 48) else None.

(** A digit [d] read in state [k]. *)
Definition fdigit (k : fstate) (d : Z) : option fstate :=
  match k with
  | FStart => Some (FInt d)
  | FInt m => Some (FInt (10 * m + d))
  | FSep (FInt m) => Some (FInt (10 * m + d))
  | FSep (FFrac m nf) => Some (FFrac (10 * m + d) (nf + 1))
  | FSep (FExp m nf eneg ex) => Some (FExp m nf eneg (10 * ex + d))
  | FSep _ => None
  | FPoint m _ => Some (FFrac (10 * m + d) 1)
  | FFrac m nf => Some (FFrac (10 * m + d) (nf + 1))
  | FE m nf => Some (FExp m nf false d)
  | FESign m nf eneg => Some (FExp m nf eneg d)
  | FExp m nf eneg ex => Some (FExp m nf eneg (10 * ex + d))
  end.

Definition fstep (k : fstate) (c : ascii) : option fstate :=
  let isE := (Ascii.eqb c "e" || Ascii.eqb c "E")%bool in
  match ascii_digit c with
  | Some d => fdigit k d
  | None =>
      match k with
      | FStart => if Ascii.eqb c "." then Some (FPoint 0 false) else None
      | FInt m =>
          if Ascii.eqb c "_" then Some (FSep k)
          else if Ascii.eqb c "." then Some (FPoint m true)
          else if isE then Some (FE m 0)
          else None
      | FPoint m true => if isE then Some (FE m 0) else None
      | FFrac m nf =>
          if Ascii.eqb c "_" then Some (FSep k)
          else if isE then Some (FE m nf)
          else None
      | FE m nf =>
          if Ascii.eqb c "+" then Some (FESign m nf false)
          else if Ascii.eqb c "-" then Some (FESign m nf true)
          else None
      | FExp _ _ _ _ => if Ascii.eqb c "_" then Some (FSep k) else None
      | _ => None
      end
  end.

Fixpoint fscan (k : fstate) (cs : list ascii) : option fstate :=
  match cs with
  | [] => Some k
  | c :: r => match fstep k c with Some k' => fscan k' r | None => None end
  end.

(** The value at the end of a literal, if it may end there. *)
Definition fvalue (neg : bool) (k : fstate) : option float :=
  match k with
  | FInt m => Some (of_decimal neg m 0)
  | FPoint m true => Some (of_decimal neg m 0)
  | FFrac m nf => Some (of_decimal neg m (- nf))
  | FExp m nf eneg ex =>
      Some (of_decimal neg m ((if eneg then - ex else ex) - nf))
  | _ => None
  end.

Definition lower (c : ascii) : ascii :=
  let n := N_of_ascii c in
  if ((65 <=? n) && (n <=? 90))%N then ascii_of_N (n + 32) else c.

(** The whitespace [float(s)] ignores around the number: the ASCII
    characters U+0009..U+000D and U+0020, and every other Unicode space. *)
Definition float_spaces : list (list ascii) :=
  (map (fun n => [PyStr.byte n]) [9; 10; 11; 12; 13; 32]%N
   ++ PyStr.wide_spaces)%list.

(** [float(s)]: surrounding whitespace, a sign, then [inf], [infinity],
    [nan] (in any case) or a decimal literal whose digits may be grouped
    with single underscores.  Decimal digits other than ASCII ones are
    not recognised. *)
Definition float_of_str (s : string) : outcome float :=
  let cs := list_ascii_of_string (PyStr.strip_chars float_spaces s) in
  let '(neg, body) :=
    match cs with
    | c :: r =>
        if Ascii.eqb c "-" then (true, r)
        else if Ascii.eqb c "+" then (false, r)
        else (false, cs)
    | [] => (false, cs)
    end in
  let word := string_of_list_ascii (map lower body) in
  if String.eqb word "inf" || String.eqb word "infinity"
  then Ret (S754_infinity neg)
  else if String.eqb word "nan" then Ret nan
  else
    match fscan FStart body with
    | Some k =>
        match fvalue neg k with
        | Some x => Ret x
        | None => Raise ValueError
        end
    | None => Raise ValueError
    end.

(** [float(v)] *)
Definition to_float (v : pyval) : outcome float :=
  match v with
  | PBool b => Ret (of_Z (Z_of_bool b))
  | PInt n => float_of_int n
  | PFloat x => Ret x
  | PStr s => float_of_str s
  | PNone | PList _ | PDict _ => Raise TypeError
  end.

End PyVal.

(* ===================================================================== *)
(** ** The JSON decoder *)
(* ===================================================================== *)

(** [json.loads] of the Python standard library, as a scanner that reads the
    text one byte at a time into tokens and a pushdown recogniser over the
    tokens.  It accepts what CPython's decoder accepts: the JSON grammar with
    the whitespace [" \t\n\r"], the extra literals [NaN], [Infinity] and
    [-Infinity], integers of any size, and strict strings (no raw control
    characters).  Every rejection is the one exception [JSONDecodeError];
    interpreter resource limits (recursion depth, the digit limit on
    integer literals) are outside the model. *)

Module Json.

Import Float64 PyVal.

Inductive token : Type :=
| TLBrace | TRBrace | TLBracket | TRBracket | TColon | TComma
| TVal (v : pyval).

(** A piece of a string literal: a raw byte or the 16-bit unit of a
    [\uXXXX] escape. *)
Inductive sitem : Type :=
| Raw (c : ascii)
| Unit (u : N).

(** Where the scanner stands inside a number literal. *)
Inductive numst : Type :=
| NMinus
| NInt (neg : bool) (ipart : Z) (lone_zero : bool)
| NDot (neg : bool) (ipart : Z)
| NFrac (neg : bool) (mant : Z) (nfrac : Z)
| NE (neg : bool) (mant : Z) (nfrac : Z)
| NESign (neg : bool) (mant : Z) (nfrac : Z) (eneg : bool)
| NExp (neg : bool) (mant : Z) (nfrac : Z) (eneg : bool) (ex : Z).

Inductive lstate : Type :=
| LIdle
| LNum (n : numst)
| LLit (rest : list ascii) (v : pyval)
| LStr (acc : list sitem)
| LEsc (acc : list sitem)
| LHex (acc : list sitem) (k : nat) (u : N).

Definition digit_of (c : ascii) : option Z :=
  let n := Z.of_N (N_of_ascii c) in
  if (48 <=? n) && (n <=? 57) then Some (n - 48) else None.

Definition hex_of (c : ascii) : option N :=
  let n := N_of_ascii c in
  if ((48 <=? n) && (n <=? 57))%N then Some (n - 48)%N
  else if ((65 <=? n) && (n <=? 70))%N then Some (n - 55)%N
  else if ((97 <=? n) && (n <=? 102))%N then Some (n - 87)%N
  else None.

Definition dquote : ascii := PyStr.byte 34.

Definition is_json_space (c : ascii) : bool :=
  let n := N_of_ascii c in
  ((n =? 32) || (n =? 9) || (n =? 10) || (n =? 13))%N.

(** UTF-8 encoding of a code point (a lone surrogate is encoded like any
    other three-byte value). *)
Definition utf8 (u : N) : list ascii :=
  let b := PyStr.byte in
  (if u <? 128 then [b u]
   else if u <? 2048 then [b (192 + u / 64); b (128 + u mod 64)]
   else if u <? 65536 then
     [b (224 + u / 4096); b (128 + (u / 64) mod 64); b (128 + u mod 64)]
   else
     [b (240 + u / 262144); b (128 + (u / 4096) mod 64);
      b (128 + (u / 64) mod 64); b (128 + u mod 64)])%N.

Definition is_high (u : N) : bool := ((55296 <=? u) && (u <=? 56319))%N.
Definition is_low (u : N) : bool := ((56320 <=? u) && (u <=? 57343))%N.

(** The text of a string literal; an escaped high surrogate directly
    followed by an escaped low surrogate is one code point. *)
Fixpoint decode_items (l : list sitem) : list ascii :=
  match l with
  | [] => []
  | Raw c :: r => c :: decode_items r
  | Unit u :: r =>
      match r with
      | Unit v :: r' =>
          if is_high u && is_low v
          then (utf8 (65536 + (u - 55296) * 1024 + (v - 56320))
                  ++ decode_items r')%list
          else (utf8 u ++ decode_items r)%list
      | _ => (utf8 u ++ decode_items r)%list
      end
  end.

(** The value of a complete number literal, if the scanner stands at the
    end of one. *)
Definition finish_number (n : numst) : option pyval :=
  match n with
  | NInt neg i _ => Some (PInt (if neg then - i else i))
  | NFrac neg m nf => Some (PFloat (of_decimal neg m (- nf)))
  | NExp neg m nf eneg ex =>
      Some (PFloat (of_decimal neg m ((if eneg then - ex else ex) - nf)))
  | _ => None
  end.

(** One more byte inside a number; [None] when the byte cannot extend it. *)
Definition num_step (n : numst) (c : ascii) : option lstate :=
  let isE := (Ascii.eqb c "e" || Ascii.eqb c "E")%bool in
  match n, digit_of c with
  | NMinus, Some d => Some (LNum (NInt true d (d =? 0)))
  | NMinus, None =>
      if Ascii.eqb c "I"
      then Some (LLit (list_ascii_of_string "nfinity") (PFloat neg_inf))
      else None
  | NInt neg i false, Some d => Some (LNum (NInt neg (10 * i + d) false))
  | NInt neg i true, Some _ => None
  | NInt neg i _, None =>
      if Ascii.eqb c "." then Some (LNum (NDot neg i))
      else if isE then Some (LNum (NE neg i 0))
      else None
  | NDot neg i, Some d => Some (LNum (NFrac neg (10 * i + d) 1))
  | NDot _ _, None => None
  | NFrac neg m nf, Some d => Some (LNum (NFrac neg (10 * m + d) (nf + 1)))
  | NFrac neg m nf, None => if isE then Some (LNum (NE neg m nf)) else None
  | NE neg m nf, Some d => Some (LNum (NExp neg m nf false d))
  | NE neg m nf, None =>
      if Ascii.eqb c "+" then Some (LNum (NESign neg m nf false))
      else if Ascii.eqb c "-" then Some (LNum (NESign neg m nf true))
      else None
  | NESign neg m nf eneg, Some d => Some (LNum (NExp neg m nf eneg d))
  | NESign _ _ _ _, None => None
  | NExp neg m nf eneg ex, Some d =>
      Some (LNum (NExp neg m nf eneg (10 * ex + d)))
  | NExp _ _ _ _ _, None => None
  end.

(** The scanner between tokens. *)
Definition idle_step (toks : list token) (c : ascii)
  : option (lstate * list token) :=
  let lit s v := Some (LLit (list_ascii_of_string s) v, toks) in
  if is_json_space c then Some (LIdle, toks)
  else if Ascii.eqb c "{" then Some (LIdle, TLBrace :: toks)
  else if Ascii.eqb c "}" then Some (LIdle, TRBrace :: toks)
  else if Ascii.eqb c "[" then Some (LIdle, TLBracket :: toks)
  else if Ascii.eqb c "]" then Some (LIdle, TRBracket :: toks)
  else if Ascii.eqb c ":" then Some (LIdle, TColon :: toks)
  else if Ascii.eqb c "," then Some (LIdle, TComma :: toks)
  else if Ascii.eqb c dquote then Some (LStr [], toks)
  else if Ascii.eqb c "n" then lit "ull" PNone
  else if Ascii.eqb c "t" then lit "rue" (PBool true)
  else if Ascii.eqb c "f" then lit "alse" (PBool false)
  else if Ascii.eqb c "N" then lit "aN" (PFloat nan)
  else if Ascii.eqb c "I" then lit "nfinity" (PFloat pos_inf)
  else if Ascii.eqb c "-" then Some (LNum NMinus, toks)
  else match digit_of c with
       | Some d => Some (LNum (NInt false d (d =? 0)), toks)
       | None => None
       end.

Definition escape_of (c : ascii) : option ascii :=
  if Ascii.eqb c dquote then Some c
  else if Ascii.eqb c "\" then Some c
  else if Ascii.eqb c "/" then Some c
  else if Ascii.eqb c "b" then Some (PyStr.byte 8)
  else if Ascii.eqb c "f" then Some (PyStr.byte 12)
  else if Ascii.eqb c "n" then Some (PyStr.byte 10)
  else if Ascii.eqb c "r" then Some (PyStr.byte 13)
  else if Ascii.eqb c "t" then Some (PyStr.byte 9)
  else None.

(** One byte of input; the tokens are collected last first. *)
Definition lex_step (st : lstate) (toks : list token) (c : ascii)
  : option (lstate * list token) :=
  match st with
  | LIdle => idle_step toks c
  | LNum n =>
      match num_step n c with
      | Some st' => Some (st', toks)
      | None =>
          match finish_number n with
          | Some v => idle_step (TVal v :: toks) c
          | None => None
          end
      end
  | LLit [] v => None
  | LLit (x :: rest) v =>
      if Ascii.eqb c x then
        match rest with
        | [] => Some (LIdle, TVal v :: toks)
        | _ => Some (LLit rest v, toks)
        end
      else None
  | LStr acc =>
      if Ascii.eqb c dquote then
        Some (LIdle,
              TVal (PStr (string_of_list_ascii (decode_items (rev acc))))
                :: toks)
      else if Ascii.eqb c "\" then Some (LEsc acc, toks)
      else if (N_of_ascii c <? 32)%N then None
      else Some (LStr (Raw c :: acc), toks)
  | LEsc acc =>
      if Ascii.eqb c "u" then Some (LHex acc 0 0%N, toks)
      else match escape_of c with
           | Some e => Some (LStr (Raw e :: acc), toks)
           | None => None
           end
  | LHex acc k u =>
      match hex_of c with
      | Some h =>
          let u' := (16 * u + h)%N in
          if (k =? 3)%nat then Some (LStr (Unit u' :: acc), toks)
          else Some (LHex acc (S k) u', toks)
      | None => None
      end
  end.

(** The scanner over a whole text. *)
Fixpoint lex (st : lstate) (toks : list token) (cs : list ascii)
  : option (list token) :=
  match cs with
  | [] =>
      match st with
      | LIdle => Some (rev toks)
      | LNum n =>
          match finish_number n with
          | Some v => Some (rev (TVal v :: toks))
          | None => None
          end
      | _ => None
      end
  | c :: r =>
      match lex_step st toks c with
      | Some (st', toks') => lex st' toks' r
      | None => None
      end
  end.

(** An open container on the recogniser's stack. *)
Inductive frame : Type :=
| FArr (items : list pyval)
| FObj (d : list (string * pyval)) (key : string).

Inductive pstate : Type :=
| PValue (stk : list frame)
| PArrStart (stk : list frame)
| PArrNext (stk : list frame) (items : list pyval)
| PObjStart (stk : list frame)
| PObjKey (stk : list frame) (d : list (string * pyval))
| PObjColon (stk : list frame) (d : list (string * pyval)) (key : string)
| PObjNext (stk : list frame) (d : list (string * pyval))
| PDone (v : pyval).

(** A value [v] is complete: it goes into the innermost open container,
    or is the result. *)
Definition reduce (stk : list frame) (v : pyval) : pstate :=
  match stk with
  | [] => PDone v
  | FArr items :: stk' => PArrNext stk' (items ++ [v])%list
  | FObj d key :: stk' => PObjNext stk' (dict_set d key v)
  end.

(** A token where a value is expected. *)
Definition value_step (stk : list frame) (t : token) : option pstate :=
  match t with
  | TVal v => Some (reduce stk v)
  | TLBracket => Some (PArrStart stk)
  | TLBrace => Some (PObjStart stk)
  | _ => None
  end.

Definition parse_step (st : pstate) (t : token) : option pstate :=
  match st, t with
  | PValue stk, _ => value_step stk t
  | PArrStart stk, TRBracket => Some (reduce stk (PList []))
  | PArrStart stk, _ => value_step (FArr [] :: stk) t
  | PArrNext stk items, TComma => Some (PValue (FArr items :: stk))
  | PArrNext stk items, TRBracket => Some (reduce stk (PList items))
  | PObjStart stk, TRBrace => Some (reduce stk (PDict []))
  | PObjStart stk, TVal (PStr k) => Some (PObjColon stk [] k)
  | PObjKey stk d, TVal (PStr k) => Some (PObjColon stk d k)
  | PObjColon stk d k, TColon => Some (PValue (FObj d k :: stk))
  | PObjNext stk d, TComma => Some (PObjKey stk d)
  | PObjNext stk d, TRBrace => Some (reduce stk (PDict d))
  | _, _ => None
  end.

Fixpoint parse (st : pstate) (ts : list token) : option pyval :=
  match ts with
  | [] => match st with PDone v => Some v | _ => None end
  | t :: r =>
      match parse_step st t with
      | Some st' => parse st' r
      | None => None
      end
  end.

(** [json.loads(s)]: [None] stands for a raised [JSONDecodeError]. *)
Definition loads (s : string) : option pyval :=
  match lex LIdle [] (list_ascii_of_string s) with
  | Some ts => parse (PValue []) ts
  | None => None
  end.

(** JSON text is written below with ['] where the wire has the double
    quote. *)
Definition wire (s : string) : string :=
  string_of_list_ascii
    (map (fun c => if Ascii.eqb c "'" then dquote else c)
       (list_ascii_of_string s)).

End Json.

(* ===================================================================== *)
(** ** Method bodies: state, printed output and exceptions *)
(* ===================================================================== *)

(** What [print] sends to the terminal, kept as the pieces of the f-string.
    A value interpolated without a format specification is kept as the value
    itself: [StrOf v] stands for the text [str(v)]. *)
Inductive piece : Type :=
| Text (s : string)
| StrOf (v : PyVal.pyval)
| JsonOf (v : PyVal.pyval)          (* [json.dumps(v, indent=2)] *)
| ExnOf (e : exn)                   (* [str(e)] of a caught exception *)
| DecodeErrorOf (s : string).       (* [str(e)] of a [JSONDecodeError] on [s] *)

Module Exec.

Section WithState.

Context {St : Type}.

(** A computation over the object state [St]: its result or exception,
    the state it leaves, and what it printed. *)
Definition M (A : Type) : Type := St -> outcome A * St * list piece.

Definition ret {A} (a : A) : M A := fun s => (Ret a, s, []).

Definition bind {A B} (m : M A) (f : A -> M B) : M B :=
  fun s =>
    match m s with
    | (Ret a, s1, o1) =>
        let '(r, s2, o2) := f a s1 in (r, s2, (o1 ++ o2)%list)
    | (Raise e, s1, o1) => (Raise e, s1, o1)
    end.

(** An expression that may raise. *)
Definition lift {A} (r : outcome A) : M A := fun s => (r, s, []).

Definition print (ps : list piece) : M unit := fun s => (Ret tt, s, ps).

Definition read : M St := fun s => (Ret s, s, []).

Definition write (s' : St) : M unit := fun _ => (Ret tt, s', []).

(** [try: m except Exception as e: h e] *)
Definition try_except {A} (m : M A) (h : exn -> M A) : M A :=
  fun s =>
    match m s with
    | (Ret a, s1, o1) => (Ret a, s1, o1)
    | (Raise e, s1, o1) =>
        let '(r, s2, o2) := h e s1 in (r, s2, (o1 ++ o2)%list)
    end.

End WithState.

Module Notations.
Notation "x <- m ;; k" := (bind m (fun x => k))
  (at level 61, m at next level, right associativity).
Notation "m ;;; k" := (bind m (fun _ => k))
  (at level 61, right associativity).
End Notations.

End Exec.

(** The line terminator [print] appends, and the carriage return that moves
    the cursor back to the start of the line. *)
Definition nl : string := String (PyStr.byte 10) "".
Definition cr : string := String (PyStr.byte 13) "".

(* ===================================================================== *)
(** ** The operating system as the scripts see it *)
(* ===================================================================== *)

(** A spawned child: the lines of its standard output as the text-mode pipe
    delivers them, its standard error, and the status [wait()] returns. *)
Record process : Type := {
  stdout : list string;
  stderr : string;
  returncode : Z
}.

(** [popen argv] is what [subprocess.Popen(argv, ...)] does: a child, or a
    raised exception ([OSError] when the tool is missing or may not be
    run).  [clock i] is the reading of [time.time()] while the [i]-th line
    of output is handled. *)
Record world : Type := {
  popen : list string -> outcome process;
  clock : nat -> Float64.float
}.

(* ===================================================================== *)
(** ** examples/python_parser.py *)
(* ===================================================================== *)

Module AudibleUtilParser.

Import Float64 PyVal Exec Exec.Notations.

(** The attributes of an [AudibleUtilParser] object. *)
Record parser : Type := {
  current_chapter : pyval;
  total_chapters : pyval;
  start_time : pyval;
  conversion_success : pyval
}.

(** [__init__] *)
Definition init : parser := {|
  current_chapter := PInt 0;
  total_chapters := PInt 0;
  start_time := PNone;
  conversion_success := PBool false
|}.

(** The assignments [self.attribute = v]. *)
Definition set_current_chapter (v : pyval) : M (St := parser) unit :=
  s <- read ;;
  write {| current_chapter := v;
           total_chapters := total_chapters s;
           start_time := start_time s;
           conversion_success := conversion_success s |}.

Definition set_total_chapters (v : pyval) : M (St := parser) unit :=
  s <- read ;;
  write {| current_chapter := current_chapter s;
           total_chapters := v;
           start_time := start_time s;
           conversion_success := conversion_success s |}.

Definition set_start_time (v : pyval) : M (St := parser) unit :=
  s <- read ;;
  write {| current_chapter := current_chapter s;
           total_chapters := total_chapters s;
           start_time := v;
           conversion_success := conversion_success s |}.

Definition set_conversion_success (v : pyval) : M (St := parser) unit :=
  s <- read ;;
  write {| current_chapter := current_chapter s;
           total_chapters := total_chapters s;
           start_time := start_time s;
           conversion_success := v |}.

(** [parse_event]: the decoded value, or [None] on a [JSONDecodeError]. *)
Definition parse_event (line : string) : pyval :=
  match Json.loads (PyStr.strip line) with
  | Some v => v
  | None => PNone
  end.

(** [units] in [format_file_size]. *)
Definition units : list string := ["B"; "KB"; "MB"; "GB"].

(** A value together with the equation that names it, for the
    termination argument of the loop below. *)
Definition inspect {A} (a : A) : {b : A | a = b} := exist _ a eq_refl.

(** The loop of [format_file_size]:
    [while size >= 1024 and unit_index < len(units) - 1]. *)
Equations? scale (size : float) (unit_index : nat) : float * nat
  by wf (List.length units - 1 - unit_index)%nat lt :=
  scale size unit_index
    with inspect (geb size (of_Z 1024)
                  && (unit_index <? List.length units - 1)%nat) => {
    | exist _ true _ => scale (div size (of_Z 1024)) (S unit_index)
    | exist _ false _ => (size, unit_index)
    }.
Proof.
  apply andb_prop in e. destruct e as [_ H].
  apply Nat.ltb_lt in H.
  destruct unit_index as [|[|[|n]]]; simpl in *; lia.
Qed.

(** [format_file_size] *)
Definition format_file_size (size_bytes : pyval) : outcome string :=
  if eq_zero size_bytes then Ret "0 B"
  else
    match to_float size_bytes with
    | Raise e => Raise e
    | Ret size0 =>
        let '(size, unit_index) := scale size0 0 in
        Ret (format_f 1 size ++ " " ++ nth unit_index units "")
    end.

(** [print(...)] with the default line end. *)
Definition println (ps : list piece) : M (St := parser) unit :=
  print (ps ++ [Text nl])%list.

(** [event.get(key, default)] inside a method body. *)
Definition get_field (event : pyval) (key : string) (default : pyval)
  : M (St := parser) pyval :=
  lift (get event key default).

(** [bar_length] in [handle_event]. *)
Definition bar_length : Z := 40.

(** The branch of [handle_event] for [conversion_started]; [now] is the
    reading of [time.time()]. *)
Definition on_conversion_started (now : float) (event : pyval)
  : M (St := parser) unit :=
  tc <- get_field event "total_chapters" (PInt 0) ;;
  set_total_chapters tc ;;;
  output_format <- get_field event "output_format" (PStr "unknown") ;;
  output_path <- get_field event "output_path" (PStr "unknown") ;;
  self <- read ;;
  println [Text "🚀 Conversion started: "; StrOf (total_chapters self);
           Text " chapters to "; StrOf output_format; Text " format"] ;;;
  println [Text "📁 Output path: "; StrOf output_path] ;;;
  set_start_time (PFloat now).

(** The branch for [chapter_started]. *)
Definition on_chapter_started (event : pyval) : M (St := parser) unit :=
  chapter_num <- get_field event "chapter_number" (PInt 0) ;;
  chapter_title <- get_field event "chapter_title" (PStr "Unknown") ;;
  duration <- get_field event "duration_seconds" (PInt 0) ;;
  set_current_chapter chapter_num ;;;
  self <- read ;;
  println [Text nl; Text "📖 Chapter "; StrOf chapter_num; Text "/";
           StrOf (total_chapters self); Text ": "; StrOf chapter_title] ;;;
  d <- lift (format_fixed 1 duration) ;;
  println [Text "⏱️  Duration: "; Text d; Text " seconds"].

(** The branch for [chapter_progress]. *)
Definition on_chapter_progress (event : pyval) : M (St := parser) unit :=
  chapter_num <- get_field event "chapter_number" (PInt 0) ;;
  progress_pct <- get_field event "progress_percentage" (PInt 0) ;;
  current_time <- get_field event "current_time" (PInt 0) ;;
  total_duration <- get_field event "total_duration" (PInt 0) ;;
  speed <- get_field event "speed" (PInt 0) ;;
  bitrate <- get_field event "bitrate" (PInt 0) ;;
  file_size <- get_field event "file_size" (PInt 0) ;;
  eta <- get_field event "eta_seconds" PNone ;;
  (* progress bar *)
  scaled <- lift (mul_int bar_length progress_pct) ;;
  ratio <- lift (truediv_int scaled 100) ;;
  filled_length <- lift (int_of_float ratio) ;;
  let bar := PyStr.repeat "█" filled_length
             ++ PyStr.repeat "░" (bar_length - filled_length) in
  (* file size *)
  size_str <- lift (format_file_size file_size) ;;
  (* ETA *)
  eta_str <- (if truthy eta
              then e <- lift (format_fixed 0 eta) ;; ret (e ++ "s")
              else ret "Unknown") ;;
  pct <- lift (format_fixed 1 progress_pct) ;;
  spd <- lift (format_fixed 1 speed) ;;
  kbps <- lift (truediv_int bitrate 1000) ;;
  print [Text cr; Text "  "; Text bar; Text " ";
         Text (PyStr.pad_left 5 pct); Text "% | Speed: "; Text spd;
         Text "x | Bitrate: "; Text (format_f 0 kbps);
         Text "kbps | Size: "; Text size_str;
         Text " | ETA: "; Text eta_str].

(** The branch for [chapter_completed]. *)
Definition on_chapter_completed (event : pyval) : M (St := parser) unit :=
  chapter_num <- get_field event "chapter_number" (PInt 0) ;;
  chapter_title <- get_field event "chapter_title" (PStr "Unknown") ;;
  output_file <- get_field event "output_file" (PStr "Unknown") ;;
  duration <- get_field event "duration_seconds" (PInt 0) ;;
  println [Text nl; Text "✅ Chapter "; StrOf chapter_num;
           Text " completed: "; StrOf chapter_title] ;;;
  println [Text "📄 Output: "; StrOf output_file] ;;;
  d <- lift (format_fixed 1 duration) ;;
  println [Text "⏱️  Duration: "; Text d; Text " seconds"].

(** The branch for [conversion_completed]. *)
Definition on_conversion_completed (event : pyval)
  : M (St := parser) unit :=
  total_duration <- get_field event "total_duration_seconds" (PInt 0) ;;
  success <- get_field event "success" (PBool false) ;;
  set_conversion_success success ;;;
  if truthy success then
    println [Text nl; Text "🎉 Conversion completed successfully!"] ;;;
    d <- lift (format_fixed 1 total_duration) ;;
    println [Text "⏱️  Total time: "; Text d; Text " seconds"]
  else
    println [Text nl; Text "❌ Conversion failed!"].

(** The branch for [error]. *)
Definition on_error (event : pyval) : M (St := parser) unit :=
  message <- get_field event "message" (PStr "Unknown error") ;;
  chapter_num <- get_field event "chapter_number" PNone ;;
  if truthy chapter_num then
    println [Text nl; Text "❌ Error in chapter "; StrOf chapter_num;
             Text ": "; StrOf message]
  else
    println [Text nl; Text "❌ Error: "; StrOf message].

(** [handle_event] *)
Definition handle_event (now : float) (event : pyval)
  : M (St := parser) unit :=
  event_type <- get_field event "type" PNone ;;
  if eq_str event_type "conversion_started" then
    on_conversion_started now event
  else if eq_str event_type "chapter_started" then
    on_chapter_started event
  else if eq_str event_type "chapter_progress" then
    on_chapter_progress event
  else if eq_str event_type "chapter_completed" then
    on_chapter_completed event
  else if eq_str event_type "conversion_completed" then
    on_conversion_completed event
  else if eq_str event_type "error" then
    on_error event
  else ret tt.

(** The body of the loop over the child's output:
    [event = self.parse_event(line)], then [if event: self.handle_event(event)]. *)
Definition process_line (now : float) (line : string)
  : M (St := parser) unit :=
  let event := parse_event line in
  if truthy event then handle_event now event else ret tt.

(** [for line in process.stdout: ...], from the [i]-th line on. *)
Fixpoint read_lines (w : world) (i : nat) (lines : list string)
  : M (St := parser) unit :=
  match lines with
  | [] => ret tt
  | line :: rest =>
      process_line (clock w i) line ;;; read_lines w (S i) rest
  end.

(** The flag appended to the arguments. *)
Definition machine_readable : string := "--machine-readable".

(** [run_conversion] *)
Definition run_conversion (w : world) (args : list string)
  : M (St := parser) Z :=
  println [Text "🎵 Starting audible-util conversion with machine-readable output..."] ;;;
  println [Text (PyStr.repeat "=" 60)] ;;;
  try_except
    (proc <- lift (popen w (args ++ [machine_readable])%list) ;;
     read_lines w 0 (stdout proc) ;;;
     let return_code := returncode proc in
     if negb (return_code =? 0) then
       println [Text nl; Text "❌ Process failed with return code ";
                StrOf (PInt return_code)] ;;;
       println [Text "Error output: "; Text (stderr proc)] ;;;
       ret return_code
     else ret 0)
    (fun e =>
       println [Text nl; Text "❌ Error running audible-util: "; ExnOf e] ;;;
       ret 1).

(** [main]: [argv] is [sys.argv]; the result is the argument handed to
    [sys.exit] and everything printed. *)
Definition main (w : world) (argv : list string) : Z * list piece :=
  if (List.length argv <? 2)%nat then
    (1, [Text "Usage: python3 python_parser.py <audible-util-args>"; Text nl;
         Text "Example: python3 python_parser.py -a book.aaxc -v book.voucher -s";
         Text nl])
  else
    let audible_args := tl argv in
    match run_conversion w audible_args init with
    | (Ret return_code, _, out) => (return_code, out)
    | (Raise _, _, out) => (1, out)
    end.

End AudibleUtilParser.

(* ===================================================================== *)
(** ** examples/simple_json_parser.py *)
(* ===================================================================== *)

Module SimpleJsonParser.

Import PyVal Exec Exec.Notations.

(** The body of the loop over the child's output. *)
Definition show_line (line : string) : M (St := unit) unit :=
  let line := PyStr.strip line in
  if negb (String.eqb line "") then
    match Json.loads line with
    | Some event => print [Text "Event: "; JsonOf event; Text nl]
    | None =>
        print [Text "Failed to parse JSON: "; Text line;
               Text " - Error: "; DecodeErrorOf line; Text nl]
    end
  else ret tt.

Fixpoint show_lines (lines : list string) : M (St := unit) unit :=
  match lines with
  | [] => ret tt
  | line :: rest => show_line line ;;; show_lines rest
  end.

(** The [try] block of [main]; the result is the argument of [sys.exit]. *)
Definition supervise (w : world) (audible_args : list string)
  : M (St := unit) Z :=
  try_except
    (proc <- lift (popen w (audible_args
                            ++ [AudibleUtilParser.machine_readable])%list) ;;
     show_lines (stdout proc) ;;;
     let return_code := returncode proc in
     (if negb (return_code =? 0) then
        print [Text "Process failed with return code ";
               StrOf (PInt return_code); Text nl] ;;;
        print [Text "Error output: "; Text (stderr proc); Text nl]
      else ret tt) ;;;
     ret return_code)
    (fun e =>
       print [Text "Error running audible-util: "; ExnOf e; Text nl] ;;;
       ret 1).

(** [main] *)
Definition main (w : world) (argv : list string) : Z * list piece :=
  if (List.length argv <? 2)%nat then
    (1, [Text "Usage: python3 simple_json_parser.py <audible-util-args>";
         Text nl;
         Text "Example: python3 simple_json_parser.py -a book.aaxc -v book.voucher";
         Text nl])
  else
    match supervise w (tl argv) tt with
    | (Ret return_code, _, out) => (return_code, out)
    | (Raise _, _, out) => (1, out)
    end.

End SimpleJsonParser.

(* ===================================================================== *)
(** ** Scenarios used in the statements *)
(* ===================================================================== *)

Module Scenario.

Import Float64 PyVal.

(** A child that starts, prints [lines] and exits with status [rc]. *)
Definition child (lines : list string) (rc : Z) : process :=
  {| stdout := lines; stderr := ""; returncode := rc |}.

(** A system on which every spawn yields the child [p]; the clock reads
    [1000 + i] seconds at the [i]-th line. *)
Definition spawning (p : process) : world :=
  {| popen := fun _ => Ret p;
     clock := fun i => of_Z (1000 + Z.of_nat i) |}.


(** One line of protocol output, written with ['] for the double quote and
    terminated as the pipe delivers it. *)
Definition line (s : string) : string := Json.wire s ++ nl.

End Scenario.

(* ===================================================================== *)
(** ** What the statements observe *)
(* ===================================================================== *)

(** Projections of a finished computation, the fixed texts of
    [run_conversion], the parts of a rendered progress line, and the
    reference definitions the properties compare the scripts with. *)

Module Observe.

Import Float64 PyVal Exec AudibleUtilParser.

(** The three components of a finished computation. *)
Definition result {St A} (r : outcome A * St * list piece) : outcome A :=
  fst (fst r).
Definition final {St A} (r : outcome A * St * list piece) : St :=
  snd (fst r).
Definition printed {St A} (r : outcome A * St * list piece) : list piece :=
  snd r.

(** What [run_conversion] prints before it spawns the child. *)
Definition banner : list piece :=
  [Text "🎵 Starting audible-util conversion with machine-readable output...";
   Text nl; Text (PyStr.repeat "=" 60); Text nl].

(** What the [except Exception] clause of [run_conversion] prints. *)
Definition abort_message (e : exn) : list piece :=
  [Text nl; Text "❌ Error running audible-util: "; ExnOf e; Text nl].

(** What [run_conversion] prints after a child that exited with [rc]. *)
Definition exit_report (proc : process) : list piece :=
  if returncode proc =? 0 then []
  else [Text nl; Text "❌ Process failed with return code ";
        StrOf (PInt (returncode proc)); Text nl;
        Text "Error output: "; Text (stderr proc); Text nl].

Definition is_dict (v : pyval) : bool :=
  match v with PDict _ => true | _ => false end.

(** The event carries the type tag [tag]. *)
Definition has_type (event : pyval) (tag : string) : bool :=
  match get event "type" PNone with
  | Ret t => eq_str t tag
  | Raise _ => false
  end.

(** [bar_length * progress_pct / 100], the number [int(...)] is applied
    to. *)
Definition bar_ratio (progress_pct : pyval) : outcome float :=
  match mul_int bar_length progress_pct with
  | Ret scaled => truediv_int scaled 100
  | Raise e => Raise e
  end.

(** The number of copies of the three-byte character [a b c] that [s]
    starts with. *)
Fixpoint count_leading (a b c : ascii) (s : string) : nat :=
  match s with
  | String x (String y (String z r)) =>
      if Ascii.eqb x a && Ascii.eqb y b && Ascii.eqb z c
      then S (count_leading a b c r)
      else O
  | _ => O
  end.

(** The filled cells at the start of a rendered bar. *)
Definition filled_cells (bar : string) : nat :=
  match "█" with
  | String a (String b (String c _)) => count_leading a b c bar
  | _ => O
  end.

(** The bar in a rendered progress line: its third piece. *)
Definition bar_of (out : list piece) : string :=
  match nth 2 out (Text "") with
  | Text b => b
  | _ => ""
  end.

(** The filled cells the specification asks for: [round(w * p / 100)]
    clamped to [[0, w]], for an integer percentage [p]. *)
Definition spec_filled (w p : Z) : Z :=
  Z.max 0 (Z.min w (round_half_even (w * p) 100)).

(** The integer percentages of the schema. *)
Definition bar_ratio_floor (n : Z) : bool :=
  match bar_ratio (PInt n) with
  | Ret x =>
      match trunc x with
      | Some k => (k =? bar_length * n / 100) && (0 <=? k) && (k <=? bar_length)
      | None => false
      end
  | Raise _ => false
  end.

(** The text of the ETA field:
    [f"{eta:.0f}s" if eta else "Unknown"]. *)
Definition eta_text (eta : pyval) : outcome string :=
  if truthy eta then
    match format_fixed 0 eta with
    | Ret e => Ret (e ++ "s")
    | Raise x => Raise x
    end
  else Ret "Unknown".

(** The ETA in a rendered progress line: its last piece. *)
Definition eta_of (out : list piece) : string :=
  match last out (Text "") with
  | Text e => e
  | _ => ""
  end.

(** [x] divided by 1024, [k] times. *)
Fixpoint divs (k : nat) (x : float) : float :=
  match k with
  | O => x
  | S j => divs j (div x (of_Z 1024))
  end.



(** The unit the specification picks: divide by 1024 until the value is
    below 1024 or the units are exhausted. *)
Definition spec_unit (n : Z) : nat :=
  if n <? 1024 then 0
  else if n <? 1024 ^ 2 then 1
  else if n <? 1024 ^ 3 then 2
  else 3.

(** The text the specification asks for: the byte count over [1024^k]
    with one decimal, and the unit. *)
Definition spec_file_size (n : Z) : string :=
  if n =? 0 then "0 B"
  else
    let k := spec_unit n in
    fixed_digits 1 (round_half_even (10 * n) (1024 ^ Z.of_nat k))
    ++ " " ++ nth k units "".

End Observe.

(* ===================================================================== *)
(** ** Closed forms of what the scripts do *)
(* ===================================================================== *)

(** The event types [handle_event] knows, the state an event leaves, the
    reports of [simple_json_parser.py] and the other reference definitions
    the further properties compare the scripts with. *)

Module Behaviour.

Import Float64 PyVal Exec AudibleUtilParser Observe.

(** The type tags [handle_event] compares with. *)
Definition event_tags : list string :=
  ["conversion_started"; "chapter_started"; "chapter_progress";
   "chapter_completed"; "conversion_completed"; "error"].

(** No branch of [handle_event] is taken for the event. *)
Definition unknown_type (event : pyval) : bool :=
  forallb (fun tag => negb (has_type event tag)) event_tags.

(** The attributes after an event was handled: each of the three event
    types that assign overwrites its own attributes, the others keep the
    object as it is. *)
Definition next_state (now : float) (event : pyval) (s : parser) : parser :=
  if has_type event "conversion_started" then
    match get event "total_chapters" (PInt 0) with
    | Ret tc =>
        {| current_chapter := current_chapter s;
           total_chapters := tc;
           start_time := PFloat now;
           conversion_success := conversion_success s |}
    | Raise _ => s
    end
  else if has_type event "chapter_started" then
    match get event "chapter_number" (PInt 0) with
    | Ret n =>
        {| current_chapter := n;
           total_chapters := total_chapters s;
           start_time := start_time s;
           conversion_success := conversion_success s |}
    | Raise _ => s
    end
  else if has_type event "conversion_completed" then
    match get event "success" (PBool false) with
    | Ret b =>
        {| current_chapter := current_chapter s;
           total_chapters := total_chapters s;
           start_time := start_time s;
           conversion_success := b |}
    | Raise _ => s
    end
  else s.


(** The values [format(v, ".1f")] accepts: a [bool], a [float], and an
    [int] that converts to a finite [float]. *)
Definition numeric (v : pyval) : bool :=
  match v with
  | PBool _ | PFloat _ => true
  | PInt n => is_finite (of_Z n)
  | _ => false
  end.

(** The exception [format(v, ".1f")] raises on the other values. *)
Definition format_error (v : pyval) : exn :=
  match v with
  | PStr _ => ValueError
  | PInt _ => OverflowError
  | _ => TypeError
  end.

(** The one value that the handler of an event other than chapter_progress
    prints with a format specification, if there is one. *)
Definition formatted_field (event : pyval) : option pyval :=
  match event with
  | PDict d =>
      if has_type event "chapter_started"
         || has_type event "chapter_completed"
      then Some (dict_get d "duration_seconds" (PInt 0))
      else if has_type event "conversion_completed"
              && truthy (dict_get d "success" (PBool false))
      then Some (dict_get d "total_duration_seconds" (PInt 0))
      else None
  | _ => None
  end.

(** The cells of a bar: each cell is a character of three bytes. *)
Definition cells (bar : string) : Z := Z.of_nat (String.length bar) / 3.

(** A number below zero. *)
Definition negative (x : float) : bool :=
  match x with
  | S754_finite true _ _ | S754_infinity true => true
  | _ => false
  end.





(** A one-byte whitespace character is part of no other one. *)
Definition lone_space (c : ascii) : bool :=
  existsb (fun w => if list_eq_dec ascii_dec w [c] then true else false)
    PyStr.whitespace
  && forallb (fun w =>
                if in_dec ascii_dec c w
                then if list_eq_dec ascii_dec w [c] then true else false
                else true)
       PyStr.whitespace.

(** The keys [handle_event] reads from an event. *)
Definition known_fields : list string :=
  ["type"; "total_chapters"; "output_format"; "output_path";
   "chapter_number"; "chapter_title"; "duration_seconds";
   "progress_percentage"; "current_time"; "total_duration"; "speed";
   "bitrate"; "file_size"; "eta_seconds"; "output_file";
   "total_duration_seconds"; "success"; "message"].

(** [key] is none of the keys [keys]. *)
Definition not_among (key : string) (keys : list string) : bool :=
  forallb (fun k => negb (String.eqb key k)) keys.

(** The fields of a chapter_progress event that its handler reads and
    does not show. *)
Definition unshown_progress_fields : list string :=
  ["chapter_number"; "current_time"; "total_duration"].

(** The float that [binary_round_aux] builds from a mantissa and an
    exponent that fit the format. *)
Definition rounded (s : bool) (m e : Z) : float :=
  match m with
  | Z0 => S754_zero s
  | Zpos p => if e <=? emax - prec then S754_finite s p e else S754_infinity s
  | Zneg _ => S754_nan
  end.

(** A float between 0 and 100. *)
Definition in_percent_range (x : float) : bool :=
  valid_binary prec emax x
  && SFleb (S754_zero false) x && SFleb x (of_Z 100).

(** A percentage as the protocol sends it: a number between 0 and 100. *)
Definition percentage_ok (v : pyval) : bool :=
  match v with
  | PInt n => (0 <=? n) && (n <=? 100)
  | PFloat x => in_percent_range x
  | _ => false
  end.

(** A number: a float, or an integer of less than a thousand bits. *)
Definition number_ok (v : pyval) : bool :=
  match v with
  | PInt n => Z.abs n <? 2 ^ 1000
  | PFloat _ => true
  | _ => false
  end.

(** A number that is not negative when it is an integer. *)
Definition size_ok (v : pyval) : bool :=
  match v with
  | PInt n => (0 <=? n) && (n <? 2 ^ 1000)
  | PFloat _ => true
  | _ => false
  end.

(** An estimate that is absent, [null] or a number. *)
Definition eta_ok (v : pyval) : bool :=
  match v with
  | PNone => true
  | _ => number_ok v
  end.

(** The fields of a chapter_progress event are typed as the protocol
    types them (an absent field stands for its default). *)
Definition progress_conforms (d : list (string * pyval)) : bool :=
  percentage_ok (dict_get d "progress_percentage" (PInt 0))
  && number_ok (dict_get d "speed" (PInt 0))
  && number_ok (dict_get d "bitrate" (PInt 0))
  && size_ok (dict_get d "file_size" (PInt 0))
  && eta_ok (dict_get d "eta_seconds" PNone).


End Behaviour.

(* ===================================================================== *)
(** ** The model at work *)
(* ===================================================================== *)

Section Runs.

Import Float64 PyVal AudibleUtilParser Observe.

(** Decimal text to binary64 and back to text with a fixed number of
    decimals, ties to even on the exact binary value. *)
Example format_f_samples :
  format_f 0 (of_decimal false 427 (-1)) = "43" /\
  format_f 0 (of_decimal false 5 (-1)) = "0" /\
  format_f 0 (of_decimal false 15 (-1)) = "2" /\
  format_f 0 (of_decimal false 25 (-1)) = "2" /\
  format_f 1 (of_decimal false 35 (-2)) = "0.3" /\
  format_f 1 (of_decimal true 4 (-2)) = "-0.0" /\
  format_f 1 (of_Z 3) = "3.0".
Proof. vm_compute. repeat split; reflexivity. Qed.

(** Floating-point values are not decimal fractions: the literal
    2.4999999999999999 denotes the float 2.5, for which [40 * p / 100] is
    1.0; the next float below 2.5 gives a ratio below 1. *)
Example bar_ratio_rounds :
  bar_ratio (PFloat (of_decimal false 24999999999999999 (-16)))
  = Ret (of_Z 1) /\
  match bar_ratio (PFloat (of_decimal false 24999999999999996 (-16))) with
  | Ret x => trunc x
  | Raise _ => None
  end = Some 0.
Proof. vm_compute. split; reflexivity. Qed.

(** What the decoder accepts. *)
Example loads_accepts :
  Json.loads (Json.wire "{'type': 'error', 'n': [1, -2.5, true, null], 'type': 'x'}")
  = Some (PDict [("type", PStr "x");
                 ("n", PList [PInt 1; PFloat (of_decimal true 25 (-1));
                              PBool true; PNone])]) /\
  Json.loads " [ ] " = Some (PList []) /\
  Json.loads "-0" = Some (PInt 0) /\
  Json.loads "1e2" = Some (PFloat (of_Z 100)) /\
  Json.loads "NaN" = Some (PFloat nan) /\
  Json.loads (Json.wire "'a\u00e9\n'")
  = Some (PStr (String "a" (String (PyStr.byte 195)
                 (String (PyStr.byte 169) (String (PyStr.byte 10) ""))))).
Proof. vm_compute. repeat split; reflexivity. Qed.

(** What it rejects. *)
Example loads_rejects :
  map Json.loads
      [""; "not json"; "[1,]"; "[1 2]"; "01"; "1."; "+1"; "nul";
       Json.wire "{'a' 1}"; Json.wire "{'a': 1,}"; Json.wire "{a: 1}";
       Json.wire "'abc"; "[1] 2"; "{}{}"]
  = repeat None 14.
Proof. vm_compute. reflexivity. Qed.

(** [str.strip] removes the line end and any other surrounding space. *)
Example strip_sample :
  PyStr.strip (String (PyStr.byte 9) " x y  " ++ nl) = "x y".
Proof. vm_compute. reflexivity. Qed.

(** A complete conversion of two chapters: the run returns 0, the success
    flag is set and current_chapter ends at 2. *)
Example run_two_chapters :
  let lines :=
    map Scenario.line
      ["{'type': 'conversion_started', 'total_chapters': 2, 'output_format': 'mp3', 'output_path': 'out'}";
       "{'type': 'chapter_started', 'chapter_number': 1, 'chapter_title': 'One', 'duration_seconds': 12.5}";
       "{'type': 'chapter_progress', 'chapter_number': 1, 'progress_percentage': 50.0, 'speed': 1.5, 'bitrate': 128000, 'file_size': 1536, 'eta_seconds': 42.7}";
       "{'type': 'chapter_completed', 'chapter_number': 1, 'chapter_title': 'One', 'output_file': 'out/1.mp3', 'duration_seconds': 12.5}";
       "{'type': 'chapter_started', 'chapter_number': 2, 'chapter_title': 'Two', 'duration_seconds': 7}";
       "not json";
       "{'type': 'chapter_progress', 'chapter_number': 2, 'progress_percentage': 100}";
       "{'type': 'chapter_completed', 'chapter_number': 2}";
       "{'type': 'conversion_completed', 'success': true, 'total_duration_seconds': 19.5}"] in
  let r := run_conversion (Scenario.spawning (Scenario.child lines 0))
             ["-a"; "book.aaxc"] init in
  result r = Ret 0 /\
  current_chapter (final r) = PInt 2 /\
  total_chapters (final r) = PInt 2 /\
  conversion_success (final r) = PBool true /\
  start_time (final r) = PFloat (of_Z 1000) /\
  In (Text "🎉 Conversion completed successfully!") (printed r) /\
  In (Text "████████████████████░░░░░░░░░░░░░░░░░░░░") (printed r) /\
  In (Text "1.5 KB") (printed r) /\
  In (Text "43s") (printed r).
Proof.
  vm_compute. repeat split; try reflexivity;
    repeat (first [left; reflexivity | right]).
Qed.

(** A child that fails with status 3 and reports nothing: the run returns
    3, shows the captured standard error, and no success banner. *)
Example run_failing_child :
  let proc := {| stdout := []; stderr := "disk full"; returncode := 3 |} in
  let r := run_conversion (Scenario.spawning proc) ["-a"; "book.aaxc"] init in
  result r = Ret 3 /\
  conversion_success (final r) = PBool false /\
  printed r = (banner ++ exit_report proc)%list /\
  In (Text "disk full") (printed r).
Proof.
  vm_compute. repeat split; try reflexivity.
  repeat (first [left; reflexivity | right]).
Qed.

End Runs.

(* ===================================================================== *)
(** ** Integers that fit a float *)
(* ===================================================================== *)

(** The conversion [float(n)] follows [SpecFloat]'s rounding: the mantissa
    is shifted right to 53 bits, rounded to nearest even, and shifted once
    more when the rounding carries.  The facts below track the mantissa and
    the round bit through the shifts, and bound the resulting exponent. *)

Section Float64Facts.

Import Float64 Observe.

Lemma digits2_size m : digits2_pos m = Pos.size m.
Proof. induction m; simpl; congruence. Qed.

Lemma digits_bounds m :
  2 ^ (Z.pos (digits2_pos m) - 1) <= Z.pos m < 2 ^ Z.pos (digits2_pos m).
Proof.
  rewrite digits2_size. split.
  - pose proof (Pos.size_le m) as H.
    assert (H' : 2 ^ Z.pos (Pos.size m) <= 2 * Z.pos m).
    { change (2 * Z.pos m) with (Z.pos m~0). rewrite <- Pos2Z.inj_pow.
      apply Pos2Z.pos_le_pos. exact H. }
    replace (Z.pos (Pos.size m)) with (Z.pos (Pos.size m) - 1 + 1) in H' by lia.
    rewrite Z.pow_add_r in H' by lia. change (2 ^ 1) with 2 in H'. lia.
  - pose proof (Pos.size_gt m) as H. rewrite <- Pos2Z.inj_pow.
    apply Pos2Z.pos_lt_pos. exact H.
Qed.

Lemma digits_unique m d :
  2 ^ (d - 1) <= Z.pos m < 2 ^ d -> Z.pos (digits2_pos m) = d.
Proof.
  intros [Hl Hu]. pose proof (digits_bounds m) as [Hl' Hu'].
  set (d' := Z.pos (digits2_pos m)) in *.
  assert (0 < d').  { subst d'. lia. }
  assert (0 < d).
  { destruct d as [|q|q]; [simpl in Hu; lia|lia|].
    rewrite Z.pow_neg_r in Hu by lia. lia. }
  destruct (Z.lt_trichotomy d d') as [Hlt|[Heq|Hgt]]; [|lia|].
  - assert (2 ^ d <= 2 ^ (d' - 1)) by (apply Z.pow_le_mono_r; lia). lia.
  - assert (2 ^ d' <= 2 ^ (d - 1)) by (apply Z.pow_le_mono_r; lia). lia.
Qed.

Lemma shr_1_spec mrs :
  0 <= shr_m mrs ->
  shr_m (shr_1 mrs) = shr_m mrs / 2 /\ shr_r (shr_1 mrs) = Z.odd (shr_m mrs).
Proof.
  destruct mrs as [m r s]. simpl. intros Hm.
  destruct m as [|[p|p|]|p]; simpl; try lia; split; try reflexivity.
  - rewrite Pos2Z.inj_xI. apply Z.div_unique with 1; lia.
  - rewrite Pos2Z.inj_xO. apply Z.div_unique with 0; lia.
Qed.

Lemma shifted_step M k mrs :
  0 <= M -> 0 <= k -> shifted M k mrs -> shifted M (k + 1) (shr_1 mrs).
Proof.
  intros HM Hk [Hm Hr].
  assert (H0 : 0 <= shr_m mrs) by (rewrite Hm; apply Z.div_pos; lia).
  destruct (shr_1_spec mrs H0) as [Hm' Hr'].
  assert (Hp : 0 < 2 ^ k) by (apply Z.pow_pos_nonneg; lia).
  split.
  - rewrite Hm', Hm, Z.pow_add_r, Z.div_div by lia. reflexivity.
  - rewrite Hr', Hm. intros Hodd. split; [lia|].
    replace (k + 1 - 1) with k by lia.
    rewrite Z.pow_add_r by lia. rewrite Z.rem_mul_r by lia.
    rewrite Zodd_mod in Hodd. apply Z.eqb_eq in Hodd. change (2 ^ 1) with 2.
    rewrite Hodd. pose proof (Z.mod_pos_bound M (2 ^ k) Hp). lia.
Qed.

Lemma shifted_iter p : forall M k mrs,
  0 <= M -> 0 <= k -> shifted M k mrs ->
  shifted M (k + Z.pos p) (iter_pos shr_1 p mrs).
Proof.
  induction p as [p IH|p IH|]; intros M k mrs HM Hk H; simpl.
  - rewrite Pos2Z.inj_xI.
    replace (k + (2 * Z.pos p + 1)) with (k + 1 + Z.pos p + Z.pos p) by lia.
    apply IH; try lia. apply IH; try lia. now apply shifted_step.
  - rewrite Pos2Z.inj_xO.
    replace (k + 2 * Z.pos p) with (k + Z.pos p + Z.pos p) by lia.
    apply IH; try lia. now apply IH.
  - now apply shifted_step.
Qed.

Lemma shifted_start M : 0 <= M -> shifted M 0 (shr_record_of_loc M loc_Exact).
Proof.
  intros HM. split; simpl; [now rewrite Z.div_1_r|discriminate].
Qed.

Lemma rne_bounds m mrs :
  let m2 := round_nearest_even m (loc_of_shr_record mrs) in
  m <= m2 <= m + 1 /\ (shr_r mrs = false -> m2 = m).
Proof.
  destruct mrs as [m0 [|] [|]]; cbn -[Z.add]; intros;
    try destruct (Z.even m); split; try lia; congruence.
Qed.

Lemma fexp_normal e : -1074 <= e - 53 -> fexp prec emax e = e - 53.
Proof. unfold fexp, emin, prec, emax. lia. Qed.

Lemma round_aux_finite (M : positive) (e : Z) :
  let d := Z.pos (digits2_pos M) in
  53 <= d ->
  -1074 <= d + e - 53 ->
  d + e <= 1023 \/ (d + e = 1024 /\ Z.pos M < 2 ^ d - 2 ^ (d - 54)) ->
  is_finite (binary_round_aux prec emax false (Z.pos M) e loc_Exact) = true.
Proof.
  intros d Hd Hn Hb. pose proof (digits_bounds M) as HM. fold d in HM.
  unfold binary_round_aux, shr_fexp.
  change (Zdigits2 (Z.pos M)) with d.
  rewrite fexp_normal by lia.
  replace (d + e - 53 - e) with (d - 53) by lia.
  destruct (d - 53) as [|p|p] eqn:Hp; try lia.
  - (* no shift *)
    cbn -[Z.add Z.sub Z.leb Z.pow fexp]. fold d.
    rewrite fexp_normal by lia.
    replace (d + e - 53 - e) with 0 by lia.
    cbn -[Z.add Z.sub Z.leb Z.pow fexp].
    replace (e <=? emax - prec) with true; [reflexivity|].
    symmetry. apply Z.leb_le. unfold emax, prec. lia.
  - (* a shift by [p] bits *)
    unfold shr at 1.
    pose proof (shifted_iter p (Z.pos M) 0 _ ltac:(lia) ltac:(lia)
                  (shifted_start (Z.pos M) ltac:(lia))) as [Hm Hr].
    rewrite Z.add_0_l in Hm, Hr.
    set (mrs := iter_pos shr_1 p (shr_record_of_loc (Z.pos M) loc_Exact)) in *.
    pose proof (rne_bounds (shr_m mrs) mrs) as [Hb2 Hdown]. cbv zeta in Hb2, Hdown.
    set (m2 := round_nearest_even (shr_m mrs) (loc_of_shr_record mrs)) in *.
    assert (Hpow : 2 ^ d = 2 ^ 53 * 2 ^ Z.pos p).
    { rewrite <- Z.pow_add_r by lia. f_equal. lia. }
    assert (Hpow' : 2 ^ (d - 1) = 2 ^ 52 * 2 ^ Z.pos p).
    { rewrite <- Z.pow_add_r by lia. f_equal. lia. }
    assert (Hpp : 0 < 2 ^ Z.pos p) by (apply Z.pow_pos_nonneg; lia).
    assert (Hm1 : 2 ^ 52 <= shr_m mrs < 2 ^ 53).
    { rewrite Hm. split.
      - apply Z.div_le_lower_bound; lia.
      - apply Z.div_lt_upper_bound; lia. }
    clearbody m2. destruct m2 as [|q|q]; try lia.
    change (Zdigits2 (Z.pos q)) with (Z.pos (digits2_pos q)).
    destruct (Z.ltb_spec (Z.pos q) (2 ^ 53)) as [Hlt|Hge].
    + (* no carry *)
      rewrite (digits_unique q 53) by (change (53 - 1) with 52; lia).
      rewrite fexp_normal by lia.
      replace (53 + (e + Z.pos p) - 53 - (e + Z.pos p)) with 0 by lia.
      cbn -[Z.add Z.sub Z.leb Z.pow].
      replace (e + Z.pos p <=? emax - prec) with true; [reflexivity|].
      symmetry. apply Z.leb_le. unfold emax, prec. lia.
    + (* the rounding carried into a 54th bit *)
      assert (Hq : Z.pos q = 2 ^ 53) by lia.
      rewrite (digits_unique q 54) by (change (54 - 1) with 53; rewrite Hq; lia).
      rewrite fexp_normal by lia.
      replace (54 + (e + Z.pos p) - 53 - (e + Z.pos p)) with 1 by lia.
      assert (Hq' : q = (2 ^ 53)%positive) by (apply Pos2Z.inj; exact Hq).
      rewrite Hq'. cbn -[Z.add Z.sub Z.leb].
      replace (e + Z.pos p + 1 <=? emax - prec) with true; [reflexivity|].
      symmetry. apply Z.leb_le. unfold emax, prec.
      destruct Hb as [Hb|[Hb HMb]]; [lia|]. exfalso.
      destruct (shr_r mrs) eqn:Hrb.
      * destruct (Hr eq_refl) as [_ Hrem].
        pose proof (Z.div_mod (Z.pos M) (2 ^ Z.pos p) ltac:(lia)) as Hdm.
        rewrite <- Hm in Hdm.
        assert (Hs : shr_m mrs = 2 ^ 53 - 1) by lia.
        assert (Hh : 2 ^ (d - 54) = 2 ^ (Z.pos p - 1)) by (f_equal; lia).
        assert (Ht : 2 ^ Z.pos p = 2 * 2 ^ (Z.pos p - 1)).
        { rewrite <- (Z.pow_succ_r 2 (Z.pos p - 1)) by lia. f_equal. lia. }
        rewrite Hs in Hdm. nia.
      * rewrite (Hdown eq_refl) in Hq. lia.
Qed.

Lemma iter_xO_pos (k : positive) (m : positive) :
  Z.pos (Pos.iter xO m k) = Z.pos m * 2 ^ Z.pos k.
Proof.
  induction k as [|k IH] using Pos.peano_ind.
  - simpl. lia.
  - rewrite Pos.iter_succ, Pos2Z.inj_xO, IH, Pos2Z.inj_succ, Z.pow_succ_r by lia.
    lia.
Qed.

(** Every integer below [2^1024 - 2^970] converts to a finite float. *)
Lemma of_Z_finite n :
  0 <= n < 2 ^ 1024 - 2 ^ 970 -> is_finite (of_Z n) = true.
Proof.
  intros [Hn0 Hn]. destruct n as [|m|m]; [reflexivity| |lia].
  unfold of_Z, binary_normalize, binary_round.
  pose proof (digits_bounds m) as Hm.
  set (d := Z.pos (digits2_pos m)) in *.
  assert (Hd0 : 0 < d) by (subst d; lia).
  assert (Hd : d <= 1024).
  { destruct (Z.leb_spec d 1024); [assumption|].
    assert (2 ^ 1024 <= 2 ^ (d - 1)) by (apply Z.pow_le_mono_r; lia). lia. }
  rewrite Z.add_0_r, fexp_normal by lia.
  unfold shl_align. replace (d - 53 - 0) with (d - 53) by lia.
  destruct (d - 53) as [|k|k] eqn:Hk.
  - apply round_aux_finite; fold d; lia.
  - apply round_aux_finite; fold d; try lia.
    destruct (Z.eq_dec d 1024) as [->|]; [right|left; lia].
    split; [reflexivity|]. change (1024 - 54) with 970. lia.
  - pose proof (iter_xO_pos k m) as Hs.
    assert (Hpk : 2 ^ d * 2 ^ Z.pos k = 2 ^ 53).
    { rewrite <- Z.pow_add_r by lia. f_equal. lia. }
    assert (Hpk' : 2 ^ (d - 1) * 2 ^ Z.pos k = 2 ^ 52).
    { rewrite <- Z.pow_add_r by lia. f_equal. lia. }
    assert (Hpp : 0 < 2 ^ Z.pos k) by (apply Z.pow_pos_nonneg; lia).
    assert (Hdig : Z.pos (digits2_pos (Pos.iter xO m k)) = 53).
    { apply digits_unique. change (53 - 1) with 52. rewrite Hs. nia. }
    apply round_aux_finite; rewrite Hdig; lia.
Qed.

Lemma round_aux_exact (M : positive) (e : Z) :
  Z.pos (digits2_pos M) = 53 ->
  -1074 <= e <= 971 ->
  binary_round_aux prec emax false (Z.pos M) e loc_Exact
  = S754_finite false M e.
Proof.
  intros Hd He. unfold binary_round_aux, shr_fexp.
  change (Zdigits2 (Z.pos M)) with (Z.pos (digits2_pos M)). rewrite Hd.
  rewrite fexp_normal by lia.
  replace (53 + e - 53 - e) with 0 by lia.
  cbn -[Z.add Z.sub Z.leb Z.pow fexp]. rewrite Hd.
  rewrite fexp_normal by lia.
  replace (53 + e - 53 - e) with 0 by lia.
  cbn -[Z.add Z.sub Z.leb Z.pow fexp].
  replace (e <=? emax - prec) with true; [reflexivity|].
  symmetry. apply Z.leb_le. unfold emax, prec. lia.
Qed.

(** An integer below [2^53] converts without rounding. *)
Lemma of_Z_exact n :
  0 < n < 2 ^ 53 ->
  exists M e,
    of_Z n = S754_finite false M e /\
    Z.pos (digits2_pos M) = 53 /\
    -52 <= e <= 0 /\
    Z.pos M = n * 2 ^ (- e).
Proof.
  intros [Hn0 Hn]. destruct n as [|m|m]; try lia.
  unfold of_Z, binary_normalize, binary_round.
  pose proof (digits_bounds m) as Hm.
  set (d := Z.pos (digits2_pos m)) in *.
  assert (Hd0 : 0 < d) by (subst d; lia).
  assert (Hd : d <= 53).
  { destruct (Z.leb_spec d 53); [assumption|].
    assert (2 ^ 53 <= 2 ^ (d - 1)) by (apply Z.pow_le_mono_r; lia). lia. }
  rewrite Z.add_0_r, fexp_normal by lia.
  unfold shl_align. replace (d - 53 - 0) with (d - 53) by lia.
  destruct (d - 53) as [|k|k] eqn:Hk; try lia.
  - exists m, 0. rewrite round_aux_exact by (fold d; lia).
    repeat split; first [reflexivity | fold d; lia | simpl; lia].
  - pose proof (iter_xO_pos k m) as Hs.
    assert (Hpk : 2 ^ d * 2 ^ Z.pos k = 2 ^ 53).
    { rewrite <- Z.pow_add_r by lia. f_equal. lia. }
    assert (Hpk' : 2 ^ (d - 1) * 2 ^ Z.pos k = 2 ^ 52).
    { rewrite <- Z.pow_add_r by lia. f_equal. lia. }
    assert (Hpp : 0 < 2 ^ Z.pos k) by (apply Z.pow_pos_nonneg; lia).
    assert (Hdig : Z.pos (digits2_pos (Pos.iter xO m k)) = 53).
    { apply digits_unique. change (53 - 1) with 52. rewrite Hs. nia. }
    exists (Pos.iter xO m k), (Z.neg k).
    rewrite round_aux_exact by (rewrite ?Hdig; lia).
    repeat split; try lia. rewrite Hs. reflexivity.
Qed.

(** Dividing a normal float by 1024 lowers its exponent by 10. *)
Lemma div_1024_exact (M : positive) (e : Z) :
  Z.pos (digits2_pos M) = 53 ->
  -1063 <= e <= 981 ->
  div (S754_finite false M e) (of_Z 1024) = S754_finite false M (e - 10).
Proof.
  intros Hd He.
  change (of_Z 1024) with (S754_finite false (2 ^ 52)%positive (-42)).
  unfold div, SFdiv, SFdiv_core_binary.
  change (Zdigits2 (Z.pos M)) with (Z.pos (digits2_pos M)). rewrite Hd.
  change (Zdigits2 (Z.pos (2 ^ 52))) with 53.
  replace (53 + e - (53 + -42)) with (e + 42) by lia.
  rewrite fexp_normal by lia.
  replace (Z.min (e + 42 - 53) (e - -42)) with (e - 11) by lia.
  replace (e - -42 - (e - 11)) with 53 by lia.
  rewrite Z.shiftl_mul_pow2 by lia.
  assert (Hq : Z.div_eucl (Z.pos M * 2 ^ 53) (Z.pos (2 ^ 52)) = (2 * Z.pos M, 0)).
  { pose proof (Z.div_eucl_eq (Z.pos M * 2 ^ 53) (Z.pos (2 ^ 52)) ltac:(lia)) as H.
    pose proof (Z.mod_pos_bound (Z.pos M * 2 ^ 53) (Z.pos (2 ^ 52)) ltac:(lia)) as Hb.
    unfold Z.modulo in Hb.
    destruct (Z.div_eucl (Z.pos M * 2 ^ 53) (Z.pos (2 ^ 52))) as [q r].
    assert (Hp : Z.pos (2 ^ 52) = 2 ^ 52) by reflexivity.
    assert (H53 : 2 ^ 53 = 2 * 2 ^ 52) by reflexivity.
    rewrite Hp, H53 in *.
    assert (q = 2 * Z.pos M) by nia. subst q. f_equal. lia. }
  rewrite Hq.
  change (new_location (Z.pos (2 ^ 52)) 0) with loc_Exact.
  change (xorb false false) with false.
  change (2 * Z.pos M) with (Z.pos M~0).
  unfold binary_round_aux, shr_fexp.
  change (Zdigits2 (Z.pos M~0)) with (Z.pos (Pos.succ (digits2_pos M))).
  rewrite Pos2Z.inj_succ, Hd.
  rewrite fexp_normal by lia.
  replace (Z.succ 53 + (e - 11) - 53 - (e - 11)) with 1 by lia.
  cbn -[Z.add Z.sub Z.leb Z.pow fexp]. rewrite Hd.
  rewrite fexp_normal by lia.
  replace (53 + (e - 11 + 1) - 53 - (e - 11 + 1)) with 0 by lia.
  cbn -[Z.add Z.sub Z.leb Z.pow fexp].
  replace (e - 11 + 1 <=? emax - prec) with true
    by (symmetry; apply Z.leb_le; unfold emax, prec; lia).
  f_equal. lia.
Qed.

(** A normal float is at least 1024 when its exponent is at least -42. *)
Lemma geb_1024 (M : positive) (e : Z) :
  Z.pos (digits2_pos M) = 53 ->
  geb (S754_finite false M e) (of_Z 1024) = (-42 <=? e).
Proof.
  intros Hd.
  change (of_Z 1024) with (S754_finite false (2 ^ 52)%positive (-42)).
  unfold geb, SFleb, SFcompare.
  destruct (Z.compare_spec (-42) e) as [Heq|Hlt|Hgt].
  - subst e. simpl (-42 <=? -42).
    pose proof (digits_bounds M) as [Hl _]. rewrite Hd in Hl.
    change (2 ^ (53 - 1)) with (Z.pos (2 ^ 52)) in Hl.
    destruct (Pos.compare_cont Eq (2 ^ 52) M) eqn:Hc; try reflexivity.
    change (Pos.compare_cont Eq (2 ^ 52) M) with (Pos.compare (2 ^ 52) M) in Hc.
    apply Pos.compare_gt_iff in Hc. lia.
  - symmetry. apply Z.leb_le. lia.
  - symmetry. apply Z.leb_gt. lia.
Qed.

(** [k] divisions by 1024 lower the exponent by [10 * k]. *)
Lemma divs_normal (j : nat) : forall (M : positive) (e : Z),
  Z.pos (digits2_pos M) = 53 ->
  -1063 + 10 * Z.of_nat j <= e + 10 <= 981 ->
  divs j (S754_finite false M e) = S754_finite false M (e - 10 * Z.of_nat j).
Proof.
  induction j as [|j IH]; intros M e Hd He.
  - simpl. f_equal. lia.
  - cbn [divs]. rewrite div_1024_exact by lia.
    rewrite IH by lia. f_equal. lia.
Qed.

(** Rounding a quotient does not depend on a common factor. *)
Lemma round_half_even_scale a b c :
  0 < b -> 0 < c -> round_half_even (a * c) (b * c) = round_half_even a b.
Proof.
  intros Hb Hc. unfold round_half_even.
  rewrite Z.div_mul_cancel_r by lia.
  rewrite Z.mul_mod_distr_r by lia.
  replace (2 * (a mod b * c)) with (2 * (a mod b) * c) by lia.
  destruct (Z.compare_spec (2 * (a mod b)) b);
    destruct (Z.compare_spec (2 * (a mod b) * c) (b * c));
    try reflexivity; nia.
Qed.

End Float64Facts.

(* ===================================================================== *)
(** ** Reasoning about method bodies *)
(* ===================================================================== *)

Section ExecFacts.

Import Exec Exec.Notations Observe.
Context {St : Type}.

Lemma bind_lift_ret {A B} (a : A) (k : A -> M (St := St) B) s :
  bind (lift (Ret a)) k s = k a s.
Proof.
  unfold bind, lift. destruct (k a s) as [[r s'] o]. reflexivity.
Qed.

Lemma bind_lift_raise {A B} (e : exn) (k : A -> M (St := St) B) s :
  bind (lift (Raise e)) k s = (Raise e, s, []).
Proof. reflexivity. Qed.

Lemma bind_ret {A B} (a : A) (k : A -> M (St := St) B) s :
  bind (ret a) k s = k a s.
Proof. apply bind_lift_ret. Qed.

Lemma bind_assoc {A B C} (m : M (St := St) A) (f : A -> M B)
      (g : B -> M C) s :
  bind (bind m f) g s = bind m (fun a => bind (f a) g) s.
Proof.
  unfold bind. destruct (m s) as [[[a|e] s1] o1]; [|reflexivity].
  destruct (f a s1) as [[[b|e] s2] o2]; [|reflexivity].
  destruct (g b s2) as [[r s3] o3]. rewrite app_assoc. reflexivity.
Qed.

Lemma bind_cong {A B} (m : M (St := St) A) (k k' : A -> M B) s :
  (forall a s1, k a s1 = k' a s1) -> bind m k s = bind m k' s.
Proof.
  intros H. unfold bind. destruct (m s) as [[[a|e] s1] o1]; [|reflexivity].
  rewrite H. reflexivity.
Qed.

(** A sequence that ends normally ran both of its parts normally. *)
Lemma bind_ret_inv {A B} (m : M (St := St) A) (k : A -> M B) s b s' o :
  bind m k s = (Ret b, s', o) ->
  exists a s1 o1 o2,
    m s = (Ret a, s1, o1) /\ k a s1 = (Ret b, s', o2) /\ o = (o1 ++ o2)%list.
Proof.
  unfold bind. destruct (m s) as [[[a|e] s1] o1]; [|discriminate].
  destruct (k a s1) as [[r s2] o2] eqn:Hk. intros H.
  injection H as -> -> <-. exists a, s1, o1, o2. auto.
Qed.

Lemma bind_lift_inv {A B} (r : outcome A) (k : A -> M (St := St) B)
      s b s' o :
  bind (lift r) k s = (Ret b, s', o) ->
  exists a, r = Ret a /\ k a s = (Ret b, s', o).
Proof.
  destruct r as [a|e].
  - rewrite bind_lift_ret. eauto.
  - rewrite bind_lift_raise. discriminate.
Qed.

End ExecFacts.

(* ===================================================================== *)
(** ** Properties of the scripts *)
(* ===================================================================== *)

Section Properties.

Import Float64 PyVal Exec Exec.Notations AudibleUtilParser Observe.

(** *** The loop over the child's output *)

Lemma bind_skip {A B} (m : M (St := parser) A) (k : A -> M B) a s :
  m s = (Ret a, s, []) -> bind m k s = k a s.
Proof.
  intros H. unfold bind. rewrite H. destruct (k a s) as [[r s'] o].
  reflexivity.
Qed.

Lemma read_lines_app w i before after s :
  read_lines w i (before ++ after) s =
  bind (read_lines w i before)
       (fun _ => read_lines w (i + List.length before) after) s.
Proof.
  revert i s. induction before as [|l before IH]; intros i s.
  - simpl. rewrite bind_ret, Nat.add_0_r. reflexivity.
  - simpl. rewrite bind_assoc. apply bind_cong. intros _ s1.
    rewrite IH. replace (S i + List.length before)%nat
      with (i + S (List.length before))%nat by lia. reflexivity.
Qed.

Lemma read_lines_ext w w' lines :
  (forall i, clock w' i = clock w i) ->
  forall i s, read_lines w' i lines s = read_lines w i lines s.
Proof.
  intros Hc. induction lines as [|l lines IH]; intros i s; [reflexivity|].
  simpl. rewrite Hc. apply bind_cong. intros _ s1. apply IH.
Qed.

(** The run after the child was spawned, in terms of the loop. *)
Lemma run_conversion_spawned w args proc s :
  popen w (args ++ [machine_readable])%list = Ret proc ->
  run_conversion w args s =
  match read_lines w 0 (stdout proc) s with
  | (Ret _, s1, o1) =>
      (Ret (returncode proc), s1, banner ++ o1 ++ exit_report proc)%list
  | (Raise e, s1, o1) => (Ret 1, s1, banner ++ o1 ++ abort_message e)%list
  end.
Proof.
  intros Hp. unfold run_conversion, println, exit_report.
  unfold bind at 1 2, print at 1 2, try_except. rewrite Hp.
  rewrite bind_lift_ret. unfold bind at 1.
  destruct (read_lines w 0 (stdout proc) s) as [[[[]|e] s1] o1].
  - destruct (returncode proc =? 0) eqn:Hrc; simpl.
    + apply Z.eqb_eq in Hrc. rewrite Hrc, !app_nil_r. reflexivity.
    + reflexivity.
  - reflexivity.
Qed.

Lemma run_conversion_spawn_failed w args e s :
  popen w (args ++ [machine_readable])%list = Raise e ->
  run_conversion w args s = (Ret 1, s, banner ++ abort_message e)%list.
Proof.
  intros Hp. unfold run_conversion, println.
  unfold bind at 1 2, print at 1 2, try_except. rewrite Hp.
  reflexivity.
Qed.

Lemma handle_event_not_dict now event s :
  is_dict event = false ->
  handle_event now event s = (Raise AttributeError, s, []).
Proof. destruct event; try discriminate; reflexivity. Qed.

(** *** Malformed lines *)



(** *** Values that are not objects *)

(** C10. A line that decodes to a truthy value other than a dict (such as
    [[1, 2]] or [5]) is decoded successfully, but [handle_event] raises
    [AttributeError] on it.  Inside [run_conversion] the exception reaches
    the outer [except Exception] clause: the lines after it are not read,
    and the run returns 1 whatever the child's exit status is. *)
Theorem non_object_value_aborts_run (line : string) (v : pyval) :
  Json.loads (PyStr.strip line) = Some v ->
  truthy v = true ->
  is_dict v = false ->
  parse_event line = v /\
  (forall now s, handle_event now v s = (Raise AttributeError, s, [])) /\
  (forall w args proc before after s s1 o1,
      popen w (args ++ [machine_readable])%list = Ret proc ->
      stdout proc = (before ++ line :: after)%list ->
      read_lines w 0 before s = (Ret tt, s1, o1) ->
      run_conversion w args s
      = (Ret 1, s1, banner ++ o1 ++ abort_message AttributeError)%list).
Proof.
  intros Hl Ht Hd.
  assert (Hp : parse_event line = v) by (unfold parse_event; now rewrite Hl).
  split; [exact Hp|]. split.
  - intros now s. now apply handle_event_not_dict.
  - intros w args proc before after s s1 o1 Hs Hout Hb.
    rewrite (run_conversion_spawned _ _ _ _ Hs), Hout, read_lines_app.
    unfold bind at 1. rewrite Hb. simpl read_lines.
    unfold bind at 1. unfold process_line. rewrite Hp, Ht.
    rewrite handle_event_not_dict by assumption.
    rewrite app_nil_r. reflexivity.
Qed.

Lemma non_object_value_aborts_run_witness :
  parse_event (Scenario.line "[1, 2]") = PList [PInt 1; PInt 2] /\
  (forall now s,
      handle_event now (PList [PInt 1; PInt 2]) s
      = (Raise AttributeError, s, [])) /\
  (forall w args proc before after s s1 o1,
      popen w (args ++ [machine_readable])%list = Ret proc ->
      stdout proc = (before ++ Scenario.line "[1, 2]" :: after)%list ->
      read_lines w 0 before s = (Ret tt, s1, o1) ->
      run_conversion w args s
      = (Ret 1, s1, banner ++ o1 ++ abort_message AttributeError)%list).
Proof.
  apply (non_object_value_aborts_run (Scenario.line "[1, 2]")
           (PList [PInt 1; PInt 2])); vm_compute; reflexivity.
Defined.

(** The same on the line [5], with a child that then reports success. *)
Example number_line_aborts_run :
  parse_event (Scenario.line "5") = PInt 5 /\
  result (run_conversion
            (Scenario.spawning
               (Scenario.child
                  [Scenario.line "5";
                   Scenario.line "{'type': 'conversion_completed', 'success': true}"]
                  0))
            ["-a"; "book.aaxc"] init) = Ret 1.
Proof. vm_compute. split; reflexivity. Qed.

(** *** Exit codes *)





(** *** Events that are objects *)

Lemma eq_str_true v tag : eq_str v tag = true -> v = PStr tag.
Proof.
  destruct v; simpl; try discriminate.
  intros H. apply String.eqb_eq in H. now subst.
Qed.

Lemma has_type_dict d tag :
  has_type (PDict d) tag = eq_str (dict_get d "type" PNone) tag.
Proof. reflexivity. Qed.

(** The branch [handle_event] takes on a dict. *)
Lemma handle_event_dict now d s :
  handle_event now (PDict d) s =
  let t := dict_get d "type" PNone in
  if eq_str t "conversion_started" then
    on_conversion_started now (PDict d) s
  else if eq_str t "chapter_started" then on_chapter_started (PDict d) s
  else if eq_str t "chapter_progress" then on_chapter_progress (PDict d) s
  else if eq_str t "chapter_completed" then on_chapter_completed (PDict d) s
  else if eq_str t "conversion_completed" then
    on_conversion_completed (PDict d) s
  else if eq_str t "error" then on_error (PDict d) s
  else (Ret tt, s, []).
Proof.
  unfold handle_event, get_field. simpl get. rewrite bind_lift_ret.
  cbv zeta.
  repeat match goal with
         | |- context [if ?b then _ else _] => destruct b
         end; reflexivity.
Qed.

(** [conversion_started] never raises: its fields are only printed. *)
Lemma on_conversion_started_dict now d s :
  on_conversion_started now (PDict d) s =
  (Ret tt,
   {| current_chapter := current_chapter s;
      total_chapters := dict_get d "total_chapters" (PInt 0);
      start_time := PFloat now;
      conversion_success := conversion_success s |},
   [Text "🚀 Conversion started: ";
    StrOf (dict_get d "total_chapters" (PInt 0));
    Text " chapters to ";
    StrOf (dict_get d "output_format" (PStr "unknown"));
    Text " format"; Text nl;
    Text "📁 Output path: ";
    StrOf (dict_get d "output_path" (PStr "unknown")); Text nl]).
Proof. reflexivity. Qed.

(** One step of a method body: the next fallible expression either yields
    a value or ends the method. *)
Ltac step :=
  match goal with
  | |- context [bind (lift ?r) _ _] =>
      let E := fresh "E" in
      destruct r eqn:E; [rewrite bind_lift_ret | rewrite bind_lift_raise]
  end.

Lemma on_chapter_started_final d s :
  final (on_chapter_started (PDict d) s) =
  {| current_chapter := dict_get d "chapter_number" (PInt 0);
     total_chapters := total_chapters s;
     start_time := start_time s;
     conversion_success := conversion_success s |}.
Proof.
  unfold on_chapter_started, get_field. simpl get.
  rewrite !bind_lift_ret.
  destruct (format_fixed 1 (dict_get d "duration_seconds" (PInt 0))); reflexivity.
Qed.

Lemma on_chapter_progress_final d s :
  final (on_chapter_progress (PDict d) s) = s.
Proof.
  unfold on_chapter_progress, get_field. simpl get.
  rewrite !bind_lift_ret.
  repeat (step; [|reflexivity]).
  destruct (truthy _).
  - rewrite bind_assoc. step; [|reflexivity]. rewrite bind_ret.
    repeat (step; [|reflexivity]). reflexivity.
  - rewrite bind_ret. repeat (step; [|reflexivity]). reflexivity.
Qed.

Lemma on_chapter_completed_final d s :
  final (on_chapter_completed (PDict d) s) = s.
Proof.
  unfold on_chapter_completed, get_field. simpl get.
  rewrite !bind_lift_ret.
  destruct (format_fixed 1 (dict_get d "duration_seconds" (PInt 0)));
    reflexivity.
Qed.

Lemma on_conversion_completed_final d s :
  final (on_conversion_completed (PDict d) s) =
  {| current_chapter := current_chapter s;
     total_chapters := total_chapters s;
     start_time := start_time s;
     conversion_success := dict_get d "success" (PBool false) |}.
Proof.
  unfold on_conversion_completed, get_field. simpl get.
  rewrite !bind_lift_ret.
  destruct (truthy _); [|reflexivity].
  destruct (format_fixed 1 (dict_get d "total_duration_seconds" (PInt 0)));
    reflexivity.
Qed.

Lemma on_error_final d s : final (on_error (PDict d) s) = s.
Proof.
  unfold on_error, get_field. simpl get. rewrite !bind_lift_ret.
  destruct (truthy _); reflexivity.
Qed.

(** *** Which event writes which field *)

(** C7. Handling an event writes only the fields that belong to its type:
    total_chapters and start_time change only on [conversion_started],
    current_chapter only on [chapter_started], conversion_success only on
    [conversion_completed]; every other event (chapter_progress,
    chapter_completed, error, an unknown tag, a value without a tag)
    leaves the whole state as it was, also when the handler raises. *)
Theorem handle_event_frame (now : float) (event : pyval) (s : parser) :
  let s' := final (handle_event now event s) in
  (has_type event "conversion_started" = false ->
   total_chapters s' = total_chapters s /\ start_time s' = start_time s) /\
  (has_type event "chapter_started" = false ->
   current_chapter s' = current_chapter s) /\
  (has_type event "conversion_completed" = false ->
   conversion_success s' = conversion_success s) /\
  (has_type event "conversion_started" = false ->
   has_type event "chapter_started" = false ->
   has_type event "conversion_completed" = false ->
   s' = s).
Proof.
  destruct (is_dict event) eqn:Hd.
  - destruct event as [| | | | | |d]; try discriminate. clear Hd.
    rewrite handle_event_dict, !has_type_dict. cbv zeta.
    set (t := dict_get d "type" PNone).
    destruct (eq_str t "conversion_started") eqn:E1.
    { apply eq_str_true in E1. rewrite E1, on_conversion_started_dict.
      simpl. repeat split; intros; try discriminate; reflexivity. }
    destruct (eq_str t "chapter_started") eqn:E2.
    { apply eq_str_true in E2. rewrite E2, on_chapter_started_final.
      simpl. repeat split; intros; try discriminate; reflexivity. }
    destruct (eq_str t "chapter_progress") eqn:E3.
    { rewrite on_chapter_progress_final. repeat split; reflexivity. }
    destruct (eq_str t "chapter_completed") eqn:E4.
    { rewrite on_chapter_completed_final. repeat split; reflexivity. }
    destruct (eq_str t "conversion_completed") eqn:E5.
    { rewrite on_conversion_completed_final.
      simpl. repeat split; intros; try discriminate; reflexivity. }
    destruct (eq_str t "error") eqn:E6.
    { rewrite on_error_final. repeat split; reflexivity. }
    repeat split; reflexivity.
  - rewrite handle_event_not_dict by assumption.
    repeat split; reflexivity.
Qed.

(** *** The clock and the display *)

(** C9. Decoding and rendering a line is a function of the line and of
    the prior state alone: two runs that differ only in what the clock
    reads print the same, end the same way (normally or with the same
    exception), and leave states that agree on every field but
    start_time. *)
Theorem rendering_is_deterministic (line : string) (s : parser)
        (now1 now2 : float) :
  let r1 := process_line now1 line s in
  let r2 := process_line now2 line s in
  printed r1 = printed r2 /\
  result r1 = result r2 /\
  current_chapter (final r1) = current_chapter (final r2) /\
  total_chapters (final r1) = total_chapters (final r2) /\
  conversion_success (final r1) = conversion_success (final r2).
Proof.
  unfold process_line.
  destruct (truthy (parse_event line)); [|repeat split; reflexivity].
  generalize (parse_event line) as event. intros event.
  destruct (is_dict event) eqn:Hd.
  - destruct event as [| | | | | |d]; try discriminate.
    rewrite !handle_event_dict. cbv zeta.
    destruct (eq_str _ "conversion_started").
    + rewrite !on_conversion_started_dict. repeat split; reflexivity.
    + repeat split; reflexivity.
  - rewrite !handle_event_not_dict by assumption. repeat split; reflexivity.
Qed.

(** *** The progress bar *)

Lemma repeat_succ (cell : string) (n : nat) :
  String.concat "" (List.repeat cell (S n))
  = cell ++ String.concat "" (List.repeat cell n).
Proof.
  destruct n as [|n]; simpl; [|reflexivity].
  induction cell as [|c cell IH]; simpl; [reflexivity|]. now rewrite <- IH.
Qed.

Lemma filled_cells_bar (k m : Z) :
  filled_cells (PyStr.repeat "█" k ++ PyStr.repeat "░" m) = Z.to_nat k.
Proof.
  unfold PyStr.repeat. generalize (Z.to_nat k) as n. intros n.
  induction n as [|n IH].
  - simpl. destruct (Z.to_nat m) as [|j]; [reflexivity|].
    rewrite repeat_succ. reflexivity.
  - rewrite repeat_succ. unfold filled_cells in *. simpl.
    now rewrite IH.
Qed.

Lemma int_of_float_trunc x k : int_of_float x = Ret k -> trunc x = Some k.
Proof.
  destruct x; simpl; intros H; try discriminate; now injection H as <-.
Qed.

Lemma has_type_is_dict event tag :
  has_type event tag = true -> exists d, event = PDict d.
Proof. destruct event; try discriminate. eauto. Qed.

Lemma bar_ratio_floor_all :
  forallb bar_ratio_floor (map Z.of_nat (seq 0 101)) = true.
Proof. vm_compute. reflexivity. Qed.

Lemma eta_text_lift (eta : pyval) (s : parser) :
  (if truthy eta
   then e <- lift (format_fixed 0 eta) ;; ret (e ++ "s")
   else ret "Unknown") s = lift (eta_text eta) s.
Proof.
  unfold eta_text. destruct (truthy eta); [|reflexivity].
  destruct (format_fixed 0 eta); reflexivity.
Qed.

Lemma bind_ext_l {A B} (m m' : M (St := parser) A) (k : A -> M B) s :
  m s = m' s -> bind m k s = bind m' k s.
Proof. intros H. unfold bind. now rewrite H. Qed.

(** A progress line that was printed: every formatted field was
    computed, and the line is made of them. *)
Lemma on_chapter_progress_ok d s s' out :
  on_chapter_progress (PDict d) s = (Ret tt, s', out) ->
  exists x k size_str eta_str pct spd kbps,
    bar_ratio (dict_get d "progress_percentage" (PInt 0)) = Ret x /\
    int_of_float x = Ret k /\
    format_file_size (dict_get d "file_size" (PInt 0)) = Ret size_str /\
    eta_text (dict_get d "eta_seconds" PNone) = Ret eta_str /\
    format_fixed 1 (dict_get d "progress_percentage" (PInt 0)) = Ret pct /\
    format_fixed 1 (dict_get d "speed" (PInt 0)) = Ret spd /\
    truediv_int (dict_get d "bitrate" (PInt 0)) 1000 = Ret kbps /\
    s' = s /\
    out = [Text cr; Text "  ";
           Text (PyStr.repeat "█" k ++ PyStr.repeat "░" (bar_length - k));
           Text " "; Text (PyStr.pad_left 5 pct); Text "% | Speed: ";
           Text spd; Text "x | Bitrate: "; Text (format_f 0 kbps);
           Text "kbps | Size: "; Text size_str; Text " | ETA: ";
           Text eta_str].
Proof.
  intros Hh.
  unfold on_chapter_progress, get_field in Hh. simpl get in Hh.
  rewrite !bind_lift_ret in Hh.
  apply bind_lift_inv in Hh. destruct Hh as (scaled & Hm & Hh).
  apply bind_lift_inv in Hh. destruct Hh as (x & Hx & Hh).
  apply bind_lift_inv in Hh. destruct Hh as (k & Hk & Hh).
  apply bind_lift_inv in Hh. destruct Hh as (size_str & Hsz & Hh).
  rewrite (bind_ext_l _ _ _ _ (eta_text_lift _ _)) in Hh.
  apply bind_lift_inv in Hh. destruct Hh as (eta_str & He & Hh).
  apply bind_lift_inv in Hh. destruct Hh as (pct & Hpct & Hh).
  apply bind_lift_inv in Hh. destruct Hh as (spd & Hspd & Hh).
  apply bind_lift_inv in Hh. destruct Hh as (kbps & Hkb & Hh).
  unfold print in Hh. injection Hh as <- <-.
  exists x, k, size_str, eta_str, pct, spd, kbps.
  unfold bar_ratio. rewrite Hm. repeat split; assumption.
Qed.

Lemma handle_chapter_progress now d s :
  has_type (PDict d) "chapter_progress" = true ->
  handle_event now (PDict d) s = on_chapter_progress (PDict d) s.
Proof.
  rewrite has_type_dict, handle_event_dict. intros H.
  apply eq_str_true in H. cbv zeta. rewrite H. reflexivity.
Qed.

(** C3 (as amended). In the line rendered for a chapter_progress event
    with progress_percentage [p], the bar is [k] filled cells followed by
    [40 - k] empty ones, where [k] is the floating-point value of
    [40 * p / 100] cut toward zero (not rounded); a negative count shows
    as no cell, and [k] is not capped at the width, which is fixed at 40.
    For an integer [p] between 0 and 100, [k] is the integer quotient
    [40 * p / 100] and lies between 0 and 40. *)
Theorem progress_bar_cells (now : float) (event p : pyval)
        (s s' : parser) (out : list piece) :
  has_type event "chapter_progress" = true ->
  get event "progress_percentage" (PInt 0) = Ret p ->
  handle_event now event s = (Ret tt, s', out) ->
  (exists x k,
      bar_ratio p = Ret x /\ trunc x = Some k /\
      bar_of out = PyStr.repeat "█" k ++ PyStr.repeat "░" (bar_length - k) /\
      filled_cells (bar_of out) = Z.to_nat k) /\
  (forall n, 0 <= n <= 100 ->
      exists x, bar_ratio (PInt n) = Ret x /\
                trunc x = Some (bar_length * n / 100) /\
                0 <= bar_length * n / 100 <= bar_length).
Proof.
  intros Ht Hp Hh. split.
  - destruct (has_type_is_dict _ _ Ht) as [d ->].
    rewrite (handle_chapter_progress _ _ _ Ht) in Hh.
    simpl in Hp. injection Hp as <-.
    apply on_chapter_progress_ok in Hh.
    destruct Hh as (x & k & sz & et & pct & spd & kbps
                    & Hx & Hk & _ & _ & _ & _ & _ & _ & ->).
    exists x, k. split; [exact Hx|].
    split; [now apply int_of_float_trunc|].
    unfold bar_of. simpl nth.
    split; [reflexivity|]. apply filled_cells_bar.
  - intros n Hn.
    assert (Hin : In n (map Z.of_nat (seq 0 101))).
    { apply in_map_iff. exists (Z.to_nat n). split; [lia|].
      apply in_seq. lia. }
    pose proof (proj1 (forallb_forall _ _) bar_ratio_floor_all n Hin) as Hc.
    unfold bar_ratio_floor in Hc.
    destruct (bar_ratio (PInt n)) as [x|]; [|discriminate].
    destruct (trunc x) as [k|] eqn:Hk; [|discriminate].
    apply andb_prop in Hc. destruct Hc as [Hc H2].
    apply andb_prop in Hc. destruct Hc as [H0 H1].
    apply Z.eqb_eq in H0. apply Z.leb_le in H1, H2. subst k.
    exists x. repeat split; assumption.
Qed.

Lemma progress_bar_cells_witness :
  let event :=
    PDict [("type", PStr "chapter_progress");
           ("progress_percentage", PFloat (of_decimal false 427 (-1)))] in
  let r := handle_event (of_Z 0) event init in
  (exists x k,
      bar_ratio (PFloat (of_decimal false 427 (-1))) = Ret x /\
      trunc x = Some k /\
      bar_of (printed r)
      = PyStr.repeat "█" k ++ PyStr.repeat "░" (bar_length - k) /\
      filled_cells (bar_of (printed r)) = Z.to_nat k) /\
  (forall n, 0 <= n <= 100 ->
      exists x, bar_ratio (PInt n) = Ret x /\
                trunc x = Some (bar_length * n / 100) /\
                0 <= bar_length * n / 100 <= bar_length).
Proof.
  cbv zeta.
  apply (progress_bar_cells (of_Z 0)
           (PDict [("type", PStr "chapter_progress");
                   ("progress_percentage",
                    PFloat (of_decimal false 427 (-1)))])
           (PFloat (of_decimal false 427 (-1))) init init).
  - reflexivity.
  - reflexivity.
  - vm_compute. reflexivity.
Defined.

(** C3 (as stated) fails.  For progress_percentage 4 the value
    [40 * 4 / 100] is 1.6: the bar shows 1 filled cell, where rounding
    gives 2.  For progress_percentage 250 the bar shows 100 filled cells,
    where the clamp gives 40. *)
Lemma progress_bar_cells_counterexample :
  let render s := printed (process_line (of_Z 0) (Scenario.line s) init) in
  filled_cells
    (bar_of (render "{'type': 'chapter_progress', 'progress_percentage': 4}"))
  = 1%nat /\
  spec_filled 40 4 = 2 /\
  filled_cells
    (bar_of (render "{'type': 'chapter_progress', 'progress_percentage': 250}"))
  = 100%nat /\
  spec_filled 40 250 = 40.
Proof. vm_compute. repeat split; reflexivity. Qed.

(** *** The ETA field *)

(** C4 (the code as it is). In the line rendered for a chapter_progress
    event, the ETA field is the text [eta_text] computes from the value
    of eta_seconds ([None] when the key is absent): the value formatted
    with no decimals and followed by [s] when it is truthy, and [Unknown]
    when it is falsy.  So 42.7 shows as [43s] and an absent key as
    [Unknown], but a present eta_seconds of 0 shows as [Unknown] too. *)
Theorem eta_field_text (now : float) (event eta : pyval)
        (s s' : parser) (out : list piece) :
  has_type event "chapter_progress" = true ->
  get event "eta_seconds" PNone = Ret eta ->
  handle_event now event s = (Ret tt, s', out) ->
  eta_text eta = Ret (eta_of out) /\
  eta_text (PFloat (of_decimal false 427 (-1))) = Ret "43s" /\
  eta_text PNone = Ret "Unknown" /\
  eta_text (PInt 0) = Ret "Unknown".
Proof.
  intros Ht He Hh. split; [|vm_compute; repeat split; reflexivity].
  destruct (has_type_is_dict _ _ Ht) as [d ->].
  rewrite (handle_chapter_progress _ _ _ Ht) in Hh.
  simpl in He. injection He as <-.
  apply on_chapter_progress_ok in Hh.
  destruct Hh as (x & k & sz & et & pct & spd & kbps
                  & _ & _ & _ & He & _ & _ & _ & _ & ->).
  exact He.
Qed.

(** The failing input of C4: eta_seconds is present and 0. *)
Lemma eta_field_text_witness :
  let l := Scenario.line "{'type': 'chapter_progress', 'eta_seconds': 0}" in
  let r := handle_event (of_Z 0) (parse_event l) init in
  get (parse_event l) "eta_seconds" PNone = Ret (PInt 0) /\
  eta_of (printed r) = "Unknown" /\
  (eta_text (PInt 0) = Ret (eta_of (printed r)) /\
   eta_text (PFloat (of_decimal false 427 (-1))) = Ret "43s" /\
   eta_text PNone = Ret "Unknown" /\
   eta_text (PInt 0) = Ret "Unknown").
Proof.
  cbv zeta. split; [vm_compute; reflexivity|].
  split; [vm_compute; reflexivity|].
  apply (eta_field_text (of_Z 0)
           (parse_event
              (Scenario.line "{'type': 'chapter_progress', 'eta_seconds': 0}"))
           (PInt 0) init init).
  - vm_compute. reflexivity.
  - vm_compute. reflexivity.
  - vm_compute. reflexivity.
Defined.

(** *** File sizes *)

Lemma scale_unfold size i :
  scale size i =
  if geb size (of_Z 1024) && (i <? List.length units - 1)%nat
  then scale (div size (of_Z 1024)) (S i)
  else (size, i).
Proof.
  funelim (scale size i); rewrite e; reflexivity.
Qed.

(** The loop divides while the value is at least 1024 and a larger unit
    is left. *)
Lemma scale_spec (m : nat) :
  forall size i,
    (i + m = List.length units - 1)%nat ->
    exists j,
      (j <= m)%nat /\
      scale size i = (divs j size, (i + j)%nat) /\
      (forall j', (j' < j)%nat -> geb (divs j' size) (of_Z 1024) = true) /\
      (j = m \/ geb (divs j size) (of_Z 1024) = false).
Proof.
  induction m as [|m IH]; intros size i Hi; rewrite scale_unfold.
  - replace (i <? List.length units - 1)%nat with false
      by (symmetry; apply Nat.ltb_ge; lia).
    rewrite andb_false_r. exists O. rewrite Nat.add_0_r.
    repeat split; auto. intros j' Hj. lia.
  - replace (i <? List.length units - 1)%nat with true
      by (symmetry; apply Nat.ltb_lt; lia).
    rewrite andb_true_r.
    destruct (geb size (of_Z 1024)) eqn:Hge.
    + destruct (IH (div size (of_Z 1024)) (S i)) as (j & Hj & Hs & Hall & Hend);
        [lia|].
      exists (S j). split; [lia|]. split.
      { rewrite Hs. simpl. f_equal. lia. }
      split.
      { intros [|j'] Hlt; [exact Hge|]. simpl. apply Hall. lia. }
      { destruct Hend as [->|Hend]; [now left|now right]. }
    + exists O. rewrite Nat.add_0_r. split; [lia|].
      repeat split; auto. intros j' Hj. lia.
Qed.

(** Below [2^53] every step of [format_file_size] is exact. *)
Lemma format_file_size_exact n :
  0 <= n < 2 ^ 53 -> format_file_size (PInt n) = Ret (spec_file_size n).
Proof.
  intros [Hn0 Hn]. unfold spec_file_size, format_file_size. simpl eq_zero.
  destruct (Z.eqb_spec n 0) as [->|Hnz]; [reflexivity|].
  destruct (of_Z_exact n ltac:(lia)) as (M & e & Hof & Hd & He & HM).
  assert (Hfin : is_finite (of_Z n) = true) by (rewrite Hof; reflexivity).
  simpl to_float. unfold float_of_int. rewrite Hfin.
  destruct (scale_spec 3 (of_Z n) 0 eq_refl) as (k & Hk & Hs & Hall & Hend).
  rewrite Hs. simpl Nat.add. rewrite Hof in *.
  pose proof (digits_bounds M) as HMb. rewrite Hd in HMb.
  change (53 - 1) with 52 in HMb.
  assert (Hpe : 0 < 2 ^ (- e)) by (apply Z.pow_pos_nonneg; lia).
  (* the tests of the loop, in terms of [n] *)
  assert (Hge : forall j, (j <= 3)%nat ->
             geb (divs j (S754_finite false M e)) (of_Z 1024)
             = (1024 ^ (Z.of_nat j + 1) <=? n)).
  { intros j Hj. rewrite divs_normal, geb_1024 by lia.
    assert (H1024 : 1024 ^ (Z.of_nat j + 1) = 2 ^ (10 * (Z.of_nat j + 1))).
    { change 1024 with (2 ^ 10). rewrite <- Z.pow_mul_r by lia. reflexivity. }
    rewrite H1024.
    destruct (Z.leb_spec (-42) (e - 10 * Z.of_nat j)) as [Hle|Hgt]; symmetry.
    - apply Z.leb_le.
      assert (Hp : 2 ^ (10 * (Z.of_nat j + 1)) * 2 ^ (- e)
                   <= 2 ^ 52).
      { rewrite <- Z.pow_add_r by lia. apply Z.pow_le_mono_r; lia. }
      nia.
    - apply Z.leb_gt.
      assert (Hp : 2 ^ 53 <= 2 ^ (10 * (Z.of_nat j + 1)) * 2 ^ (- e)).
      { rewrite <- Z.pow_add_r by lia. apply Z.pow_le_mono_r; lia. }
      nia. }
  assert (Hall' : forall j, (j < k)%nat -> 1024 ^ (Z.of_nat j + 1) <= n).
  { intros j Hj. apply Z.leb_le. rewrite <- Hge by lia. now apply Hall. }
  assert (Hend' : k = 3%nat \/ n < 1024 ^ (Z.of_nat k + 1)).
  { destruct Hend as [->|Hend]; [now left|right].
    apply Z.leb_gt. rewrite <- Hge by lia. exact Hend. }
  clear Hall Hend Hge.
  assert (Hku : spec_unit n = k).
  { unfold spec_unit.
    change (1024 ^ 2) with 1048576. change (1024 ^ 3) with 1073741824.
    assert (H0 : (0 < k)%nat -> 1024 <= n)
      by (intros H; exact (Hall' 0%nat H)).
    assert (H1 : (1 < k)%nat -> 1048576 <= n)
      by (intros H; exact (Hall' 1%nat H)).
    assert (H2 : (2 < k)%nat -> 1073741824 <= n)
      by (intros H; exact (Hall' 2%nat H)).
    assert (H3 : k = 0%nat -> n < 1024)
      by (intros ->; destruct Hend' as [|H]; [discriminate|exact H]).
    assert (H4 : k = 1%nat -> n < 1048576)
      by (intros ->; destruct Hend' as [|H]; [discriminate|exact H]).
    assert (H5 : k = 2%nat -> n < 1073741824)
      by (intros ->; destruct Hend' as [|H]; [discriminate|exact H]).
    destruct (Z.ltb_spec n 1024); [lia|].
    destruct (Z.ltb_spec n 1048576); [lia|].
    destruct (Z.ltb_spec n 1073741824); lia. }
  rewrite Hku. do 2 f_equal.
  rewrite divs_normal by lia.
  assert (Hneg : e - 10 * Z.of_nat k < 0).
  { destruct k as [|k]; [|lia].
    destruct Hend' as [|H]; [discriminate|].
    change (1024 ^ (Z.of_nat 0 + 1)) with 1024 in H.
    destruct (Z.eq_dec e 0) as [->|]; [|lia].
    change (2 ^ (- 0)) with 1 in HM. change (2 ^ 52) with 4503599627370496 in HMb.
    lia. }
  destruct (e - 10 * Z.of_nat k) as [|q|q] eqn:Hq; try lia.
  unfold format_f. cbn [append]. f_equal.
  assert (H1024 : 1024 ^ Z.of_nat k = 2 ^ (10 * Z.of_nat k)).
  { change 1024 with (2 ^ 10). rewrite <- Z.pow_mul_r by lia. reflexivity. }
  assert (Hp : 2 ^ Z.pos q = 1024 ^ Z.of_nat k * 2 ^ (- e)).
  { rewrite H1024, <- Z.pow_add_r by lia. f_equal. lia. }
  rewrite Hp, HM. change (10 ^ Z.of_nat 1) with 10.
  replace (n * 2 ^ (- e) * 10) with (10 * n * 2 ^ (- e)) by lia.
  apply round_half_even_scale; [|assumption].
  apply Z.pow_pos_nonneg; lia.
Qed.

(** C5 (as amended). For a non-negative integer byte count [n] below
    [2^1024 - 2^970], which [float] can hold, [format_file_size] returns
    ["0 B"] for 0 and otherwise the value divided by 1024 [k] times, printed
    with one decimal and followed by the [k]-th unit of B, KB, MB, GB,
    where the division went on as long as the value was at least 1024 and
    stopped below 1024 or at GB.  Below [2^53] no step rounds, and the text
    is the one of the specification: [n / 1024^k] to one decimal (ties to
    even) with the unit.  In particular 0, 1536, 1048576 and 1073741824
    give ["0 B"], ["1.5 KB"], ["1.0 MB"] and ["1.0 GB"]. *)
Theorem format_file_size_scaled (n : Z) :
  0 <= n < 2 ^ 1024 - 2 ^ 970 ->
  (n = 0 -> format_file_size (PInt n) = Ret "0 B") /\
  (0 < n ->
   exists k,
     (k <= 3)%nat /\
     format_file_size (PInt n)
     = Ret (format_f 1 (divs k (of_Z n)) ++ " " ++ nth k units "") /\
     (forall j, (j < k)%nat -> geb (divs j (of_Z n)) (of_Z 1024) = true) /\
     (k = 3%nat \/ geb (divs k (of_Z n)) (of_Z 1024) = false)) /\
  (n < 2 ^ 53 -> format_file_size (PInt n) = Ret (spec_file_size n)) /\
  format_file_size (PInt 0) = Ret "0 B" /\
  format_file_size (PInt 1536) = Ret "1.5 KB" /\
  format_file_size (PInt 1048576) = Ret "1.0 MB" /\
  format_file_size (PInt 1073741824) = Ret "1.0 GB".
Proof.
  intros Hn. pose proof (of_Z_finite n Hn) as Hfin.
  split; [intros ->; reflexivity|].
  split; [|split; [intros H53; apply format_file_size_exact; lia
                  |vm_compute; repeat split; reflexivity]].
  intros Hpos. unfold format_file_size. simpl eq_zero.
  replace (n =? 0) with false by (symmetry; apply Z.eqb_neq; lia).
  simpl to_float. unfold float_of_int. rewrite Hfin.
  destruct (scale_spec 3 (of_Z n) 0 eq_refl) as (k & Hk & Hs & Hall & Hend).
  exists k. rewrite Hs. simpl Nat.add. auto.
Qed.

Lemma format_file_size_scaled_witness :
  0 <= 1536 < 2 ^ 1024 - 2 ^ 970 /\
  ((1536 = 0 -> format_file_size (PInt 1536) = Ret "0 B") /\
   (0 < 1536 ->
    exists k,
      (k <= 3)%nat /\
      format_file_size (PInt 1536)
      = Ret (format_f 1 (divs k (of_Z 1536)) ++ " " ++ nth k units "") /\
      (forall j, (j < k)%nat ->
                 geb (divs j (of_Z 1536)) (of_Z 1024) = true) /\
      (k = 3%nat \/ geb (divs k (of_Z 1536)) (of_Z 1024) = false)) /\
   (1536 < 2 ^ 53 ->
    format_file_size (PInt 1536) = Ret (spec_file_size 1536)) /\
   format_file_size (PInt 0) = Ret "0 B" /\
   format_file_size (PInt 1536) = Ret "1.5 KB" /\
   format_file_size (PInt 1048576) = Ret "1.0 MB" /\
   format_file_size (PInt 1073741824) = Ret "1.0 GB").
Proof.
  assert (H : 0 <= 1536 < 2 ^ 1024 - 2 ^ 970)
    by (split; [lia|vm_compute; reflexivity]).
  split; [exact H|]. apply (format_file_size_scaled 1536 H).
Defined.

(** C5 (as stated) fails on a byte count that [float] cannot hold: the
    conversion raises [OverflowError] where a size was to be printed.
    The first such count is [2^1024 - 2^970]. *)
Lemma format_file_size_counterexample :
  format_file_size (PInt (2 ^ 1024)) = Raise OverflowError /\
  format_file_size (PInt (2 ^ 1024 - 2 ^ 970)) = Raise OverflowError /\
  is_finite (of_Z (2 ^ 1024 - 2 ^ 970 - 1)) = true.
Proof. vm_compute. repeat split; reflexivity. Qed.


(** *** Missing fields *)

Lemma dict_lookup_set d k v k' :
  dict_lookup (dict_set d k v) k'
  = if String.eqb k k' then Some v else dict_lookup d k'.
Proof.
  induction d as [|[k0 v0] r IH]; simpl; [reflexivity|].
  destruct (String.eqb k0 k) eqn:E0; simpl.
  - apply String.eqb_eq in E0. subst k0.
    destruct (String.eqb k k'); reflexivity.
  - rewrite IH. destruct (String.eqb k0 k') eqn:E1; [|reflexivity].
    apply String.eqb_eq in E1. subst k0. now rewrite String.eqb_sym, E0.
Qed.


Lemma dict_get_set_other d k v k' def :
  String.eqb k k' = false ->
  dict_get (dict_set d k v) k' def = dict_get d k' def.
Proof. intros H. unfold dict_get. now rewrite dict_lookup_set, H. Qed.







(** *** Chapter numbers *)




(* ===================================================================== *)
(** ** Further properties of the scripts *)
(* ===================================================================== *)

Import Behaviour.

(** The next fallible expression on both sides of an equation. *)
Ltac step_all :=
  rewrite ?bind_lift_ret;
  match goal with
  | |- context [bind (lift ?r) _ _] =>
      let E := fresh "E" in
      destruct r eqn:E; [rewrite !bind_lift_ret | rewrite !bind_lift_raise]
  end.

(** *** Texts and their lengths *)

Lemma append_assoc (a b c : string) : (a ++ b) ++ c = a ++ (b ++ c).
Proof. induction a as [|x a IH]; simpl; [reflexivity|now rewrite IH]. Qed.

Lemma length_append (a b : string) :
  String.length (a ++ b) = (String.length a + String.length b)%nat.
Proof. induction a as [|x a IH]; simpl; [reflexivity|now rewrite IH]. Qed.

Lemma length_repeat (cell : string) (n : Z) :
  String.length (PyStr.repeat cell n)
  = (Z.to_nat n * String.length cell)%nat.
Proof.
  unfold PyStr.repeat. induction (Z.to_nat n) as [|k IH]; [reflexivity|].
  rewrite repeat_succ, length_append, IH. simpl. reflexivity.
Qed.

Lemma list_ascii_of_append (a b : string) :
  list_ascii_of_string (a ++ b)
  = (list_ascii_of_string a ++ list_ascii_of_string b)%list.
Proof. induction a as [|x a IH]; simpl; [reflexivity|now rewrite IH]. Qed.

(** *** Whitespace around a line *)

Lemma is_prefix_spec (w s : list ascii) :
  PyStr.is_prefix w s = true <-> exists t, s = (w ++ t)%list.
Proof.
  unfold PyStr.is_prefix. split.
  - intros H. apply andb_prop in H. destruct H as [_ H].
    destruct (list_eq_dec ascii_dec w (firstn (List.length w) s)) as [E|];
      [|discriminate].
    exists (skipn (List.length w) s). rewrite E at 1.
    symmetry. apply firstn_skipn.
  - intros [t ->]. apply andb_true_intro. split.
    + apply Nat.leb_le. rewrite length_app. lia.
    + rewrite firstn_app, Nat.sub_diag, firstn_all. simpl.
      rewrite app_nil_r.
      destruct (list_eq_dec ascii_dec w w); [reflexivity|contradiction].
Qed.

Lemma leading_space_none (ws : list (list ascii)) (s : list ascii) :
  PyStr.leading_space ws s = None <->
  forall w, In w ws -> PyStr.is_prefix w s = false.
Proof.
  unfold PyStr.leading_space. split.
  - intros H w Hin. destruct (PyStr.is_prefix w s) eqn:E; [|reflexivity].
    assert (Hf : In w (filter (fun w => PyStr.is_prefix w s) ws))
      by (apply filter_In; auto).
    destruct (filter _ ws); [contradiction|discriminate].
  - intros H. destruct (filter _ ws) as [|w r] eqn:E; [reflexivity|].
    assert (Hf : In w (filter (fun w => PyStr.is_prefix w s) ws))
      by (rewrite E; now left).
    apply filter_In in Hf. destruct Hf as [Hin Hp].
    rewrite (H w Hin) in Hp. discriminate.
Qed.

Lemma leading_space_some (ws : list (list ascii)) (s : list ascii) (n : nat) :
  PyStr.leading_space ws s = Some n ->
  exists w, In w ws /\ PyStr.is_prefix w s = true /\ n = List.length w.
Proof.
  unfold PyStr.leading_space.
  destruct (filter _ ws) as [|w r] eqn:E; [discriminate|].
  intros H. injection H as <-.
  assert (Hf : In w (filter (fun w => PyStr.is_prefix w s) ws))
    by (rewrite E; now left).
  apply filter_In in Hf. exists w. tauto.
Qed.

Section Strip.

Variable ws : list (list ascii).
Hypothesis ws_nonempty : forall w, In w ws -> w <> [].

(** [lstrip] leaves a suffix of the text that starts with no character
    of [ws]. *)
Lemma lstrip_aux_done (fuel : nat) : forall s,
  (List.length s <= fuel)%nat ->
  PyStr.leading_space ws (PyStr.lstrip_aux ws fuel s) = None.
Proof.
  induction fuel as [|k IH]; intros s Hs.
  - destruct s; [|simpl in Hs; lia]. simpl. apply leading_space_none.
    intros w Hin. destruct (PyStr.is_prefix w []) eqn:E; [|reflexivity].
    apply is_prefix_spec in E. destruct E as [t E].
    symmetry in E. apply app_eq_nil in E. destruct E as [-> _].
    now elim (ws_nonempty [] Hin).
  - simpl. destruct (PyStr.leading_space ws s) as [n|] eqn:E; [|exact E].
    apply IH. destruct (leading_space_some _ _ _ E) as (w & Hin & Hp & ->).
    apply is_prefix_spec in Hp. destruct Hp as [t ->].
    pose proof (ws_nonempty w Hin) as Hne.
    rewrite length_app in Hs. rewrite skipn_app, Nat.sub_diag, skipn_all.
    simpl. destruct w; [contradiction|]. simpl in Hs. lia.
Qed.

Lemma lstrip_aux_suffix (fuel : nat) : forall s,
  exists p, s = (p ++ PyStr.lstrip_aux ws fuel s)%list.
Proof.
  induction fuel as [|k IH]; intros s; [now exists []|].
  simpl. destruct (PyStr.leading_space ws s) as [n|]; [|now exists []].
  destruct (IH (skipn n s)) as [p Hp].
  exists (firstn n s ++ p)%list. rewrite <- app_assoc, <- Hp.
  symmetry. apply firstn_skipn.
Qed.

Lemma lstrip_fixed (s : list ascii) :
  PyStr.leading_space ws s = None -> PyStr.lstrip ws s = s.
Proof.
  intros H. unfold PyStr.lstrip. destruct (List.length s); [reflexivity|].
  simpl. now rewrite H.
Qed.

Lemma leading_space_prefix (a b : list ascii) :
  PyStr.leading_space ws (a ++ b) = None -> PyStr.leading_space ws a = None.
Proof.
  rewrite !leading_space_none. intros H w Hin.
  destruct (PyStr.is_prefix w a) eqn:E; [|reflexivity].
  apply is_prefix_spec in E. destruct E as [t ->].
  rewrite <- (H w Hin). symmetry. apply is_prefix_spec.
  exists (t ++ b)%list. now rewrite app_assoc.
Qed.

End Strip.

Lemma rev_nonempty (ws : list (list ascii)) :
  (forall w, In w ws -> w <> []) ->
  forall w, In w (map (@rev ascii) ws) -> w <> [].
Proof.
  intros H w Hin. apply in_map_iff in Hin. destruct Hin as (v & <- & Hv).
  intros E. apply (H v Hv). destruct v; [reflexivity|].
  simpl in E. now apply app_eq_nil in E.
Qed.

Lemma strip_chars_twice (ws : list (list ascii)) (s : string) :
  (forall w, In w ws -> w <> []) ->
  PyStr.strip_chars ws (PyStr.strip_chars ws s) = PyStr.strip_chars ws s.
Proof.
  intros Hne. unfold PyStr.strip_chars.
  rewrite list_ascii_of_string_of_list_ascii. f_equal.
  set (t := PyStr.lstrip ws (list_ascii_of_string s)).
  assert (Ht : PyStr.leading_space ws t = None)
    by (apply lstrip_aux_done; auto).
  set (u := PyStr.rstrip ws t).
  assert (Hu : rev u = PyStr.lstrip (map (@rev ascii) ws) (rev t))
    by (unfold u, PyStr.rstrip; apply rev_involutive).
  assert (Hpre : exists q, t = (u ++ q)%list).
  { destruct (lstrip_aux_suffix (map (@rev ascii) ws)
                (List.length (rev t)) (rev t)) as [p Hp].
    fold (PyStr.lstrip (map (@rev ascii) ws) (rev t)) in Hp.
    rewrite <- Hu in Hp. exists (rev p).
    rewrite <- (rev_involutive t), Hp, rev_app_distr, rev_involutive.
    reflexivity. }
  destruct Hpre as [q Hq].
  assert (Hlu : PyStr.lstrip ws u = u).
  { apply lstrip_fixed. apply (leading_space_prefix ws u q).
    now rewrite <- Hq. }
  rewrite Hlu. unfold PyStr.rstrip at 1. rewrite Hu.
  rewrite lstrip_fixed.
  - rewrite <- Hu. apply rev_involutive.
  - apply lstrip_aux_done; auto. now apply rev_nonempty.
Qed.

Lemma whitespace_nonempty : forall w, In w PyStr.whitespace -> w <> [].
Proof.
  assert (H : forallb (fun w => negb (Nat.eqb (List.length w) 0))
                PyStr.whitespace = true) by (vm_compute; reflexivity).
  intros w Hin ->. pose proof (proj1 (forallb_forall _ _) H [] Hin).
  discriminate.
Qed.

Lemma strip_twice (s : string) : PyStr.strip (PyStr.strip s) = PyStr.strip s.
Proof. apply strip_chars_twice, whitespace_nonempty. Qed.

Section LineEnd.

Variable ws : list (list ascii).
Variable c : ascii.
Hypothesis ws_nonempty : forall w, In w ws -> w <> [].
Hypothesis ws_has : In [c] ws.
Hypothesis ws_lone : forall w, In w ws -> In c w -> w = [c].

(** A text that starts with [c] starts with the one-byte character
    [c]. *)
Lemma leading_space_single (t : list ascii) :
  PyStr.leading_space ws (c :: t) = Some 1%nat.
Proof.
  destruct (PyStr.leading_space ws (c :: t)) as [n|] eqn:E.
  - destruct (leading_space_some _ _ _ E) as (w & Hin & Hp & ->).
    apply is_prefix_spec in Hp. destruct Hp as [r Hr].
    destruct w as [|x w]; [now elim (ws_nonempty [] Hin)|].
    simpl in Hr. injection Hr as <- _.
    now rewrite (ws_lone (c :: w) Hin (or_introl eq_refl)).
  - rewrite leading_space_none in E. specialize (E [c] ws_has).
    assert (H : PyStr.is_prefix [c] (c :: t) = true)
      by (apply is_prefix_spec; now exists t).
    rewrite H in E. discriminate.
Qed.

(** A final [c] completes no character of [ws] that starts earlier. *)
Lemma leading_space_snoc (a : list ascii) :
  a <> [] ->
  PyStr.leading_space ws (a ++ [c]) = PyStr.leading_space ws a.
Proof.
  intros Ha. unfold PyStr.leading_space.
  rewrite (filter_ext_in (fun w => PyStr.is_prefix w (a ++ [c]))
             (fun w => PyStr.is_prefix w a)); [reflexivity|].
  intros w Hin.
  destruct (PyStr.is_prefix w a) eqn:E.
  - apply is_prefix_spec in E. destruct E as [t ->].
    apply is_prefix_spec. exists (t ++ [c])%list. now rewrite app_assoc.
  - destruct (PyStr.is_prefix w (a ++ [c])) eqn:E'; [|reflexivity].
    apply is_prefix_spec in E'. destruct E' as [t Ht].
    destruct (exists_last (l := t)) as (t0 & x & ->).
    + intros ->. rewrite app_nil_r in Ht. subst w.
      assert (Hc : In c (a ++ [c])) by (apply in_or_app; right; now left).
      pose proof (ws_lone _ Hin Hc) as Hw.
      destruct a as [|y [|z a]]; [contradiction| |]; simpl in Hw;
        discriminate.
    + rewrite app_assoc in Ht. apply app_inj_tail in Ht.
      destruct Ht as [-> _].
      assert (H : PyStr.is_prefix w (w ++ t0) = true)
        by (apply is_prefix_spec; now exists t0).
      rewrite H in E. discriminate.
Qed.

Lemma lstrip_aux_nil (fuel : nat) : PyStr.lstrip_aux ws fuel [] = [].
Proof.
  destruct fuel; [reflexivity|]. simpl.
  destruct (PyStr.leading_space ws []) as [n|] eqn:E; [|reflexivity].
  destruct (leading_space_some _ _ _ E) as (w & Hin & Hp & _).
  apply is_prefix_spec in Hp. destruct Hp as [t Ht].
  symmetry in Ht. apply app_eq_nil in Ht. destruct Ht as [-> _].
  now elim (ws_nonempty [] Hin).
Qed.

Lemma lstrip_aux_snoc (fuel : nat) : forall a,
  (List.length a <= fuel)%nat ->
  PyStr.lstrip_aux ws (S fuel) (a ++ [c])
  = match PyStr.lstrip_aux ws fuel a with
    | [] => []
    | r => (r ++ [c])%list
    end.
Proof.
  induction fuel as [|k IH]; intros a Ha.
  - destruct a; [|simpl in Ha; lia].
    simpl app. cbn [PyStr.lstrip_aux]. now rewrite leading_space_single.
  - destruct a as [|x a].
    + rewrite (lstrip_aux_nil (S k)). simpl app.
      change (PyStr.lstrip_aux ws (S (S k)) [c])
        with (match PyStr.leading_space ws [c] with
              | Some n => PyStr.lstrip_aux ws (S k) (skipn n [c])
              | None => [c]
              end).
      rewrite leading_space_single. apply lstrip_aux_nil.
    + set (b := x :: a) in *.
      assert (Hb : b <> []) by discriminate.
      change (PyStr.lstrip_aux ws (S (S k)) (b ++ [c]))
        with (match PyStr.leading_space ws (b ++ [c]) with
              | Some n => PyStr.lstrip_aux ws (S k) (skipn n (b ++ [c]))
              | None => (b ++ [c])%list
              end).
      change (PyStr.lstrip_aux ws (S k) b)
        with (match PyStr.leading_space ws b with
              | Some n => PyStr.lstrip_aux ws k (skipn n b)
              | None => b
              end).
      rewrite (leading_space_snoc b Hb).
      destruct (PyStr.leading_space ws b) as [n|] eqn:E.
      * destruct (leading_space_some _ _ _ E) as (w & Hin & Hp & ->).
        apply is_prefix_spec in Hp. destruct Hp as [t Ht].
        pose proof (ws_nonempty w Hin) as Hne.
        rewrite Ht, <- app_assoc, !skipn_app, Nat.sub_diag, skipn_all.
        simpl app. apply IH.
        assert (Hl : List.length b = (List.length w + List.length t)%nat)
          by (rewrite Ht; apply length_app).
        destruct w; [contradiction|]. unfold b in *. simpl in Hl, Ha. lia.
      * unfold b. reflexivity.
Qed.

Lemma lstrip_snoc (a : list ascii) :
  PyStr.lstrip ws (a ++ [c])
  = match PyStr.lstrip ws a with
    | [] => []
    | r => (r ++ [c])%list
    end.
Proof.
  unfold PyStr.lstrip. rewrite length_app, Nat.add_1_r.
  now apply lstrip_aux_snoc.
Qed.

End LineEnd.

Lemma rstrip_snoc (ws : list (list ascii)) (c : ascii) (r : list ascii) :
  (forall w, In w ws -> w <> []) ->
  In [c] ws ->
  (forall w, In w ws -> In c w -> w = [c]) ->
  PyStr.rstrip ws (r ++ [c]) = PyStr.rstrip ws r.
Proof.
  intros Hne Hhas Hlone. unfold PyStr.rstrip. f_equal.
  rewrite rev_app_distr. simpl app. unfold PyStr.lstrip at 1.
  cbn [List.length PyStr.lstrip_aux].
  rewrite (leading_space_single (map (@rev ascii) ws) c).
  - reflexivity.
  - now apply rev_nonempty.
  - change [c] with (rev [c]). now apply in_map.
  - intros w Hin Hc. apply in_map_iff in Hin. destruct Hin as (v & <- & Hv).
    apply in_rev in Hc. now rewrite (Hlone v Hv Hc).
Qed.

Lemma strip_chars_snoc (ws : list (list ascii)) (c : ascii) (s : string) :
  (forall w, In w ws -> w <> []) ->
  In [c] ws ->
  (forall w, In w ws -> In c w -> w = [c]) ->
  PyStr.strip_chars ws (s ++ String c "") = PyStr.strip_chars ws s.
Proof.
  intros Hne Hhas Hlone. unfold PyStr.strip_chars. f_equal.
  rewrite list_ascii_of_append. simpl list_ascii_of_string at 2.
  rewrite (lstrip_snoc ws c Hne Hhas Hlone).
  destruct (PyStr.lstrip ws (list_ascii_of_string s)) as [|x r] eqn:E;
    [reflexivity|].
  now apply rstrip_snoc.
Qed.

Lemma strip_snoc (c : ascii) (s : string) :
  lone_space c = true -> PyStr.strip (s ++ String c "") = PyStr.strip s.
Proof.
  intros H. apply andb_prop in H. destruct H as [He Hf].
  apply strip_chars_snoc.
  - apply whitespace_nonempty.
  - apply existsb_exists in He. destruct He as (w & Hin & Hw).
    destruct (list_eq_dec ascii_dec w [c]) as [->|]; [exact Hin|discriminate].
  - intros w Hin Hc. pose proof (proj1 (forallb_forall _ _) Hf w Hin) as Hw.
    simpl in Hw. destruct (in_dec ascii_dec c w); [|contradiction].
    destruct (list_eq_dec ascii_dec w [c]); [assumption|discriminate].
Qed.

(** X1. The line terminator of a line and the whitespace around it do not
    matter: [parse_event] returns the same value for a line, for the line
    followed by a newline or by a carriage return and a newline, and for
    the line already stripped; the loop of [run_conversion] handles the
    line with its newline as it handles the line without, and so does the
    loop of [simple_json_parser.py]. *)
Theorem line_end_is_ignored (line : string) :
  parse_event (line ++ nl) = parse_event line /\
  parse_event (line ++ cr ++ nl) = parse_event line /\
  parse_event (PyStr.strip line) = parse_event line /\
  (forall now s,
      process_line now (line ++ nl) s = process_line now line s) /\
  SimpleJsonParser.show_line (line ++ nl) tt
  = SimpleJsonParser.show_line line tt.
Proof.
  assert (Hnl : PyStr.strip (line ++ nl) = PyStr.strip line)
    by (apply strip_snoc; vm_compute; reflexivity).
  assert (Hcr : PyStr.strip (line ++ cr ++ nl) = PyStr.strip line).
  { rewrite <- append_assoc. unfold nl at 1.
    rewrite strip_snoc by (vm_compute; reflexivity).
    apply strip_snoc. vm_compute. reflexivity. }
  unfold process_line, parse_event, SimpleJsonParser.show_line.
  rewrite Hnl, Hcr, strip_twice. repeat split; reflexivity.
Qed.

(** *** Lines that hold no event *)

(** X2. A line that decodes to a falsy value is skipped like a line that
    is not JSON: nothing is printed, the attributes stay as they are and
    the loop goes on with the next line.  The falsy values are [null],
    [false], the integer 0, a float zero of either sign, the empty string,
    the empty array and the empty object; in particular [{}] never reaches
    [handle_event]. *)
Theorem falsy_value_is_skipped (line : string) (v : pyval) :
  Json.loads (PyStr.strip line) = Some v ->
  truthy v = false ->
  (forall now s, process_line now line s = (Ret tt, s, [])) /\
  (forall w i rest s,
      read_lines w i (line :: rest) s = read_lines w (S i) rest s) /\
  (v = PNone \/ v = PBool false \/ v = PInt 0 \/
   (exists sign, v = PFloat (S754_zero sign)) \/
   v = PStr "" \/ v = PList [] \/ v = PDict []).
Proof.
  intros Hl Hv.
  assert (Hp : forall now s, process_line now line s = (Ret tt, s, [])).
  { intros now s. unfold process_line, parse_event. rewrite Hl, Hv.
    reflexivity. }
  split; [exact Hp|]. split.
  - intros w i rest s. simpl.
    exact (bind_skip _ (fun _ => read_lines w (S i) rest) tt s (Hp _ s)).
  - destruct v as [|[|]|n|x|t|l|d]; simpl in Hv; try discriminate; auto.
    + apply negb_false_iff, Z.eqb_eq in Hv. subst. auto.
    + destruct x; try discriminate. right. right. right. left. eauto.
    + apply negb_false_iff, String.eqb_eq in Hv. subst. auto 10.
    + destruct l; [auto 10|discriminate].
    + destruct d; [auto 10|discriminate].
Qed.

Lemma falsy_value_is_skipped_witness :
  Json.loads (PyStr.strip (Scenario.line "{}")) = Some (PDict []) /\
  truthy (PDict []) = false /\
  ((forall now s, process_line now (Scenario.line "{}") s = (Ret tt, s, [])) /\
   (forall w i rest s,
       read_lines w i (Scenario.line "{}" :: rest) s
       = read_lines w (S i) rest s) /\
   (PDict [] = PNone \/ PDict [] = PBool false \/ PDict [] = PInt 0 \/
    (exists sign, PDict [] = PFloat (S754_zero sign)) \/
    PDict [] = PStr "" \/ PDict [] = PList [] \/ PDict [] = PDict [])).
Proof.
  split; [vm_compute; reflexivity|]. split; [reflexivity|].
  apply (falsy_value_is_skipped (Scenario.line "{}") (PDict [])).
  - vm_compute. reflexivity.
  - reflexivity.
Defined.

(** *** Events of no known type, and fields that are not read *)

(** X3. An event object whose type is none of the six tags that
    [handle_event] compares with (the key is absent, its value is not a
    string, or it is another string) is ignored: the handler returns
    normally, prints nothing and leaves every attribute as it was. *)
Theorem unknown_event_is_ignored (now : float) (d : list (string * pyval))
        (s : parser) :
  unknown_type (PDict d) = true ->
  handle_event now (PDict d) s = (Ret tt, s, []).
Proof.
  unfold unknown_type, event_tags. simpl forallb.
  rewrite !has_type_dict, handle_event_dict. cbv zeta.
  intros H.
  repeat (apply andb_prop in H;
          let H0 := fresh "H" in
          destruct H as [H0 H]; apply negb_true_iff in H0; rewrite H0).
  reflexivity.
Qed.

Lemma unknown_event_is_ignored_witness :
  unknown_type (PDict [("type", PStr "heartbeat"); ("seq", PInt 7)]) = true /\
  unknown_type (PDict [("kind", PStr "error")]) = true /\
  unknown_type (PDict [("type", PInt 1)]) = true /\
  handle_event (of_Z 0) (PDict [("type", PStr "heartbeat"); ("seq", PInt 7)])
    init = (Ret tt, init, []).
Proof.
  split; [reflexivity|]. split; [reflexivity|]. split; [reflexivity|].
  apply (unknown_event_is_ignored (of_Z 0)
           [("type", PStr "heartbeat"); ("seq", PInt 7)] init).
  reflexivity.
Defined.

Lemma not_among_cons key k keys :
  not_among key (k :: keys) = true ->
  String.eqb key k = false /\ not_among key keys = true.
Proof.
  unfold not_among. simpl. intros H. apply andb_prop in H.
  destruct H as [H1 H2]. apply negb_true_iff in H1. auto.
Qed.

Ltac split_keys H :=
  repeat (apply not_among_cons in H;
          let K := fresh "K" in destruct H as [K H]).

Ltac unfold_handlers :=
  unfold on_conversion_started, on_chapter_started, on_chapter_progress,
    on_chapter_completed, on_conversion_completed, on_error, get_field;
  simpl get.

(** X4. Setting a key that [handle_event] never reads changes nothing
    in how an event is handled: result, attributes and output are the
    same with and without it.  For a chapter_progress event this also
    holds for chapter_number, current_time and total_duration, which the
    handler reads and never shows. *)
Theorem unread_fields_are_ignored (now : float) (d : list (string * pyval))
        (key : string) (v : pyval) (s : parser) :
  (not_among key known_fields = true ->
   handle_event now (PDict (dict_set d key v)) s
   = handle_event now (PDict d) s) /\
  (has_type (PDict d) "chapter_progress" = true ->
   In key unshown_progress_fields ->
   handle_event now (PDict (dict_set d key v)) s
   = handle_event now (PDict d) s).
Proof.
  split.
  - intros H. unfold known_fields in H. split_keys H.
    rewrite !handle_event_dict. cbv zeta. unfold_handlers.
    rewrite !dict_get_set_other by assumption. reflexivity.
  - intros Ht H. rewrite has_type_dict in Ht. apply eq_str_true in Ht.
    rewrite !handle_event_dict. cbv zeta.
    unfold unshown_progress_fields in H. simpl in H.
    destruct H as [<-|[<-|[<-|[]]]];
      (rewrite (dict_get_set_other d _ v "type") by reflexivity;
       rewrite Ht; simpl; unfold_handlers; rewrite !bind_lift_ret;
       rewrite !dict_get_set_other by reflexivity; reflexivity).
Qed.

Lemma unread_fields_are_ignored_witness :
  let d := [("type", PStr "chapter_progress");
            ("progress_percentage", PInt 10)] in
  not_among "worker" known_fields = true /\
  In "current_time" unshown_progress_fields /\
  handle_event (of_Z 0) (PDict (dict_set d "worker" (PInt 3))) init
  = handle_event (of_Z 0) (PDict d) init /\
  handle_event (of_Z 0) (PDict (dict_set d "current_time" (PStr "soon"))) init
  = handle_event (of_Z 0) (PDict d) init.
Proof.
  intros d. split; [reflexivity|]. split; [simpl; auto|]. split.
  - apply (proj1 (unread_fields_are_ignored (of_Z 0) d "worker" (PInt 3)
                    init)).
    reflexivity.
  - apply (proj2 (unread_fields_are_ignored (of_Z 0) d "current_time"
                    (PStr "soon") init)).
    + reflexivity.
    + simpl. auto.
Defined.

(** *** Which handler can fail *)

Lemma format_fixed_numeric (k : nat) (v : pyval) :
  numeric v = true -> exists t, format_fixed k v = Ret t.
Proof.
  destruct v; simpl; try discriminate; eauto.
  intros H. unfold float_of_int. rewrite H. eauto.
Qed.

Lemma format_fixed_error (k : nat) (v : pyval) :
  numeric v = false -> format_fixed k v = Raise (format_error v).
Proof.
  destruct v; simpl; try discriminate; try reflexivity.
  intros H. unfold float_of_int. now rewrite H.
Qed.

(** X5. For an event object of any type but chapter_progress, the only
    expression that can raise is the one number printed with a format
    specification: duration_seconds in chapter_started and
    chapter_completed, and total_duration_seconds in a conversion_completed
    event whose success is truthy.  The handler returns normally when
    that value is a bool, a float or an integer that fits a float, and
    otherwise raises [ValueError] for a string, [OverflowError] for an
    integer and [TypeError] for [None], an array or an object.
    conversion_started, error, a failed conversion_completed and events of
    unknown type never raise. *)
Theorem handler_failure_cases (now : float) (d : list (string * pyval))
        (s : parser) :
  has_type (PDict d) "chapter_progress" = false ->
  result (handle_event now (PDict d) s)
  = match formatted_field (PDict d) with
    | Some v => if numeric v then Ret tt else Raise (format_error v)
    | None => Ret tt
    end.
Proof.
  unfold formatted_field. rewrite !has_type_dict, handle_event_dict.
  cbv zeta. set (t := dict_get d "type" PNone). intros Hp. rewrite Hp.
  destruct (eq_str t "conversion_started") eqn:E1.
  { apply eq_str_true in E1. rewrite E1. reflexivity. }
  destruct (eq_str t "chapter_started") eqn:E2.
  { simpl orb. cbv iota.
    unfold on_chapter_started, get_field. simpl get. rewrite !bind_lift_ret.
    destruct (numeric (dict_get d "duration_seconds" (PInt 0))) eqn:Hn.
    - destruct (format_fixed_numeric 1 _ Hn) as [ds ->]. reflexivity.
    - rewrite (format_fixed_error 1 _ Hn). reflexivity. }
  destruct (eq_str t "chapter_completed") eqn:E4.
  { simpl orb. cbv iota.
    unfold on_chapter_completed, get_field. simpl get.
    rewrite !bind_lift_ret.
    destruct (numeric (dict_get d "duration_seconds" (PInt 0))) eqn:Hn.
    - destruct (format_fixed_numeric 1 _ Hn) as [ds ->]. reflexivity.
    - rewrite (format_fixed_error 1 _ Hn). reflexivity. }
  simpl orb. cbv iota.
  destruct (eq_str t "conversion_completed") eqn:E5.
  { simpl andb.
    unfold on_conversion_completed, get_field. simpl get.
    rewrite !bind_lift_ret.
    destruct (truthy (dict_get d "success" (PBool false))); [|reflexivity].
    destruct (numeric (dict_get d "total_duration_seconds" (PInt 0))) eqn:Hn.
    - destruct (format_fixed_numeric 1 _ Hn) as [ds ->]. reflexivity.
    - rewrite (format_fixed_error 1 _ Hn). reflexivity. }
  simpl andb. cbv iota.
  destruct (eq_str t "error") eqn:E6; [|reflexivity].
  unfold on_error, get_field. simpl get. rewrite !bind_lift_ret.
  destruct (truthy _); reflexivity.
Qed.

Lemma handler_failure_cases_witness :
  let ev tag v := PDict [("type", PStr tag); ("duration_seconds", v)] in
  has_type (ev "chapter_completed" PNone) "chapter_progress" = false /\
  formatted_field (ev "chapter_completed" PNone) = Some PNone /\
  result (handle_event (of_Z 0) (ev "chapter_completed" PNone) init)
  = match formatted_field (ev "chapter_completed" PNone) with
    | Some v => if numeric v then Ret tt else Raise (format_error v)
    | None => Ret tt
    end /\
  result (handle_event (of_Z 0) (ev "chapter_completed" PNone) init)
  = Raise TypeError /\
  result (handle_event (of_Z 0) (ev "chapter_started" (PStr "90")) init)
  = Raise ValueError /\
  result (handle_event (of_Z 0) (ev "chapter_started" (PInt (10 ^ 400))) init)
  = Raise OverflowError /\
  result (handle_event (of_Z 0) (ev "chapter_started" (PBool true)) init)
  = Ret tt /\
  result (handle_event (of_Z 0) (ev "error" (PStr "90")) init) = Ret tt.
Proof.
  intros ev.
  split; [reflexivity|]. split; [reflexivity|].
  split; [|vm_compute; repeat split; reflexivity].
  apply (handler_failure_cases (of_Z 0)
           [("type", PStr "chapter_completed"); ("duration_seconds", PNone)]
           init).
  reflexivity.
Defined.

(** X6. A chapter_progress event is displayed whole or not at all: its
    handler never changes an attribute; when it raises, it has printed
    nothing; and when it returns, it has printed one line of thirteen
    pieces that starts with a carriage return. *)
Theorem progress_event_is_atomic (now : float) (d : list (string * pyval))
        (s : parser) :
  has_type (PDict d) "chapter_progress" = true ->
  let r := handle_event now (PDict d) s in
  final r = s /\
  (forall e, result r = Raise e -> printed r = []) /\
  (result r = Ret tt ->
   hd_error (printed r) = Some (Text cr) /\
   List.length (printed r) = 13%nat).
Proof.
  intros Ht. rewrite (handle_chapter_progress _ _ _ Ht). cbv zeta.
  split; [apply on_chapter_progress_final|].
  unfold on_chapter_progress, get_field. simpl get.
  rewrite !bind_lift_ret.
  repeat (step; [|split; [reflexivity|discriminate]]).
  destruct (truthy _).
  - rewrite bind_assoc. step; [|split; [reflexivity|discriminate]].
    rewrite bind_ret.
    repeat (step; [|split; [reflexivity|discriminate]]).
    split; [discriminate|]. intros _. split; reflexivity.
  - rewrite bind_ret.
    repeat (step; [|split; [reflexivity|discriminate]]).
    split; [discriminate|]. intros _. split; reflexivity.
Qed.

Lemma progress_event_is_atomic_witness :
  let d := [("type", PStr "chapter_progress");
            ("progress_percentage", PInt 50); ("speed", PStr "fast")] in
  let r := handle_event (of_Z 0) (PDict d) init in
  has_type (PDict d) "chapter_progress" = true /\
  result r = Raise ValueError /\
  (final r = init /\
   (forall e, result r = Raise e -> printed r = []) /\
   (result r = Ret tt ->
    hd_error (printed r) = Some (Text cr) /\
    List.length (printed r) = 13%nat)).
Proof.
  intros d r. split; [reflexivity|]. split; [vm_compute; reflexivity|].
  apply (progress_event_is_atomic (of_Z 0) d init). reflexivity.
Defined.

(** *** The width of the bar *)

Lemma cells_bar (k m : Z) :
  cells (PyStr.repeat "█" k ++ PyStr.repeat "░" m) = Z.max 0 k + Z.max 0 m.
Proof.
  unfold cells. rewrite length_append, !length_repeat.
  change (String.length "█") with 3%nat.
  change (String.length "░") with 3%nat.
  replace (Z.of_nat (Z.to_nat k * 3 + Z.to_nat m * 3))
    with ((Z.max 0 k + Z.max 0 m) * 3) by lia.
  apply Z.div_mul. lia.
Qed.

(** X7. In the line rendered for a chapter_progress event, the bar has
    [max(0, k)] filled cells followed by [max(0, 40 - k)] empty ones,
    where [k] is [int(40 * p / 100)]: it is 40 cells wide exactly when
    [0 <= k <= 40], and wider otherwise (60 cells for a percentage of
    -50). *)
Theorem bar_width (now : float) (event p : pyval) (s s' : parser)
        (out : list piece) :
  has_type event "chapter_progress" = true ->
  get event "progress_percentage" (PInt 0) = Ret p ->
  handle_event now event s = (Ret tt, s', out) ->
  exists x k,
    bar_ratio p = Ret x /\ trunc x = Some k /\
    cells (bar_of out) = Z.max 0 k + Z.max 0 (bar_length - k) /\
    (cells (bar_of out) = bar_length <-> 0 <= k <= bar_length).
Proof.
  intros Ht Hp Hh.
  destruct (has_type_is_dict _ _ Ht) as [d ->].
  rewrite (handle_chapter_progress _ _ _ Ht) in Hh.
  simpl in Hp. injection Hp as <-.
  apply on_chapter_progress_ok in Hh.
  destruct Hh as (x & k & sz & et & pct & spd & kbps
                  & Hx & Hk & _ & _ & _ & _ & _ & _ & ->).
  exists x, k. split; [exact Hx|].
  split; [now apply int_of_float_trunc|].
  match goal with
  | |- context [bar_of ?o] =>
      change (bar_of o)
        with (PyStr.repeat "█" k ++ PyStr.repeat "░" (bar_length - k))
  end.
  rewrite cells_bar. split; [reflexivity|]. unfold bar_length. lia.
Qed.

Lemma bar_width_witness :
  let event :=
    PDict [("type", PStr "chapter_progress");
           ("progress_percentage", PInt (-50))] in
  let r := handle_event (of_Z 0) event init in
  result r = Ret tt /\
  cells (bar_of (printed r)) = 60 /\
  exists x k,
    bar_ratio (PInt (-50)) = Ret x /\ trunc x = Some k /\
    cells (bar_of (printed r)) = Z.max 0 k + Z.max 0 (bar_length - k) /\
    (cells (bar_of (printed r)) = bar_length <-> 0 <= k <= bar_length).
Proof.
  intros event r. split; [vm_compute; reflexivity|].
  split; [vm_compute; reflexivity|].
  apply (bar_width (of_Z 0) event (PInt (-50)) init (final r) (printed r)).
  - reflexivity.
  - reflexivity.
  - vm_compute. reflexivity.
Defined.

(** *** Durations given as integers *)

(** An integer below [2^53] is printed with one decimal as itself
    followed by [.0]. *)
Lemma format_f_of_Z (n : Z) :
  0 < n < 2 ^ 53 -> format_f 1 (of_Z n) = digits_of_Z n ++ ".0".
Proof.
  intros Hn. destruct (of_Z_exact n Hn) as (M & e & Hof & _ & He & HM).
  rewrite Hof. unfold format_f. cbn [append].
  change (10 ^ Z.of_nat 1) with 10.
  assert (Hv : match e with
               | Z.neg k => round_half_even (Z.pos M * 10) (2 ^ Z.pos k)
               | _ => Z.pos M * 2 ^ e * 10
               end = n * 10).
  { destruct e as [|q|q]; try lia.
    rewrite HM. change (- Z.neg q) with (Z.pos q).
    replace (round_half_even (n * 2 ^ Z.pos q * 10) (2 ^ Z.pos q))
        with (round_half_even (n * 10 * 2 ^ Z.pos q) (1 * 2 ^ Z.pos q))
        by (f_equal; lia).
      rewrite round_half_even_scale by (try apply Z.pow_pos_nonneg; lia).
      unfold round_half_even. rewrite Z.div_1_r, Z.mod_1_r. reflexivity. }
  rewrite Hv. unfold fixed_digits. change (10 ^ Z.of_nat 1) with 10.
  rewrite Z.div_mul, Z.mod_mul by lia. reflexivity.
Qed.




(** *** The end of a conversion, and errors *)

(** X9. A conversion_completed event stores the value of its success
    field (False when absent) in conversion_success as it is.  When that
    value is falsy the handler prints the failure message alone and
    returns normally, without looking at total_duration_seconds; when it
    is truthy the output starts with the success message. *)
Theorem completion_follows_success_flag (now : float)
        (d : list (string * pyval)) (s : parser) :
  has_type (PDict d) "conversion_completed" = true ->
  let success := dict_get d "success" (PBool false) in
  let r := handle_event now (PDict d) s in
  conversion_success (final r) = success /\
  (truthy success = false ->
   result r = Ret tt /\
   printed r = [Text nl; Text "❌ Conversion failed!"; Text nl]) /\
  (truthy success = true ->
   firstn 3 (printed r)
   = [Text nl; Text "🎉 Conversion completed successfully!"; Text nl]).
Proof.
  intros Ht. rewrite has_type_dict in Ht. apply eq_str_true in Ht.
  cbv zeta. rewrite handle_event_dict. cbv zeta. rewrite Ht. simpl.
  split; [now rewrite on_conversion_completed_final|].
  unfold on_conversion_completed, get_field. simpl get.
  rewrite !bind_lift_ret.
  destruct (truthy (dict_get d "success" (PBool false))).
  - split; [discriminate|]. intros _.
    destruct (format_fixed 1 (dict_get d "total_duration_seconds" (PInt 0)));
      reflexivity.
  - split; [|discriminate]. intros _. split; reflexivity.
Qed.

Lemma completion_follows_success_flag_witness :
  let d := [("type", PStr "conversion_completed");
            ("total_duration_seconds", PStr "n/a")] in
  let r := handle_event (of_Z 0) (PDict d) init in
  has_type (PDict d) "conversion_completed" = true /\
  dict_get d "success" (PBool false) = PBool false /\
  (conversion_success (final r) = dict_get d "success" (PBool false) /\
   (truthy (dict_get d "success" (PBool false)) = false ->
    result r = Ret tt /\
    printed r = [Text nl; Text "❌ Conversion failed!"; Text nl]) /\
   (truthy (dict_get d "success" (PBool false)) = true ->
    firstn 3 (printed r)
    = [Text nl; Text "🎉 Conversion completed successfully!"; Text nl])).
Proof.
  intros d r. split; [reflexivity|]. split; [reflexivity|].
  apply (completion_follows_success_flag (of_Z 0) d init). reflexivity.
Defined.



(** *** The state as a function of the events *)

Lemma handle_event_final now event s :
  final (handle_event now event s) = next_state now event s.
Proof.
  destruct (is_dict event) eqn:Hd.
  - destruct event as [| | | | | |d]; try discriminate. clear Hd.
    unfold next_state. rewrite handle_event_dict, !has_type_dict.
    simpl get. cbv zeta. set (t := dict_get d "type" PNone).
    destruct (eq_str t "conversion_started") eqn:E1.
    { now rewrite on_conversion_started_dict. }
    destruct (eq_str t "chapter_started") eqn:E2.
    { apply on_chapter_started_final. }
    destruct (eq_str t "chapter_progress") eqn:E3.
    { rewrite on_chapter_progress_final.
      apply eq_str_true in E3. rewrite E3. reflexivity. }
    destruct (eq_str t "chapter_completed") eqn:E4.
    { rewrite on_chapter_completed_final.
      apply eq_str_true in E4. rewrite E4. reflexivity. }
    destruct (eq_str t "conversion_completed") eqn:E5.
    { apply on_conversion_completed_final. }
    destruct (eq_str t "error") eqn:E6; [apply on_error_final|reflexivity].
  - rewrite handle_event_not_dict by assumption.
    destruct event; try discriminate; reflexivity.
Qed.

Lemma next_state_falsy now event s :
  truthy event = false -> next_state now event s = s.
Proof.
  destruct event as [| | | | | |d]; try reflexivity.
  destruct d; [reflexivity|discriminate].
Qed.

Lemma process_line_final now line s :
  final (process_line now line s) = next_state now (parse_event line) s.
Proof.
  unfold process_line. destruct (truthy (parse_event line)) eqn:Ht.
  - apply handle_event_final.
  - now rewrite next_state_falsy.
Qed.




(** *** What the display reads of the state *)

Lemma handle_event_reads_total now event s1 s2 :
  total_chapters s1 = total_chapters s2 ->
  result (handle_event now event s1) = result (handle_event now event s2) /\
  printed (handle_event now event s1) = printed (handle_event now event s2).
Proof.
  intros Heq. destruct (is_dict event) eqn:Hd.
  - destruct event as [| | | | | |d]; try discriminate. clear Hd.
    rewrite !handle_event_dict. cbv zeta.
    set (t := dict_get d "type" PNone).
    destruct (eq_str t "conversion_started").
    { rewrite !on_conversion_started_dict. split; reflexivity. }
    destruct (eq_str t "chapter_started").
    { unfold on_chapter_started, get_field. simpl get.
      rewrite !bind_lift_ret.
      destruct (format_fixed 1 (dict_get d "duration_seconds" (PInt 0)));
        unfold result, printed; simpl; rewrite Heq; split; reflexivity. }
    destruct (eq_str t "chapter_progress").
    { unfold on_chapter_progress, get_field. simpl get.
      rewrite !bind_lift_ret.
      repeat (step_all; [|split; reflexivity]).
      destruct (truthy _).
      - rewrite !bind_assoc. step_all; [|split; reflexivity].
        rewrite !bind_ret.
        repeat (step_all; [|split; reflexivity]). split; reflexivity.
      - rewrite !bind_ret.
        repeat (step_all; [|split; reflexivity]). split; reflexivity. }
    destruct (eq_str t "chapter_completed").
    { unfold on_chapter_completed, get_field. simpl get.
      rewrite !bind_lift_ret.
      destruct (format_fixed 1 (dict_get d "duration_seconds" (PInt 0)));
        split; reflexivity. }
    destruct (eq_str t "conversion_completed").
    { unfold on_conversion_completed, get_field. simpl get.
      rewrite !bind_lift_ret.
      destruct (truthy _); [|split; reflexivity].
      destruct (format_fixed 1 _); split; reflexivity. }
    destruct (eq_str t "error"); [|split; reflexivity].
    unfold on_error, get_field. simpl get. rewrite !bind_lift_ret.
    destruct (truthy _); split; reflexivity.
  - rewrite !handle_event_not_dict by assumption. split; reflexivity.
Qed.

Lemma next_state_total now event s1 s2 :
  total_chapters s1 = total_chapters s2 ->
  total_chapters (next_state now event s1)
  = total_chapters (next_state now event s2).
Proof.
  intros Heq. unfold next_state.
  repeat match goal with
         | |- context [if ?b then _ else _] => destruct b
         | |- context [match ?r with Ret _ => _ | Raise _ => _ end] =>
             destruct r
         end; simpl; auto.
Qed.

Lemma process_line_reads_total now line s1 s2 :
  total_chapters s1 = total_chapters s2 ->
  result (process_line now line s1) = result (process_line now line s2) /\
  printed (process_line now line s1) = printed (process_line now line s2).
Proof.
  intros Heq. unfold process_line.
  destruct (truthy (parse_event line)); [|split; reflexivity].
  now apply handle_event_reads_total.
Qed.

Lemma read_lines_reads_total w lines : forall i s1 s2,
  total_chapters s1 = total_chapters s2 ->
  result (read_lines w i lines s1) = result (read_lines w i lines s2) /\
  printed (read_lines w i lines s1) = printed (read_lines w i lines s2).
Proof.
  induction lines as [|l lines IH]; intros i s1 s2 Heq; [split; reflexivity|].
  simpl. unfold bind.
  pose proof (process_line_reads_total (clock w i) l s1 s2 Heq) as [Hr Ho].
  pose proof (process_line_final (clock w i) l s1) as Hf1.
  pose proof (process_line_final (clock w i) l s2) as Hf2.
  destruct (process_line (clock w i) l s1) as [[r1 t1] o1].
  destruct (process_line (clock w i) l s2) as [[r2 t2] o2].
  unfold result, printed, final in Hr, Ho, Hf1, Hf2. simpl in Hr, Ho, Hf1, Hf2.
  subst r2 o2 t1 t2.
  destruct r1 as [[]|e]; [|split; reflexivity].
  destruct (IH (S i) _ _
              (next_state_total (clock w i) (parse_event l) s1 s2 Heq))
    as [Hr' Ho'].
  destruct (read_lines w (S i) lines
              (next_state (clock w i) (parse_event l) s1)) as [[r1 t1] p1].
  destruct (read_lines w (S i) lines
              (next_state (clock w i) (parse_event l) s2)) as [[r2 t2] p2].
  unfold result, printed in *. simpl in *. subst. split; reflexivity.
Qed.

(** X12. The display reads a single attribute, total_chapters.  From two
    states that agree on it, every event is handled with the same result
    and the same output, and a whole run returns the same code and prints
    the same; current_chapter, start_time and conversion_success are
    written and never read. *)
Theorem display_reads_only_total_chapters (w : world) (args : list string)
        (s1 s2 : parser) :
  total_chapters s1 = total_chapters s2 ->
  (forall now event,
      result (handle_event now event s1) = result (handle_event now event s2) /\
      printed (handle_event now event s1)
      = printed (handle_event now event s2)) /\
  result (run_conversion w args s1) = result (run_conversion w args s2) /\
  printed (run_conversion w args s1) = printed (run_conversion w args s2).
Proof.
  intros Heq. split.
  - intros now event. now apply handle_event_reads_total.
  - destruct (popen w (args ++ [machine_readable])%list) as [proc|e] eqn:Hp.
    + rewrite !(run_conversion_spawned _ _ _ _ Hp).
      destruct (read_lines_reads_total w (stdout proc) 0 s1 s2 Heq)
        as [Hr Ho].
      destruct (read_lines w 0 (stdout proc) s1) as [[r1 t1] o1].
      destruct (read_lines w 0 (stdout proc) s2) as [[r2 t2] o2].
      unfold result, printed in Hr, Ho. simpl in Hr, Ho. subst r2 o2.
      destruct r1 as [[]|e]; split; reflexivity.
    + rewrite !(run_conversion_spawn_failed _ _ _ _ Hp). split; reflexivity.
Qed.

Lemma display_reads_only_total_chapters_witness :
  let lines :=
    map Scenario.line
      ["{'type': 'chapter_started', 'chapter_number': 1}";
       "{'type': 'chapter_progress', 'progress_percentage': 10}"] in
  let w := Scenario.spawning (Scenario.child lines 0) in
  let s1 := init in
  let s2 := {| current_chapter := PInt 8; total_chapters := PInt 0;
               start_time := PFloat (of_Z 5);
               conversion_success := PBool true |} in
  total_chapters s1 = total_chapters s2 /\
  ((forall now event,
       result (handle_event now event s1) = result (handle_event now event s2) /\
       printed (handle_event now event s1)
       = printed (handle_event now event s2)) /\
   result (run_conversion w ["-a"; "book.aaxc"] s1)
   = result (run_conversion w ["-a"; "book.aaxc"] s2) /\
   printed (run_conversion w ["-a"; "book.aaxc"] s1)
   = printed (run_conversion w ["-a"; "book.aaxc"] s2)).
Proof.
  intros lines w s1 s2. split; [reflexivity|].
  apply (display_reads_only_total_chapters w ["-a"; "book.aaxc"] s1 s2).
  reflexivity.
Defined.

(** *** Events delivered twice *)

Lemma next_state_twice now event s :
  next_state now event (next_state now event s) = next_state now event s.
Proof.
  unfold next_state.
  repeat match goal with
         | |- context [if ?b then _ else _] => destruct b
         | |- context [match ?r with Ret _ => _ | Raise _ => _ end] =>
             destruct r
         end; reflexivity.
Qed.

(** X13. Events are absolute, not incremental: handling the same event
    a second time, at the same clock reading, leaves the attributes as
    the first handling left them, ends the same way and prints the same
    again. *)
Theorem repeated_event_changes_nothing (now : float) (event : pyval)
        (s : parser) :
  let s' := final (handle_event now event s) in
  final (handle_event now event s') = s' /\
  result (handle_event now event s') = result (handle_event now event s) /\
  printed (handle_event now event s') = printed (handle_event now event s).
Proof.
  cbv zeta. rewrite !handle_event_final. split; [apply next_state_twice|].
  destruct (has_type event "conversion_started") eqn:Hc.
  - destruct (has_type_is_dict _ _ Hc) as [d ->].
    rewrite has_type_dict in Hc. apply eq_str_true in Hc.
    rewrite !handle_event_dict. cbv zeta. rewrite Hc. simpl.
    rewrite !on_conversion_started_dict. split; reflexivity.
  - apply handle_event_reads_total. unfold next_state. rewrite Hc.
    repeat match goal with
           | |- context [if ?b then _ else _] => destruct b
           | |- context [match ?r with Ret _ => _ | Raise _ => _ end] =>
               destruct r
           end; reflexivity.
Qed.

(** *** File sizes that are not non-negative integers *)



Lemma of_Z_neg (p : positive) : of_Z (Z.neg p) = SFopp (of_Z (Z.pos p)).
Proof.
  unfold of_Z, binary_normalize, binary_round.
  destruct (shl_align p 0 _) as [mz ez]. unfold binary_round_aux.
  destruct (shr_fexp prec emax (Z.pos mz) ez loc_Exact) as [mrs e'].
  destruct (shr_fexp prec emax _ e' loc_Exact) as [mrs' e''].
  destruct (shr_m mrs'); try reflexivity.
  destruct (e'' <=? emax - prec); reflexivity.
Qed.

Lemma of_Z_neg_below (p : positive) :
  geb (of_Z (Z.neg p)) (of_Z 1024) = false.
Proof.
  unfold of_Z at 1. unfold binary_normalize, binary_round.
  destruct (shl_align p 0 _) as [mz ez]. unfold binary_round_aux.
  destruct (shr_fexp prec emax (Z.pos mz) ez loc_Exact) as [mrs e'].
  destruct (shr_fexp prec emax _ e' loc_Exact) as [mrs' e''].
  destruct (shr_m mrs'); try reflexivity.
  destruct (e'' <=? emax - prec); reflexivity.
Qed.

Lemma geb_negative (x : float) :
  negative x = true -> geb x (of_Z 1024) = false.
Proof. destruct x as [| [|] | | [|] m e]; try discriminate; reflexivity. Qed.

Lemma scale_negative (x : float) :
  negative x = true -> scale x 0 = (x, 0%nat).
Proof. intros H. rewrite scale_unfold, (geb_negative x H). reflexivity. Qed.

(** X15. A negative size is never scaled: it is printed in bytes whatever
    its magnitude.  A negative integer gives its float with one decimal
    and the unit B (or [OverflowError] when it does not fit a float); above
    [-2^53] the text is the minus sign, the digits of the integer, [.0]
    and the unit B; a negative float gives the same form. *)
Theorem negative_size_is_not_scaled (n : Z) :
  n < 0 ->
  format_file_size (PInt n)
  = match float_of_int n with
    | Ret x => Ret (format_f 1 x ++ " B")
    | Raise e => Raise e
    end /\
  (- 2 ^ 53 < n ->
   format_file_size (PInt n) = Ret ("-" ++ digits_of_Z (- n) ++ ".0 B")) /\
  (forall x, negative x = true ->
             format_file_size (PFloat x) = Ret (format_f 1 x ++ " B")).
Proof.
  intros Hn. destruct n as [|p|p]; try lia.
  assert (Hs : scale (of_Z (Z.neg p)) 0 = (of_Z (Z.neg p), 0%nat)).
  { rewrite scale_unfold, of_Z_neg_below. reflexivity. }
  assert (H1 : format_file_size (PInt (Z.neg p))
               = match float_of_int (Z.neg p) with
                 | Ret x => Ret (format_f 1 x ++ " B")
                 | Raise e => Raise e
                 end).
  { unfold format_file_size. simpl eq_zero. simpl to_float.
    unfold float_of_int. destruct (is_finite (of_Z (Z.neg p))); [|reflexivity].
    rewrite Hs. reflexivity. }
  split; [exact H1|]. split.
  - intros Hlow. rewrite H1. unfold float_of_int. rewrite of_Z_neg.
    change (- Z.neg p) with (Z.pos p).
    assert (Hp : 0 < Z.pos p < 2 ^ 53) by lia.
    pose proof (format_f_of_Z _ Hp) as Hf.
    destruct (of_Z_exact _ Hp) as (M & e & Hof & _).
    rewrite Hof in *. simpl SFopp. simpl is_finite.
    unfold format_f in *. cbn [append] in *.
    rewrite Hf, append_assoc. reflexivity.
  - intros x Hx. unfold format_file_size.
    assert (Hz : eq_zero (PFloat x) = false)
      by (destruct x as [| [|] | | [|] m e]; try discriminate; reflexivity).
    rewrite Hz. simpl to_float. cbv iota beta.
    rewrite (scale_negative x Hx). reflexivity.
Qed.

Lemma negative_size_is_not_scaled_witness :
  -5242880 < 0 /\
  format_file_size (PInt (-5242880)) = Ret "-5242880.0 B" /\
  (format_file_size (PInt (-5242880))
   = match float_of_int (-5242880) with
     | Ret x => Ret (format_f 1 x ++ " B")
     | Raise e => Raise e
     end /\
   (- 2 ^ 53 < -5242880 ->
    format_file_size (PInt (-5242880))
    = Ret ("-" ++ digits_of_Z (- -5242880) ++ ".0 B")) /\
   (forall x, negative x = true ->
              format_file_size (PFloat x) = Ret (format_f 1 x ++ " B"))).
Proof.
  split; [lia|]. split; [vm_compute; reflexivity|].
  apply (negative_size_is_not_scaled (-5242880)). lia.
Defined.

(** *** Every run returns *)


(** X17. An exception raised while a line is handled, whatever it is,
    ends the run: the lines after it are not read, the child's exit status
    and standard error are not looked at, and [run_conversion] returns 1
    after printing the error message.  What was printed before the
    exception stays printed, and the attributes stay as the failing
    handler left them (a chapter_started event has set current_chapter
    before its duration fails to format). *)
Theorem handler_exception_aborts_run (w : world) (args : list string)
        (proc : process) (before after : list string) (line : string)
        (s s1 s2 : parser) (o1 o2 : list piece) (e : exn) :
  popen w (args ++ [machine_readable])%list = Ret proc ->
  stdout proc = (before ++ line :: after)%list ->
  read_lines w 0 before s = (Ret tt, s1, o1) ->
  process_line (clock w (List.length before)) line s1 = (Raise e, s2, o2) ->
  run_conversion w args s
  = (Ret 1, s2, banner ++ (o1 ++ o2) ++ abort_message e)%list.
Proof.
  intros Hp Hout Hb Hl.
  rewrite (run_conversion_spawned _ _ _ _ Hp), Hout, read_lines_app.
  unfold bind at 1. rewrite Hb. simpl read_lines.
  unfold bind at 1. rewrite Hl. reflexivity.
Qed.

Lemma handler_exception_aborts_run_witness :
  let started :=
    Scenario.line "{'type': 'conversion_started', 'total_chapters': 9}" in
  let bad :=
    Scenario.line "{'type': 'chapter_started', 'chapter_number': 3, 'duration_seconds': 'long'}" in
  let done :=
    Scenario.line "{'type': 'conversion_completed', 'success': true}" in
  let proc := Scenario.child [started; bad; done] 0 in
  let w := Scenario.spawning proc in
  let r1 := read_lines w 0 [started] init in
  let r2 := process_line (clock w 1) bad (final r1) in
  result r1 = Ret tt /\
  result r2 = Raise ValueError /\
  current_chapter (final r2) = PInt 3 /\
  run_conversion w ["-a"; "book.aaxc"] init
  = (Ret 1, final r2,
     banner ++ (printed r1 ++ printed r2) ++ abort_message ValueError)%list.
Proof.
  intros started bad done proc w r1 r2.
  split; [vm_compute; reflexivity|].
  split; [vm_compute; reflexivity|].
  split; [vm_compute; reflexivity|].
  apply (handler_exception_aborts_run w ["-a"; "book.aaxc"] proc
           [started] [done] bad init (final r1) (final r2)
           (printed r1) (printed r2) ValueError).
  - reflexivity.
  - reflexivity.
  - vm_compute. reflexivity.
  - vm_compute. reflexivity.
Defined.

(** *** The child's standard error *)

(** X18. The standard error of a child that exits with status 0 is never
    shown: two children with the same output and the exit status 0 give
    the same run of [run_conversion] (result, attributes and output) and
    of [simple_json_parser.py], whatever they wrote to standard error. *)
Theorem stderr_is_not_shown_on_success (w w' : world) (args : list string)
        (proc proc' : process) (s : parser) :
  popen w (args ++ [machine_readable])%list = Ret proc ->
  popen w' (args ++ [machine_readable])%list = Ret proc' ->
  (forall i, clock w' i = clock w i) ->
  stdout proc' = stdout proc ->
  returncode proc' = returncode proc ->
  returncode proc = 0 ->
  run_conversion w' args s = run_conversion w args s /\
  SimpleJsonParser.supervise w' args tt = SimpleJsonParser.supervise w args tt.
Proof.
  intros Hp Hp' Hc Ho Hr H0. split.
  - rewrite (run_conversion_spawned _ _ _ _ Hp),
      (run_conversion_spawned _ _ _ _ Hp'), Ho.
    rewrite (read_lines_ext w w') by assumption.
    unfold exit_report. rewrite Hr, H0. reflexivity.
  - unfold SimpleJsonParser.supervise, try_except.
    rewrite Hp, Hp', !bind_lift_ret, Ho, Hr, H0. reflexivity.
Qed.

Lemma stderr_is_not_shown_on_success_witness :
  let lines := [Scenario.line "{'type': 'error', 'message': 'retrying'}"] in
  let quiet := {| stdout := lines; stderr := ""; returncode := 0 |} in
  let noisy := {| stdout := lines; stderr := "warning: slow disk";
                  returncode := 0 |} in
  let args := ["-a"; "book.aaxc"] in
  run_conversion (Scenario.spawning noisy) args init
  = run_conversion (Scenario.spawning quiet) args init /\
  SimpleJsonParser.supervise (Scenario.spawning noisy) args tt
  = SimpleJsonParser.supervise (Scenario.spawning quiet) args tt.
Proof.
  intros lines quiet noisy args.
  apply (stderr_is_not_shown_on_success
           (Scenario.spawning quiet) (Scenario.spawning noisy) args
           quiet noisy init); reflexivity.
Defined.

(** *** The two programs *)





(** *** Rounding, wherever it starts *)

Lemma fexp_eq e : fexp prec emax e = Z.max (e - 53) (-1074).
Proof. reflexivity. Qed.

Lemma Zdigits2_bounds M :
  0 < M -> 2 ^ (Zdigits2 M - 1) <= M < 2 ^ Zdigits2 M.
Proof. destruct M as [|p|p]; try lia. intros _. apply digits_bounds. Qed.

Lemma Zdigits2_nonneg M : 0 <= M -> 0 <= Zdigits2 M.
Proof. destruct M; simpl; lia. Qed.

Lemma Zdigits2_le M k : 0 <= M < 2 ^ k -> 0 <= k -> Zdigits2 M <= k.
Proof.
  intros [H0 H1] Hk. destruct (Z.eq_dec M 0) as [->|Hn]; [simpl; lia|].
  pose proof (Zdigits2_bounds M ltac:(lia)) as [Hl _].
  destruct (Z.le_gt_cases (Zdigits2 M) k) as [|Hgt]; [assumption|].
  assert (2 ^ k <= 2 ^ (Zdigits2 M - 1)) by (apply Z.pow_le_mono_r; lia).
  lia.
Qed.

Lemma shr_m_iter p : forall mrs,
  0 <= shr_m mrs ->
  shr_m (iter_pos shr_1 p mrs) = shr_m mrs / 2 ^ Z.pos p.
Proof.
  assert (H1 : forall mrs, 0 <= shr_m mrs ->
                 shr_m (shr_1 mrs) = shr_m mrs / 2 /\ 0 <= shr_m (shr_1 mrs)).
  { intros mrs H. destruct (shr_1_spec mrs H) as [-> _]. split; [reflexivity|].
    apply Z.div_pos; lia. }
  assert (Hpos : forall p mrs, 0 <= shr_m mrs ->
                   0 <= shr_m mrs / 2 ^ Z.pos p)
    by (intros; apply Z.div_pos; [assumption|apply Z.pow_pos_nonneg; lia]).
  induction p as [p IH|p IH|]; intros mrs H; cbn [iter_pos].
  - destruct (H1 mrs H) as [E1 P1].
    rewrite IH by (rewrite IH by assumption; apply Hpos; assumption).
    rewrite IH by assumption. rewrite E1.
    rewrite !Z.div_div by (try apply Z.pow_pos_nonneg; lia).
    f_equal. rewrite Pos2Z.inj_xI.
    replace (2 * Z.pos p + 1) with (1 + Z.pos p + Z.pos p) by lia.
    rewrite !Z.pow_add_r by lia. change (2 ^ 1) with 2. ring.
  - rewrite IH by (rewrite IH by assumption; apply Hpos; assumption).
    rewrite IH by assumption.
    rewrite !Z.div_div by (try apply Z.pow_pos_nonneg; lia).
    f_equal. rewrite <- Z.pow_add_r by lia. f_equal. lia.
  - destruct (H1 mrs H) as [E1 _]. exact E1.
Qed.

Lemma shr_m_of_loc M l : shr_m (shr_record_of_loc M l) = M.
Proof. destruct l as [|[]]; reflexivity. Qed.

(** The first shift of [binary_round_aux]. *)
Lemma shr_first (M e : Z) (l : location) :
  0 <= M ->
  let e1 := Z.max e (fexp prec emax (Zdigits2 M + e)) in
  exists mrs,
    shr_fexp prec emax M e l = (mrs, e1) /\
    shr_m mrs = M / 2 ^ (e1 - e) /\
    (l = loc_Exact -> M mod 2 ^ (e1 - e) = 0 -> shr_r mrs = false).
Proof.
  intros HM e1. unfold shr_fexp, shr.
  set (f := fexp prec emax (Zdigits2 M + e)) in *.
  destruct (f - e) as [|p|p] eqn:Hn.
  - exists (shr_record_of_loc M l). replace e1 with e by lia.
    rewrite Z.sub_diag, Z.div_1_r, shr_m_of_loc.
    repeat split. intros -> _. reflexivity.
  - exists (iter_pos shr_1 p (shr_record_of_loc M l)).
    replace e1 with (e + Z.pos p) by lia.
    replace (e + Z.pos p - e) with (Z.pos p) by lia.
    rewrite shr_m_iter, shr_m_of_loc by (rewrite shr_m_of_loc; assumption).
    repeat split. intros -> Hmod.
    pose proof (shifted_iter p M 0 _ HM ltac:(lia) (shifted_start M HM))
      as [_ Hr].
    rewrite Z.add_0_l in Hr.
    destruct (shr_r _); [|reflexivity].
    destruct (Hr eq_refl) as [_ Hrem].
    assert (0 < 2 ^ (Z.pos p - 1)) by (apply Z.pow_pos_nonneg; lia). lia.
  - exists (shr_record_of_loc M l). replace e1 with e by lia.
    rewrite Z.sub_diag, Z.div_1_r, shr_m_of_loc.
    repeat split. intros -> _. reflexivity.
Qed.

(** The second shift, after rounding: one bit when the rounding carried. *)
Lemma shr_second (s : bool) (m2 e1 : Z) :
  0 <= m2 <= 2 ^ 53 -> -1074 <= e1 ->
  exists m3 e3,
    ((m3 = m2 /\ e3 = e1 /\ m2 < 2 ^ 53) \/
     (m2 = 2 ^ 53 /\ m3 = 2 ^ 52 /\ e3 = e1 + 1)) /\
    (let '(mrs, e') := shr_fexp prec emax m2 e1 loc_Exact in
     match shr_m mrs with
     | Z0 => S754_zero s
     | Zpos m => if e' <=? emax - prec then S754_finite s m e'
                 else S754_infinity s
     | Zneg _ => S754_nan
     end) = rounded s m3 e3.
Proof.
  intros [H0 H1] He.
  destruct (Z.eq_dec m2 (2 ^ 53)) as [->|Hne].
  - exists (2 ^ 52), (e1 + 1). split; [right; auto|].
    unfold shr_fexp. change (Zdigits2 (2 ^ 53)) with 54.
    rewrite fexp_eq. replace (Z.max (54 + e1 - 53) (-1074) - e1) with 1 by lia.
    reflexivity.
  - exists m2, e1. split; [left; repeat split; lia|].
    unfold shr_fexp, shr.
    assert (Hd : Zdigits2 m2 <= 53) by (apply Zdigits2_le; lia).
    pose proof (Zdigits2_nonneg m2 H0).
    rewrite fexp_eq.
    destruct (Z.max (Zdigits2 m2 + e1 - 53) (-1074) - e1) as [|p|p] eqn:Hn;
      try lia; reflexivity.
Qed.

Lemma round_aux_shape (s : bool) (M e : Z) (l : location) :
  0 <= M ->
  let e1 := Z.max e (fexp prec emax (Zdigits2 M + e)) in
  let m1 := M / 2 ^ (e1 - e) in
  exists m2 m3 e3,
    m1 <= m2 <= m1 + 1 /\
    (l = loc_Exact -> M mod 2 ^ (e1 - e) = 0 -> m2 = m1) /\
    ((m3 = m2 /\ e3 = e1 /\ m2 < 2 ^ 53) \/
     (m2 = 2 ^ 53 /\ m3 = 2 ^ 52 /\ e3 = e1 + 1)) /\
    binary_round_aux prec emax s M e l = rounded s m3 e3.
Proof.
  intros HM e1 m1.
  destruct (shr_first M e l HM) as (mrs & Hs & Hm & Hr). fold e1 in Hs, Hm, Hr.
  fold m1 in Hm.
  assert (He1 : -1074 <= e1) by (unfold e1; rewrite fexp_eq; lia).
  assert (Hn : 0 <= e1 - e) by (unfold e1; lia).
  assert (Hp : 0 < 2 ^ (e1 - e)) by (apply Z.pow_pos_nonneg; lia).
  assert (Hm1 : 0 <= m1 < 2 ^ 53).
  { split; [apply Z.div_pos; lia|].
    apply Z.div_lt_upper_bound; [lia|].
    destruct (Z.eq_dec M 0) as [->|HM0]; [lia|].
    pose proof (Zdigits2_bounds M ltac:(lia)) as [_ Hu].
    assert (Hd : Zdigits2 M <= 53 + (e1 - e))
      by (unfold e1; rewrite fexp_eq; lia).
    rewrite Z.mul_comm, <- Z.pow_add_r by lia.
    assert (2 ^ Zdigits2 M <= 2 ^ (53 + (e1 - e)))
      by (apply Z.pow_le_mono_r; lia).
    lia. }
  pose proof (rne_bounds (shr_m mrs) mrs) as [Hb Hdown].
  cbv zeta in Hb, Hdown.
  set (m2 := round_nearest_even (shr_m mrs) (loc_of_shr_record mrs)) in *.
  rewrite Hm in Hb.
  destruct (shr_second s m2 e1 ltac:(lia) He1) as (m3 & e3 & Hc & Hres).
  exists m2, m3, e3. split; [exact Hb|]. split.
  { intros Hl Hmod. rewrite <- Hm. apply Hdown. now apply Hr. }
  split; [exact Hc|].
  unfold binary_round_aux. rewrite Hs. fold m2. exact Hres.
Qed.

Lemma rounded_finite (s : bool) (m e : Z) :
  0 <= m -> e <= 971 -> is_finite (rounded s m e) = true.
Proof.
  intros Hm He. destruct m as [|p|p]; try lia; [reflexivity|].
  unfold rounded. replace (e <=? emax - prec) with true; [reflexivity|].
  symmetry. apply Z.leb_le. unfold emax, prec. lia.
Qed.

(** A number whose exponent stays clear of the largest one rounds to a
    finite float, wherever the rounding starts. *)
Lemma round_aux_finite_gen (s : bool) (M e : Z) (l : location) :
  0 <= M -> e <= 970 -> Zdigits2 M + e <= 1023 ->
  is_finite (binary_round_aux prec emax s M e l) = true.
Proof.
  intros HM He Hd.
  destruct (round_aux_shape s M e l HM) as (m2 & m3 & e3 & Hb & _ & Hc & ->).
  assert (Hp : 0 < 2 ^ (Z.max e (fexp prec emax (Zdigits2 M + e)) - e))
    by (apply Z.pow_pos_nonneg; lia).
  assert (0 <= M / 2 ^ (Z.max e (fexp prec emax (Zdigits2 M + e)) - e))
    by (apply Z.div_pos; lia).
  rewrite fexp_eq in *.
  apply rounded_finite; destruct Hc as [(-> & -> & _)|(_ & -> & ->)]; lia.
Qed.

(** A number that is at most [B] rounds to a float that is at most [B],
    when [B] is an integer and the result has no integer bits to spare. *)
Lemma round_aux_upper (s : bool) (M e : Z) (l : location) (B : Z) :
  0 <= M -> 0 <= B ->
  Z.max e (Zdigits2 M + e - 53) <= -1 ->
  M < B * 2 ^ (- e) \/ (M <= B * 2 ^ (- e) /\ l = loc_Exact) ->
  exists m3 e3,
    binary_round_aux prec emax s M e l = rounded s m3 e3 /\
    0 <= m3 < 2 ^ 53 /\
    e3 <= Z.max e (Z.max (Zdigits2 M + e - 53) (-1074)) + 1 /\
    e3 <= 0 /\ m3 <= B * 2 ^ (- e3).
Proof.
  intros HM HB He Hle.
  destruct (round_aux_shape s M e l HM) as (m2 & m3 & e3 & Hb & Hex & Hc & ->).
  rewrite fexp_eq in *.
  set (e1 := Z.max e (Z.max (Zdigits2 M + e - 53) (-1074))) in *.
  assert (He1 : e <= e1 <= -1) by (unfold e1; lia).
  set (n := e1 - e) in *.
  assert (Hp : 0 < 2 ^ n) by (apply Z.pow_pos_nonneg; lia).
  assert (Hpe : 2 ^ (- e) = 2 ^ (- e1) * 2 ^ n).
  { rewrite <- Z.pow_add_r by lia. f_equal. lia. }
  set (b := B * 2 ^ (- e1)).
  assert (Hb0 : 0 <= b) by (unfold b; apply Z.mul_nonneg_nonneg;
                            [lia|apply Z.pow_nonneg; lia]).
  assert (HBb : B * 2 ^ (- e) = b * 2 ^ n) by (unfold b; rewrite Hpe; ring).
  rewrite HBb in Hle.
  assert (Hm1 : 0 <= M / 2 ^ n) by (apply Z.div_pos; lia).
  assert (Hm2 : m2 <= b).
  { destruct (Z.eq_dec M (b * 2 ^ n)) as [E|N].
    - destruct Hle as [Hlt|[_ Hl]]; [lia|].
      rewrite (Hex Hl) by (rewrite E; apply Z.mod_mul; lia).
      rewrite E, Z.div_mul by lia. lia.
    - assert (Hlt : M < b * 2 ^ n) by (destruct Hle as [|[]]; lia).
      assert (M / 2 ^ n < b) by (apply Z.div_lt_upper_bound; lia).
      lia. }
  exists m3, e3. split; [reflexivity|].
  destruct Hc as [(-> & -> & Hlt)|(E2 & -> & ->)].
  - fold e1. repeat split; try lia; exact Hm2.
  - fold e1. assert (H2 : 2 ^ (- e1) = 2 * 2 ^ (- (e1 + 1))).
    { rewrite <- (Z.pow_succ_r 2 (- (e1 + 1))) by lia. f_equal. lia. }
    unfold b in Hm2. rewrite H2, E2 in Hm2.
    change (2 ^ 53) with (2 * 2 ^ 52) in Hm2.
    repeat split; try lia.
Qed.

(** The integer part of a float that is at most [B]. *)
Lemma trunc_rounded (m e B : Z) :
  0 <= m -> e <= 0 -> m <= B * 2 ^ (- e) ->
  exists k, int_of_float (rounded false m e) = Ret k /\ 0 <= k <= B.
Proof.
  intros Hm He Hle. destruct m as [|p|p]; try lia.
  - exists 0. split; [reflexivity|].
    assert (0 < 2 ^ (- e)) by (apply Z.pow_pos_nonneg; lia). nia.
  - unfold rounded. replace (e <=? emax - prec) with true
      by (symmetry; apply Z.leb_le; unfold emax, prec; lia).
    destruct e as [|q|q]; try lia.
    + exists (Z.pos p * 2 ^ 0). split; [reflexivity|].
      change (2 ^ (- 0)) with 1 in Hle. change (2 ^ 0) with 1. lia.
    + exists (Z.pos p / 2 ^ Z.pos q). split; [reflexivity|].
      change (- Z.neg q) with (Z.pos q) in Hle.
      assert (0 < 2 ^ Z.pos q) by (apply Z.pow_pos_nonneg; lia).
      split; [apply Z.div_pos; lia|].
      apply Z.div_le_upper_bound; lia.
Qed.

(** *** Percentages between 0 and 100 *)

Lemma of_Z_40 : of_Z 40 = S754_finite false 5629499534213120 (-47).
Proof. reflexivity. Qed.

Lemma of_Z_100 : of_Z 100 = S754_finite false 7036874417766400 (-46).
Proof. reflexivity. Qed.

(** [40 * x] for a float [x] between 0 and 100 is at most 4000. *)
Lemma mul_40_upper (m : positive) (e : Z) :
  Z.pos (digits2_pos m) <= 53 -> e <= -46 ->
  Z.pos m <= 100 * 2 ^ (- e) ->
  exists m3 e3,
    mul (of_Z 40) (S754_finite false m e) = rounded false m3 e3 /\
    0 <= m3 < 2 ^ 53 /\ e3 <= -39 /\ m3 <= 4000 * 2 ^ (- e3).
Proof.
  intros Hd He Hle. rewrite of_Z_40. unfold mul, SFmul. cbn [xorb].
  pose proof (digits_bounds m) as [_ Hm].
  assert (Hm53 : Z.pos m < 2 ^ 53).
  { assert (2 ^ Z.pos (digits2_pos m) <= 2 ^ 53)
      by (apply Z.pow_le_mono_r; lia). lia. }
  set (M := Z.pos (5629499534213120 * m)).
  assert (HM : M = 5629499534213120 * Z.pos m) by reflexivity.
  assert (Hdig : Zdigits2 M <= 106).
  { apply Zdigits2_le; [|lia]. split; [lia|]. rewrite HM.
    change (2 ^ 106) with (2 ^ 53 * 2 ^ 53).
    assert (5629499534213120 < 2 ^ 53) by reflexivity. nia. }
  assert (Hp : 2 ^ (- (-47 + e)) = 2 ^ 47 * 2 ^ (- e)).
  { rewrite <- Z.pow_add_r by lia. f_equal. lia. }
  destruct (round_aux_upper false M (-47 + e) loc_Exact 4000)
    as (m3 & e3 & Hr & Hm3 & He3 & _ & Hb); try lia.
  - right. split; [|reflexivity]. rewrite Hp, HM.
    change 5629499534213120 with (40 * 2 ^ 47). nia.
  - exists m3, e3. repeat split; try lia; assumption.
Qed.

(** [y / 100] for a float [y] between 0 and 4000 is at most 40. *)
Lemma div_100_upper (my : positive) (ey : Z) :
  Z.pos my < 2 ^ 53 -> ey <= -39 -> Z.pos my <= 4000 * 2 ^ (- ey) ->
  exists k,
    int_of_float (div (S754_finite false my ey) (of_Z 100)) = Ret k /\
    0 <= k <= 40.
Proof.
  intros Hm He Hle. rewrite of_Z_100. unfold div, SFdiv, SFdiv_core_binary.
  cbn [xorb].
  change (Zdigits2 (Z.pos 7036874417766400)) with 53.
  change (Zdigits2 (Z.pos my)) with (Z.pos (digits2_pos my)).
  assert (Hd : Z.pos (digits2_pos my) <= 53)
    by (apply (Zdigits2_le (Z.pos my)); lia).
  rewrite fexp_eq.
  set (e' := Z.min (Z.max (Z.pos (digits2_pos my) + ey - (53 + -46) - 53)
                      (-1074)) (ey - -46)).
  assert (He' : e' <= -46) by (unfold e'; lia).
  assert (Hs : 0 <= ey - -46 - e') by (unfold e'; lia).
  set (s := ey - -46 - e') in *.
  set (m' := match s with
             | 0 => Z.pos my
             | Z.pos _ => Z.shiftl (Z.pos my) s
             | Z.neg _ => 0
             end).
  assert (Hm' : m' = Z.pos my * 2 ^ s).
  { unfold m'. destruct s as [|p|p] eqn:E; cbv iota;
      [change (2 ^ 0) with 1; lia | apply Z.shiftl_mul_pow2; lia | lia]. }
  pose proof (Z.div_eucl_eq m' 7036874417766400 ltac:(lia)) as Hdm.
  pose proof (Z.mod_pos_bound m' 7036874417766400 ltac:(lia)) as Hr.
  unfold Z.modulo in Hr.
  destruct (Z.div_eucl m' 7036874417766400) as [q r].
  assert (Hps : 0 < 2 ^ s) by (apply Z.pow_pos_nonneg; lia).
  assert (Hpe : 0 < 2 ^ (- e')) by (apply Z.pow_pos_nonneg; lia).
  assert (Hq0 : 0 <= q) by nia.
  assert (Hpow : 2 ^ (- ey) * 2 ^ s = 2 ^ 46 * 2 ^ (- e')).
  { rewrite <- !Z.pow_add_r by lia. f_equal. unfold s. lia. }
  assert (Hbound : 7036874417766400 * q + r <= 4000 * 2 ^ 46 * 2 ^ (- e')).
  { rewrite <- Hdm, Hm'. nia. }
  change 7036874417766400 with (100 * 2 ^ 46) in *.
  assert (H46 : 0 < 2 ^ 46) by reflexivity.
  assert (Hq : q <= 40 * 2 ^ (- e')) by nia.
  assert (Hdq : Zdigits2 q <= 6 - e').
  { apply Zdigits2_le; [|lia]. split; [lia|].
    replace (6 - e') with (6 + - e') by lia.
    rewrite Z.pow_add_r by lia. change (2 ^ 6) with 64. lia. }
  destruct (round_aux_upper false q e'
              (new_location (100 * 2 ^ 46) r) 40)
    as (m3 & e3 & Hres & Hm3 & _ & He3 & Hb); try lia.
  - destruct (Z.eq_dec r 0) as [->|Hr0].
    + right. split; [exact Hq|reflexivity].
    + left. nia.
  - rewrite Hres. apply trunc_rounded; lia.
Qed.

Lemma SFleb_finite (m : positive) (e : Z) (m' : positive) (e' : Z) :
  SFleb (S754_finite false m e) (S754_finite false m' e') = true ->
  e < e' \/ (e = e' /\ Z.pos m <= Z.pos m').
Proof.
  unfold SFleb, SFcompare.
  destruct (Z.compare_spec e e') as [->|Hlt|Hgt]; try discriminate.
  - change (Pos.compare_cont Eq m m') with (Pos.compare m m').
    destruct (Pos.compare_spec m m') as [E|L|G]; intros H;
      try discriminate; right; split; try reflexivity.
    + rewrite E. lia.
    + apply Pos2Z.pos_lt_pos in L. lia.
  - intros _. now left.
Qed.

(** The bar of a percentage that is a float between 0 and 100 has between
    0 and 40 filled cells. *)
Lemma bar_ratio_float (x : float) :
  valid_binary prec emax x = true ->
  SFleb (S754_zero false) x = true ->
  SFleb x (of_Z 100) = true ->
  exists y k,
    bar_ratio (PFloat x) = Ret y /\ int_of_float y = Ret k /\
    0 <= k <= bar_length.
Proof.
  intros Hv H0 H100.
  assert (Hr : bar_ratio (PFloat x)
               = Ret (div (mul (of_Z 40) x) (of_Z 100))) by reflexivity.
  rewrite Hr. eexists.
  destruct x as [s| s | |s m e]; try discriminate.
  - exists 0. split; [reflexivity|]. destruct s; split; try reflexivity;
      unfold bar_length; lia.
  - destruct s; discriminate.
  - destruct s; [discriminate|].
    assert (Hd : Z.pos (digits2_pos m) <= 53).
    { simpl in Hv. apply andb_prop in Hv. destruct Hv as [Hc _].
      unfold canonical_mantissa in Hc. apply Z.eqb_eq in Hc.
      rewrite fexp_eq in Hc. lia. }
    pose proof (digits_bounds m) as [_ Hm].
    assert (Hm53 : Z.pos m < 2 ^ 53).
    { assert (2 ^ Z.pos (digits2_pos m) <= 2 ^ 53)
        by (apply Z.pow_le_mono_r; lia). lia. }
    assert (Hle : e <= -46 /\ Z.pos m <= 100 * 2 ^ (- e)).
    { rewrite of_Z_100 in H100.
      destruct (SFleb_finite _ _ _ _ H100) as [Hlt|[-> Hmm]].
      - split; [lia|].
        assert (2 ^ 47 <= 2 ^ (- e)) by (apply Z.pow_le_mono_r; lia).
        assert (H53 : 2 ^ 53 <= 100 * 2 ^ 47) by (vm_compute; discriminate).
        lia.
      - split; [lia|]. change (100 * 2 ^ (- -46)) with 7036874417766400.
        exact Hmm. }
    destruct Hle as [He Hle].
    destruct (mul_40_upper m e Hd He Hle) as (m3 & e3 & -> & Hm3 & He3 & Hb).
    destruct m3 as [|p|p]; try lia.
    + exists 0. split; [reflexivity|]. split; [reflexivity|].
      unfold bar_length. lia.
    + unfold rounded. replace (e3 <=? emax - prec) with true
        by (symmetry; apply Z.leb_le; unfold emax, prec; lia).
      destruct (div_100_upper p e3) as (k & Hk & Hk40); try lia.
      exists k. split; [reflexivity|]. split; [exact Hk|].
      unfold bar_length. lia.
Qed.

Lemma is_finite_opp (x : float) : is_finite (SFopp x) = is_finite x.
Proof. destruct x; reflexivity. Qed.

Lemma of_Z_finite_abs (n : Z) :
  Z.abs n < 2 ^ 1000 -> is_finite (of_Z n) = true.
Proof.
  intros H.
  assert (Hb : 2 ^ 1000 < 2 ^ 1024 - 2 ^ 970) by (vm_compute; reflexivity).
  destruct n as [|p|p].
  - reflexivity.
  - apply of_Z_finite. simpl in H. lia.
  - rewrite of_Z_neg, is_finite_opp. apply of_Z_finite. simpl in H. lia.
Qed.

(** The quotient of two integers of moderate size is a finite float. *)
Lemma of_ratio_finite (neg : bool) (a b : Z) :
  0 <= a < 2 ^ 1000 -> 0 < b -> is_finite (of_ratio neg a b) = true.
Proof.
  intros [Ha0 Ha] Hb. unfold of_ratio.
  destruct a as [|pa|pa]; [reflexivity| |lia].
  unfold SFdiv_core_binary.
  set (d1 := Zdigits2 (Z.pos pa)). set (d2 := Zdigits2 b).
  assert (Hd1 : 0 < d1 <= 1000).
  { split; [unfold d1; simpl; lia|]. apply Zdigits2_le; lia. }
  assert (Hd2 : 0 <= d2) by (apply Zdigits2_nonneg; lia).
  rewrite fexp_eq.
  set (e' := Z.min (Z.max (d1 + 0 - (d2 + 0) - 53) (-1074)) (0 - 0)).
  assert (He' : -1074 <= e' <= 0) by (unfold e'; lia).
  set (s := 0 - 0 - e').
  assert (Hs : s = - e') by (unfold s; lia).
  set (m' := match s with
             | 0 => Z.pos pa
             | Z.pos _ => Z.shiftl (Z.pos pa) s
             | Z.neg _ => 0
             end).
  assert (Hm' : m' = Z.pos pa * 2 ^ s).
  { unfold m'. destruct s as [|p|p] eqn:E; cbv iota;
      [change (2 ^ 0) with 1; lia | apply Z.shiftl_mul_pow2; lia | lia]. }
  pose proof (Z.div_eucl_eq m' b ltac:(lia)) as Hdm.
  pose proof (Z.mod_pos_bound m' b Hb) as Hr. unfold Z.modulo in Hr.
  destruct (Z.div_eucl m' b) as [q r].
  assert (Hps : 0 < 2 ^ s) by (apply Z.pow_pos_nonneg; lia).
  assert (Hq0 : 0 <= q) by nia.
  assert (Hq : q <= m') by nia.
  pose proof (Zdigits2_bounds (Z.pos pa) ltac:(lia)) as [_ Hu]. fold d1 in Hu.
  assert (Hdq : Zdigits2 q <= d1 + s).
  { apply Zdigits2_le; [|lia]. split; [lia|].
    rewrite Z.pow_add_r by lia. nia. }
  apply round_aux_finite_gen; lia.
Qed.

Lemma int_truediv_ret (a b : Z) :
  Z.abs a < 2 ^ 1000 -> b <> 0 -> exists x, int_truediv a b = Ret x.
Proof.
  intros Ha Hb. unfold int_truediv.
  replace (b =? 0) with false by (symmetry; apply Z.eqb_neq; assumption).
  rewrite of_ratio_finite by lia. eauto.
Qed.

Lemma trunc_int_of_float (x : float) (k : Z) :
  trunc x = Some k -> int_of_float x = Ret k.
Proof.
  destruct x; simpl; intros H; try discriminate; injection H as <-;
    reflexivity.
Qed.

Lemma format_fixed_number (k : nat) (v : pyval) :
  number_ok v = true -> exists t, format_fixed k v = Ret t.
Proof.
  destruct v; simpl; try discriminate; eauto.
  intros H. apply Z.ltb_lt in H. unfold float_of_int.
  rewrite of_Z_finite_abs by assumption. eauto.
Qed.

(** The bar of a percentage between 0 and 100. *)
Lemma bar_of_percentage (p : pyval) :
  percentage_ok p = true ->
  exists x k,
    bar_ratio p = Ret x /\ int_of_float x = Ret k /\ 0 <= k <= bar_length.
Proof.
  destruct p as [| |n|x| | |]; try discriminate; simpl.
  - intros H. apply andb_prop in H. destruct H as [H0 H1].
    apply Z.leb_le in H0, H1.
    assert (Hin : In n (map Z.of_nat (seq 0 101))).
    { apply in_map_iff. exists (Z.to_nat n). split; [lia|].
      apply in_seq. lia. }
    pose proof (proj1 (forallb_forall _ _) bar_ratio_floor_all n Hin) as Hc.
    unfold bar_ratio_floor in Hc.
    destruct (bar_ratio (PInt n)) as [x|]; [|discriminate].
    destruct (trunc x) as [k|] eqn:Hk; [|discriminate].
    apply andb_prop in Hc. destruct Hc as [Hc H2].
    apply andb_prop in Hc. destruct Hc as [_ H3].
    apply Z.leb_le in H2, H3.
    exists x, k. split; [reflexivity|].
    split; [now apply trunc_int_of_float|lia].
  - unfold in_percent_range. intros H.
    apply andb_prop in H. destruct H as [H H100].
    apply andb_prop in H. destruct H as [Hv H0].
    now apply bar_ratio_float.
Qed.

Lemma format_file_size_ok (v : pyval) :
  size_ok v = true -> exists t, format_file_size v = Ret t.
Proof.
  intros H. unfold format_file_size.
  destruct (eq_zero v); [eauto|].
  assert (Hf : exists x, to_float v = Ret x).
  { destruct v; try discriminate; simpl in *; eauto.
    apply andb_prop in H. destruct H as [H0 H1].
    apply Z.leb_le in H0. apply Z.ltb_lt in H1.
    unfold float_of_int. rewrite of_Z_finite_abs by lia. eauto. }
  destruct Hf as [x ->]. destruct (scale x 0) as [y i]. eauto.
Qed.

Lemma truediv_int_number (v : pyval) :
  number_ok v = true -> exists x, truediv_int v 1000 = Ret x.
Proof.
  destruct v; simpl; try discriminate.
  - intros H. apply Z.ltb_lt in H. apply int_truediv_ret; lia.
  - intros _. eauto.
Qed.

Lemma eta_text_ok (eta : pyval) :
  eta_ok eta = true -> exists t, eta_text eta = Ret t.
Proof.
  intros H. unfold eta_text. destruct (truthy eta) eqn:Ht; [|eauto].
  assert (Hn : number_ok eta = true) by (destruct eta; try discriminate; auto).
  destruct (format_fixed_number 0 eta Hn) as [t ->]. eauto.
Qed.

Lemma percentage_is_number (p : pyval) :
  percentage_ok p = true -> exists t, format_fixed 1 p = Ret t.
Proof.
  destruct p; simpl; try discriminate; eauto.
  intros H. apply andb_prop in H. destruct H as [H0 H1].
  apply Z.leb_le in H0, H1. unfold float_of_int.
  assert (Z.abs n < 2 ^ 1000).
  { assert (100 < 2 ^ 1000) by (vm_compute; reflexivity). lia. }
  rewrite of_Z_finite_abs by assumption. eauto.
Qed.

(** A progress line whose parts can all be computed is printed. *)
Lemma on_chapter_progress_ret d s x k size_str eta_str pct spd kbps :
  bar_ratio (dict_get d "progress_percentage" (PInt 0)) = Ret x ->
  int_of_float x = Ret k ->
  format_file_size (dict_get d "file_size" (PInt 0)) = Ret size_str ->
  eta_text (dict_get d "eta_seconds" PNone) = Ret eta_str ->
  format_fixed 1 (dict_get d "progress_percentage" (PInt 0)) = Ret pct ->
  format_fixed 1 (dict_get d "speed" (PInt 0)) = Ret spd ->
  truediv_int (dict_get d "bitrate" (PInt 0)) 1000 = Ret kbps ->
  on_chapter_progress (PDict d) s
  = (Ret tt, s,
     [Text cr; Text "  ";
      Text (PyStr.repeat "█" k ++ PyStr.repeat "░" (bar_length - k));
      Text " "; Text (PyStr.pad_left 5 pct); Text "% | Speed: ";
      Text spd; Text "x | Bitrate: "; Text (format_f 0 kbps);
      Text "kbps | Size: "; Text size_str; Text " | ETA: ";
      Text eta_str]).
Proof.
  intros Hx Hk Hsz He Hpct Hspd Hkb.
  unfold on_chapter_progress, get_field. simpl get.
  rewrite !bind_lift_ret.
  unfold bar_ratio in Hx.
  destruct (mul_int bar_length (dict_get d "progress_percentage" (PInt 0)))
    as [scaled|]; [|discriminate].
  rewrite bind_lift_ret, Hx, bind_lift_ret, Hk, bind_lift_ret, Hsz,
    bind_lift_ret.
  rewrite (bind_ext_l _ _ _ _ (eta_text_lift _ _)).
  rewrite He, bind_lift_ret, Hpct, bind_lift_ret, Hspd, bind_lift_ret, Hkb,
    bind_lift_ret.
  reflexivity.
Qed.

(** X21. When progress_percentage is a number between 0 and 100, an
    integer or a float, the bar of the rendered line has [k] filled cells
    followed by [40 - k] empty ones with [0 <= k <= 40]: it is exactly 40
    cells wide, and the missing clamp is not needed. *)
Theorem percentage_in_range_fills_bar (now : float) (event p : pyval)
        (s s' : parser) (out : list piece) :
  has_type event "chapter_progress" = true ->
  get event "progress_percentage" (PInt 0) = Ret p ->
  percentage_ok p = true ->
  handle_event now event s = (Ret tt, s', out) ->
  exists k,
    0 <= k <= bar_length /\
    bar_of out = PyStr.repeat "█" k ++ PyStr.repeat "░" (bar_length - k) /\
    filled_cells (bar_of out) = Z.to_nat k /\
    cells (bar_of out) = bar_length.
Proof.
  intros Ht Hp Hok Hh.
  destruct (has_type_is_dict _ _ Ht) as [d ->].
  rewrite (handle_chapter_progress _ _ _ Ht) in Hh.
  simpl in Hp. injection Hp as <-.
  apply on_chapter_progress_ok in Hh.
  destruct Hh as (x & k & sz & et & pct & spd & kbps
                  & Hx & Hk & _ & _ & _ & _ & _ & _ & ->).
  destruct (bar_of_percentage _ Hok) as (x' & k' & Hx' & Hk' & Hb).
  rewrite Hx in Hx'. injection Hx' as <-.
  rewrite Hk in Hk'. injection Hk' as <-.
  exists k. split; [exact Hb|].
  match goal with
  | |- context [bar_of ?o] =>
      change (bar_of o)
        with (PyStr.repeat "█" k ++ PyStr.repeat "░" (bar_length - k))
  end.
  split; [reflexivity|]. split; [apply filled_cells_bar|].
  rewrite cells_bar. unfold bar_length in *. lia.
Qed.

Lemma percentage_in_range_fills_bar_witness :
  let x := of_decimal false 999 (-1) in
  let event :=
    PDict [("type", PStr "chapter_progress");
           ("progress_percentage", PFloat x)] in
  let r := handle_event (of_Z 0) event init in
  percentage_ok (PFloat x) = true /\
  result r = Ret tt /\
  filled_cells (bar_of (printed r)) = 39%nat /\
  exists k,
    0 <= k <= bar_length /\
    bar_of (printed r)
    = PyStr.repeat "█" k ++ PyStr.repeat "░" (bar_length - k) /\
    filled_cells (bar_of (printed r)) = Z.to_nat k /\
    cells (bar_of (printed r)) = bar_length.
Proof.
  intros x event r. split; [vm_compute; reflexivity|].
  split; [vm_compute; reflexivity|]. split; [vm_compute; reflexivity|].
  apply (percentage_in_range_fills_bar (of_Z 0) event (PFloat x) init
           (final r) (printed r)).
  - reflexivity.
  - reflexivity.
  - vm_compute. reflexivity.
  - vm_compute. reflexivity.
Defined.

Lemma on_chapter_progress_conforms d s :
  progress_conforms d = true ->
  exists out, on_chapter_progress (PDict d) s = (Ret tt, s, out).
Proof.
  unfold progress_conforms. intros H.
  apply andb_prop in H. destruct H as [H Heta].
  apply andb_prop in H. destruct H as [H Hsize].
  apply andb_prop in H. destruct H as [H Hrate].
  apply andb_prop in H. destruct H as [Hpct Hspeed].
  destruct (bar_of_percentage _ Hpct) as (x & k & Hx & Hk & _).
  destruct (format_file_size_ok _ Hsize) as [sz Hsz].
  destruct (eta_text_ok _ Heta) as [et Het].
  destruct (percentage_is_number _ Hpct) as [pct Hp].
  destruct (format_fixed_number 1 _ Hspeed) as [spd Hspd].
  destruct (truediv_int_number _ Hrate) as [kbps Hkb].
  eexists. now apply (on_chapter_progress_ret d s x k sz et pct spd kbps).
Qed.

(** X22. A chapter_progress event whose fields are typed as the protocol
    types them is always rendered: when progress_percentage is a number
    between 0 and 100, speed and bitrate are numbers, file_size is a
    non-negative integer or a float, and eta_seconds is absent, [null] or a
    number (integers of less than a thousand bits), the handler raises
    nothing, leaves the attributes as they were and prints one line of
    thirteen pieces whose bar is 40 cells wide. *)
Theorem conforming_progress_is_rendered (now : float)
        (d : list (string * pyval)) (s : parser) :
  has_type (PDict d) "chapter_progress" = true ->
  progress_conforms d = true ->
  exists out,
    handle_event now (PDict d) s = (Ret tt, s, out) /\
    List.length out = 13%nat /\
    cells (bar_of out) = bar_length.
Proof.
  intros Ht Hc. rewrite (handle_chapter_progress _ _ _ Ht).
  destruct (on_chapter_progress_conforms d s Hc) as [out Hout].
  exists out. split; [exact Hout|].
  pose proof Hout as Hh. apply on_chapter_progress_ok in Hh.
  destruct Hh as (x & k & sz & et & pct & spd & kbps
                  & Hx & Hk & _ & _ & _ & _ & _ & _ & ->).
  split; [reflexivity|].
  unfold progress_conforms in Hc.
  destruct (percentage_ok (dict_get d "progress_percentage" (PInt 0)))
    eqn:Hpct; [|discriminate].
  destruct (bar_of_percentage _ Hpct) as (x' & k' & Hx' & Hk' & Hb).
  rewrite Hx in Hx'. injection Hx' as <-.
  rewrite Hk in Hk'. injection Hk' as <-.
  match goal with
  | |- context [bar_of ?o] =>
      change (bar_of o)
        with (PyStr.repeat "█" k ++ PyStr.repeat "░" (bar_length - k))
  end.
  rewrite cells_bar. unfold bar_length in *. lia.
Qed.

Lemma conforming_progress_is_rendered_witness :
  let d := [("type", PStr "chapter_progress");
            ("chapter_number", PInt 1);
            ("progress_percentage", PFloat (of_decimal false 125 (-1)));
            ("speed", PFloat (of_decimal false 15 (-1)));
            ("bitrate", PFloat (of_Z 128000));
            ("file_size", PInt 1536);
            ("eta_seconds", PFloat (of_decimal false 427 (-1)))] in
  has_type (PDict d) "chapter_progress" = true /\
  progress_conforms d = true /\
  exists out,
    handle_event (of_Z 0) (PDict d) init = (Ret tt, init, out) /\
    List.length out = 13%nat /\
    cells (bar_of out) = bar_length.
Proof.
  intros d. split; [reflexivity|]. split; [vm_compute; reflexivity|].
  apply (conforming_progress_is_rendered (of_Z 0) d init).
  - reflexivity.
  - vm_compute. reflexivity.
Defined.

(** *** Output that follows the protocol *)






End Properties.
